(** * TetrisExperience: the game engine of [src/components/TetrisExperience.tsx]

    A shallow embedding of the reducer and of the pure helpers it is built
    from (shape table, kick tables, collision test, merge, full-row
    detection, row collapse, bag randomizer, scoring).

    Conventions of the embedding.
    - A JavaScript [number] holding an integer is a [Z]; [%] is [Z.rem]
      (the sign follows the dividend), [Math.floor (a / 10)] is [a / 10]
      on [Z] (floor division).  The score is the one field that can leave
      the integers ([SCORES[n]] is [undefined] past the table and the sum
      is then [NaN]), so it is a [number].
    - An array is a [list]; [a[i]] is stdpp's lookup, [None] standing for
      [undefined].  Reading a property of [undefined] throws, which is the
      [TypeError] outcome.
    - [Math.random] is an explicit entropy source threaded through the code
      that consumes it. *)

From Stdlib Require Import ZArith Lia Permutation Sorted.
From stdpp Require Import base tactics option list strings pretty gmap.

Local Open Scope Z_scope.

(** ** Constants *)

Definition BOARD_WIDTH : Z := 10.
Definition BOARD_HEIGHT : Z := 22.
Definition VISIBLE_ROWS : Z := 20.
Definition INITIAL_DROP_DELAY : Z := 1000.
Definition MIN_DROP_DELAY : Z := 60.

(** ** Types *)

Inductive GameStateStatus := Idle | Playing | Paused | Gameover.

(** The seven kinds ["I" | "J" | "L" | "O" | "S" | "T" | "Z"]; the underscore
    keeps them apart from the constructors of [nat] and the type [Z]. *)
Inductive TetrominoKey := I_ | J_ | L_ | O_ | S_ | T_ | Z_.

#[global] Instance GameStateStatus_eq_dec : EqDecision GameStateStatus.
Proof. solve_decision. Defined.

#[global] Instance TetrominoKey_eq_dec : EqDecision TetrominoKey.
Proof. solve_decision. Defined.

(** [clearing?: boolean] is an optional property: [None] when absent. *)
Record Cell := mkCell {
  cell_type : TetrominoKey;
  locked : bool;
  clearing : option bool
}.

Record Pos := mkPos { px : Z; py : Z }.

Record ActivePiece := mkPiece {
  type : TetrominoKey;
  rotation : Z;
  position : Pos
}.

Record GameStats := mkStats {
  singles : Z;
  doubles : Z;
  triples : Z;
  tetrises : Z;
  combos : Z;
  maxCombo : Z
}.

(** A JavaScript number as far as the score needs it. *)
Inductive number := Num (z : Z) | NaN.

Definition num_add (a b : number) : number :=
  match a, b with
  | Num x, Num y => Num (x + y)
  | _, _ => NaN
  end.

Definition num_mul (a b : number) : number :=
  match a, b with
  | Num x, Num y => Num (x * y)
  | _, _ => NaN
  end.

Abbreviation Row := (list (option Cell)).
Abbreviation Board := (list (list (option Cell))).

Record GameState := mkState {
  board : Board;
  current : ActivePiece;
  nextQueue : list TetrominoKey;
  holdPiece : option TetrominoKey;
  canHold : bool;
  status : GameStateStatus;
  score : number;
  level : Z;
  lines : Z;
  combo : Z;
  stats : GameStats;
  linesToClear : list Z;
  dropDelay : Z
}.

(** The direction of a rotation, [1 | -1] in the source. *)
Inductive Direction := Clockwise | Counterclockwise.

Definition direction_value (d : Direction) : Z :=
  match d with Clockwise => 1 | Counterclockwise => -1 end.

Inductive Action :=
| RESET (piece : ActivePiece) (queue : list TetrominoKey)
| TICK
| MOVE (dx dy : Z)
| ROTATE (direction : Direction)
| HARD_DROP
| HOLD
| PAUSE_TOGGLE
| RESUME
| GAME_OVER
| APPLY_CLEARING
| APPLY_LINES
| SET_STATUS (payload : GameStateStatus)
| SET_HIGH_SCORE (payload : Z).

(** ** Outcomes

    A call either returns, throws the [TypeError] of a property read on
    [undefined], or (for the one unbounded loop, in the model only) runs
    out of the fuel it was given. *)

Inductive outcome (A : Type) :=
| Ok (a : A)
| TypeError
| OutOfFuel.
Arguments Ok {A} a.
Arguments TypeError {A}.
Arguments OutOfFuel {A}.

Definition obind {A B} (m : outcome A) (f : A -> outcome B) : outcome B :=
  match m with
  | Ok a => f a
  | TypeError => TypeError
  | OutOfFuel => OutOfFuel
  end.

(** The entropy source: [draws k] is what the [k]-th call of [Math.random]
    yields, as a natural number that [Math.floor (Math.random () * n)]
    reduces to the range [0 .. n-1]; [cursor] counts the calls made. *)
Record Rng := mkRng { draws : nat -> nat; cursor : nat }.

Definition M (A : Type) : Type := Rng -> outcome (A * Rng).

Definition ret {A} (a : A) : M A := fun g => Ok (a, g).

Definition bind {A B} (m : M A) (f : A -> M B) : M B :=
  fun g => match m g with
           | Ok (a, g') => f a g'
           | TypeError => TypeError
           | OutOfFuel => OutOfFuel
           end.

Definition lift {A} (o : outcome A) : M A :=
  fun g => match o with
           | Ok a => Ok (a, g)
           | TypeError => TypeError
           | OutOfFuel => OutOfFuel
           end.

Declare Scope engine_scope.
Delimit Scope engine_scope with engine.
Notation "'let*' x ':=' c 'in' k" := (bind c (fun x => k))
  (at level 10, x pattern, c at level 100, k at level 200) : engine_scope.
Notation "'let+' x ':=' c 'in' k" := (obind c (fun x => k))
  (at level 10, x pattern, c at level 100, k at level 200) : engine_scope.
Local Open Scope engine_scope.

(** [Math.floor (Math.random () * n)] *)
Definition random_below (n : nat) : M nat :=
  fun g => Ok ((draws g (cursor g) mod n)%nat, mkRng (draws g) (S (cursor g))).

(** ** Shape table *)

Definition TETROMINOES (k : TetrominoKey) : list (list (list Z)) :=
  match k with
  | I_ => [ [ [0;0;0;0]; [1;1;1;1]; [0;0;0;0]; [0;0;0;0] ];
           [ [0;0;1;0]; [0;0;1;0]; [0;0;1;0]; [0;0;1;0] ];
           [ [0;0;0;0]; [0;0;0;0]; [1;1;1;1]; [0;0;0;0] ];
           [ [0;1;0;0]; [0;1;0;0]; [0;1;0;0]; [0;1;0;0] ] ]
  | J_ => [ [ [1;0;0]; [1;1;1]; [0;0;0] ];
           [ [0;1;1]; [0;1;0]; [0;1;0] ];
           [ [0;0;0]; [1;1;1]; [0;0;1] ];
           [ [0;1;0]; [0;1;0]; [1;1;0] ] ]
  | L_ => [ [ [0;0;1]; [1;1;1]; [0;0;0] ];
           [ [0;1;0]; [0;1;0]; [0;1;1] ];
           [ [0;0;0]; [1;1;1]; [1;0;0] ];
           [ [1;1;0]; [0;1;0]; [0;1;0] ] ]
  | O_ => [ [ [0;1;1;0]; [0;1;1;0]; [0;0;0;0]; [0;0;0;0] ] ]
  | S_ => [ [ [0;1;1]; [1;1;0]; [0;0;0] ];
           [ [0;1;0]; [0;1;1]; [0;0;1] ];
           [ [0;0;0]; [0;1;1]; [1;1;0] ];
           [ [1;0;0]; [1;1;0]; [0;1;0] ] ]
  | T_ => [ [ [0;1;0]; [1;1;1]; [0;0;0] ];
           [ [0;1;0]; [0;1;1]; [0;1;0] ];
           [ [0;0;0]; [1;1;1]; [0;1;0] ];
           [ [0;1;0]; [1;1;0]; [0;1;0] ] ]
  | Z_ => [ [ [1;1;0]; [0;1;1]; [0;0;0] ];
            [ [0;0;1]; [0;1;1]; [0;1;0] ];
            [ [0;0;0]; [1;1;0]; [0;1;1] ];
            [ [0;1;0]; [1;1;0]; [1;0;0] ] ]
  end.

Definition SCORES : list Z := [0; 100; 300; 500; 800].

(** ** Kick tables

    The tables are objects keyed by the strings ["0>1"], ["1>0"], ... *)

Definition kick (x y : Z) : Pos := mkPos x y.

Definition SRS_KICKS_I : gmap string (list Pos) :=
  list_to_map [
    ("0>1", [kick 0 0; kick (-2) 0; kick 1 0; kick (-2) (-1); kick 1 2]);
    ("1>0", [kick 0 0; kick 2 0; kick (-1) 0; kick 2 1; kick (-1) (-2)]);
    ("1>2", [kick 0 0; kick (-1) 0; kick 2 0; kick (-1) 2; kick 2 (-1)]);
    ("2>1", [kick 0 0; kick 1 0; kick (-2) 0; kick 1 (-2); kick (-2) 1]);
    ("2>3", [kick 0 0; kick 2 0; kick (-1) 0; kick 2 1; kick (-1) (-2)]);
    ("3>2", [kick 0 0; kick (-2) 0; kick 1 0; kick (-2) (-1); kick 1 2]);
    ("3>0", [kick 0 0; kick 1 0; kick (-2) 0; kick 1 (-2); kick (-2) 1]);
    ("0>3", [kick 0 0; kick (-1) 0; kick 2 0; kick (-1) 2; kick 2 (-1)])
  ]%string.

Definition SRS_KICKS_DEFAULT : gmap string (list Pos) :=
  list_to_map [
    ("0>1", [kick 0 0; kick (-1) 0; kick (-1) 1; kick 0 (-2); kick (-1) (-2)]);
    ("1>0", [kick 0 0; kick 1 0; kick 1 (-1); kick 0 2; kick 1 2]);
    ("1>2", [kick 0 0; kick 1 0; kick 1 (-1); kick 0 2; kick 1 2]);
    ("2>1", [kick 0 0; kick (-1) 0; kick (-1) 1; kick 0 (-2); kick (-1) (-2)]);
    ("2>3", [kick 0 0; kick 1 0; kick 1 1; kick 0 (-2); kick 1 (-2)]);
    ("3>2", [kick 0 0; kick (-1) 0; kick (-1) (-1); kick 0 2; kick (-1) 2]);
    ("3>0", [kick 0 0; kick (-1) 0; kick (-1) (-1); kick 0 2; kick (-1) 2]);
    ("0>3", [kick 0 0; kick 1 0; kick 1 1; kick 0 (-2); kick 1 (-2)])
  ]%string.

(** [a[i]] for a numeric index: [undefined] below zero and past the end. *)
Definition at_index {A} (l : list A) (i : Z) : option A :=
  if i <? 0 then None else l !! Z.to_nat i.

Definition EMPTY_ROW : Row := replicate (Z.to_nat BOARD_WIDTH) None.

Definition EMPTY_BOARD : Board := replicate (Z.to_nat BOARD_HEIGHT) EMPTY_ROW.

(** [variations[rotation % variations.length]] *)
Definition getPieceMatrix (piece : TetrominoKey) (rotation : Z) : option (list (list Z)) :=
  let variations := TETROMINOES piece in
  at_index variations (Z.rem rotation (Z.of_nat (length variations))).

Definition getRotationKey (from to : Z) : string :=
  (pretty (Z.rem from 4) +:+ ">" +:+ pretty (Z.rem to 4))%string.

(** ** Randomizer *)

(** [[bag[i], bag[j]] = [bag[j], bag[i]]] *)
Definition swap {A} (bag : list A) (i j : nat) : list A :=
  match bag !! i, bag !! j with
  | Some a, Some b => <[j:=a]> (<[i:=b]> bag)
  | _, _ => bag
  end.

(** The loop [for (let i = bag.length - 1; i > 0; i -= 1)], entered at [i]. *)
Fixpoint shuffle_from {A} (i : nat) (bag : list A) : M (list A) :=
  match i with
  | O => ret bag
  | S i' =>
      let* j := random_below (S i) in
      shuffle_from i' (swap bag i j)
  end.

Definition randomBag : M (list TetrominoKey) :=
  let bag := [I_; J_; L_; O_; S_; T_; Z_] in
  shuffle_from (length bag - 1) bag.

Definition spawn_pose (k : TetrominoKey) : ActivePiece :=
  mkPiece k 0 (mkPos 3 0).

Definition startingState : M GameState :=
  let* queue := randomBag in
  (* [queue.shift()!]: the bag holds seven kinds, the head is there *)
  let first := hd I_ queue in
  let queue := tl queue in
  let* bag := randomBag in
  ret {| board := EMPTY_BOARD;
         current := spawn_pose first;
         nextQueue := queue ++ bag;
         holdPiece := None;
         canHold := true;
         status := Idle;
         score := Num 0;
         level := 1;
         lines := 0;
         combo := -1;
         stats := mkStats 0 0 0 0 0 0;
         linesToClear := [];
         dropDelay := INITIAL_DROP_DELAY |}.

(** ** Board *)

(** [{ ...cell }] *)
Definition copy_cell (c : Cell) : Cell :=
  {| cell_type := cell_type c; locked := locked c; clearing := clearing c |}.

Definition cloneBoard (board : Board) : Board :=
  map (fun row => map (fun cell => match cell with
                                  | Some c => Some (copy_cell c)
                                  | None => None
                                  end) row) board.

(** [Boolean(cell)] for a cell or [null] or [undefined] *)
Definition truthy {A} (c : option A) : bool :=
  match c with Some _ => true | None => false end.

(** [board[y][x]] for [0 <= y] and [0 <= x]: a missing row throws, a missing
    column reads [undefined]. *)
Definition board_at (board : Board) (x y : Z) : outcome (option Cell) :=
  match at_index board y with
  | None => TypeError
  | Some row => Ok (match at_index row x with Some c => c | None => None end)
  end.

Definition isCellOccupied (board : Board) (x y : Z) : outcome bool :=
  if (x <? 0) || (x >=? BOARD_WIDTH) || (y >=? BOARD_HEIGHT) then Ok true
  else if y <? 0 then Ok false
  else let+ c := board_at board x y in Ok (truthy c).

(** The inner loop of [collides] over the cells of matrix row [y], from
    column [x] on; [Ok false] means the row ran to its end. *)
Fixpoint collides_cells (board : Board) (pos : Pos) (y x : Z) (cells : list Z) : outcome bool :=
  match cells with
  | [] => Ok false
  | v :: cells' =>
      if v =? 0 then collides_cells board pos y (x + 1) cells'
      else
        let boardX := px pos + x in
        let boardY := py pos + y in
        if (boardX <? 0) || (boardX >=? BOARD_WIDTH) || (boardY >=? BOARD_HEIGHT) then Ok true
        else if boardY >=? 0 then
          let+ c := board_at board boardX boardY in
          if truthy c then Ok true else collides_cells board pos y (x + 1) cells'
        else collides_cells board pos y (x + 1) cells'
  end.

(** The outer loop of [collides], from matrix row [y] on. *)
Fixpoint collides_rows (board : Board) (pos : Pos) (y : Z) (rows : list (list Z)) : outcome bool :=
  match rows with
  | [] => Ok false
  | row :: rows' =>
      let+ hit := collides_cells board pos y 0 row in
      if hit then Ok true else collides_rows board pos (y + 1) rows'
  end.

(** [position] and [rotation] are optional parameters. *)
Definition collides (board : Board) (piece : ActivePiece)
    (position_opt : option Pos) (rotation_opt : option Z) : outcome bool :=
  match getPieceMatrix (type piece) (default (rotation piece) rotation_opt) with
  | None => TypeError
  | Some matrix =>
      let pos := default (position piece) position_opt in
      collides_rows board pos 0 matrix
  end.

(** [row[x] = cell]: an assignment past the end extends the array.  The
    slots in between are holes, which read as [undefined]; they are [None]
    here, as [null] is. *)
Definition write_at {A} (row : list (option A)) (x : nat) (cell : option A) : list (option A) :=
  if (x <? length row)%nat then <[x:=cell]> row
  else row ++ replicate (x - length row) None ++ [cell].

(** [nextBoard[boardY][boardX] = cell] *)
Definition set_cell (nextBoard : Board) (boardX boardY : Z) (cell : Cell) : outcome Board :=
  match at_index nextBoard boardY with
  | None => TypeError
  | Some row =>
      Ok (<[Z.to_nat boardY := write_at row (Z.to_nat boardX) (Some cell)]> nextBoard)
  end.

Fixpoint merge_cells (piece : ActivePiece) (y x : Z) (cells : list Z) (nextBoard : Board) : outcome Board :=
  match cells with
  | [] => Ok nextBoard
  | value :: cells' =>
      if value =? 0 then merge_cells piece y (x + 1) cells' nextBoard
      else
        let boardX := px (position piece) + x in
        let boardY := py (position piece) + y in
        if (boardY >=? 0) && (boardY <? BOARD_HEIGHT) && (boardX >=? 0) && (boardX <? BOARD_WIDTH) then
          let+ nextBoard' := set_cell nextBoard boardX boardY (mkCell (type piece) true None) in
          merge_cells piece y (x + 1) cells' nextBoard'
        else merge_cells piece y (x + 1) cells' nextBoard
  end.

Fixpoint merge_rows (piece : ActivePiece) (y : Z) (rows : list (list Z)) (nextBoard : Board) : outcome Board :=
  match rows with
  | [] => Ok nextBoard
  | row :: rows' =>
      let+ nextBoard' := merge_cells piece y 0 row nextBoard in
      merge_rows piece (y + 1) rows' nextBoard'
  end.

Definition mergePiece (board : Board) (piece : ActivePiece) : outcome Board :=
  let nextBoard := cloneBoard board in
  match getPieceMatrix (type piece) (rotation piece) with
  | None => TypeError
  | Some matrix => merge_rows piece 0 matrix nextBoard
  end.

(** [board.forEach((row, y) => ...)] from row index [y] on *)
Fixpoint full_lines_from (y : Z) (board : Board) : list Z :=
  match board with
  | [] => []
  | row :: board' =>
      (if forallb truthy row then [y] else []) ++ full_lines_from (y + 1) board'
  end.

Definition findFullLines (board : Board) : list Z := full_lines_from 0 board.

(** [a.splice(start, 1)]: a negative [start] counts from the end, clamped at
    the first element; past the end nothing is removed. *)
Definition splice1 {A} (a : list A) (start : Z) : list A :=
  let len := Z.of_nat (length a) in
  let actualStart := if start <? 0 then Z.max (len + start) 0 else Z.min start len in
  delete (Z.to_nat actualStart) a.

Definition clearFullLines (board : Board) (lines : list Z) : Board :=
  match lines with
  | [] => board
  | _ =>
      fold_left (fun nextBoard line => EMPTY_ROW :: splice1 nextBoard line)
                lines (cloneBoard board)
  end.

(** ** Kick resolver *)

Record Kicked := mkKicked { kicked_position : Pos; kicked_rotation : Z }.

(** The loop [for (const kick of kicks)] *)
Fixpoint try_kicks (board : Board) (piece : ActivePiece) (nextRotation : Z)
    (kicks : list Pos) : outcome (option Kicked) :=
  match kicks with
  | [] => Ok None
  | k :: kicks' =>
      let candidatePos := mkPos (px (position piece) + px k) (py (position piece) + py k) in
      let+ hit := collides board piece (Some candidatePos) (Some nextRotation) in
      if negb hit then Ok (Some (mkKicked candidatePos nextRotation))
      else try_kicks board piece nextRotation kicks'
  end.

Definition applyKickTests (board : Board) (piece : ActivePiece) (direction : Direction)
    : outcome (option Kicked) :=
  let nextRotation := Z.rem (rotation piece + direction_value direction + 4) 4 in
  let key := getRotationKey (rotation piece) nextRotation in
  let kicksTable : gmap string (list Pos) :=
    match type piece with
    | O_ => {[ key := [kick 0 0] ]}
    | I_ => SRS_KICKS_I
    | _ => SRS_KICKS_DEFAULT
    end in
  let kicks := default [kick 0 0] (kicksTable !! key) in
  try_kicks board piece nextRotation kicks.

(** ** Spawning *)

Record Spawn := mkSpawn { spawn_piece : ActivePiece; spawn_queue : list TetrominoKey }.

(** [spawnPiece] pushes a bag onto the array it is given when that array is
    empty, so the caller's array changes.  The result pairs the returned
    object with the argument array as the call leaves it. *)
Definition spawnPiece (queue : list TetrominoKey) : M (Spawn * list TetrominoKey) :=
  let* queue :=
    match queue with
    | [] => let* bag := randomBag in ret (queue ++ bag)
    | _ => ret queue
    end in
  (* [const [nextPiece, ...rest] = queue]: the array is not empty here *)
  let nextPiece := hd I_ queue in
  let rest := tl queue in
  let* queue' :=
    if (length rest <=? 7)%nat
    then let* bag := randomBag in ret (rest ++ bag)
    else ret rest in
  ret (mkSpawn (spawn_pose nextPiece) queue', queue).

(** ** Scoring and levelling *)

Definition calculateLevel (lines : Z) : Z := Z.min 20 (lines / 10 + 1).

Definition calculateDelay (level : Z) : Z :=
  Z.max MIN_DROP_DELAY (INITIAL_DROP_DELAY - (level - 1) * 70).

(** [SCORES[n] + comboBonus]: [undefined + k] is [NaN]. *)
Definition score_at (n : nat) : number :=
  match SCORES !! n with
  | Some z => Num z
  | None => NaN
  end.

(** ** Object spread

    [{ ...state, f: v }] is [with_f v state]. *)

Definition with_board (v : Board) (s : GameState) : GameState :=
  mkState v (current s) (nextQueue s) (holdPiece s) (canHold s) (status s) (score s)
          (level s) (lines s) (combo s) (stats s) (linesToClear s) (dropDelay s).
Definition with_current (v : ActivePiece) (s : GameState) : GameState :=
  mkState (board s) v (nextQueue s) (holdPiece s) (canHold s) (status s) (score s)
          (level s) (lines s) (combo s) (stats s) (linesToClear s) (dropDelay s).
Definition with_nextQueue (v : list TetrominoKey) (s : GameState) : GameState :=
  mkState (board s) (current s) v (holdPiece s) (canHold s) (status s) (score s)
          (level s) (lines s) (combo s) (stats s) (linesToClear s) (dropDelay s).
Definition with_holdPiece (v : option TetrominoKey) (s : GameState) : GameState :=
  mkState (board s) (current s) (nextQueue s) v (canHold s) (status s) (score s)
          (level s) (lines s) (combo s) (stats s) (linesToClear s) (dropDelay s).
Definition with_canHold (v : bool) (s : GameState) : GameState :=
  mkState (board s) (current s) (nextQueue s) (holdPiece s) v (status s) (score s)
          (level s) (lines s) (combo s) (stats s) (linesToClear s) (dropDelay s).
Definition with_status (v : GameStateStatus) (s : GameState) : GameState :=
  mkState (board s) (current s) (nextQueue s) (holdPiece s) (canHold s) v (score s)
          (level s) (lines s) (combo s) (stats s) (linesToClear s) (dropDelay s).
Definition with_score (v : number) (s : GameState) : GameState :=
  mkState (board s) (current s) (nextQueue s) (holdPiece s) (canHold s) (status s) v
          (level s) (lines s) (combo s) (stats s) (linesToClear s) (dropDelay s).
Definition with_level (v : Z) (s : GameState) : GameState :=
  mkState (board s) (current s) (nextQueue s) (holdPiece s) (canHold s) (status s) (score s)
          v (lines s) (combo s) (stats s) (linesToClear s) (dropDelay s).
Definition with_lines (v : Z) (s : GameState) : GameState :=
  mkState (board s) (current s) (nextQueue s) (holdPiece s) (canHold s) (status s) (score s)
          (level s) v (combo s) (stats s) (linesToClear s) (dropDelay s).
Definition with_combo (v : Z) (s : GameState) : GameState :=
  mkState (board s) (current s) (nextQueue s) (holdPiece s) (canHold s) (status s) (score s)
          (level s) (lines s) v (stats s) (linesToClear s) (dropDelay s).
Definition with_stats (v : GameStats) (s : GameState) : GameState :=
  mkState (board s) (current s) (nextQueue s) (holdPiece s) (canHold s) (status s) (score s)
          (level s) (lines s) (combo s) v (linesToClear s) (dropDelay s).
Definition with_linesToClear (v : list Z) (s : GameState) : GameState :=
  mkState (board s) (current s) (nextQueue s) (holdPiece s) (canHold s) (status s) (score s)
          (level s) (lines s) (combo s) (stats s) v (dropDelay s).
Definition with_dropDelay (v : Z) (s : GameState) : GameState :=
  mkState (board s) (current s) (nextQueue s) (holdPiece s) (canHold s) (status s) (score s)
          (level s) (lines s) (combo s) (stats s) (linesToClear s) v.

Definition with_position (v : Pos) (p : ActivePiece) : ActivePiece :=
  mkPiece (type p) (rotation p) v.
Definition with_rotation (v : Z) (p : ActivePiece) : ActivePiece :=
  mkPiece (type p) v (position p).

(** ** The lock procedure, as both [TICK] and [HARD_DROP] write it out *)

(** [marked[line]?.forEach((cell, idx) => { if (cell) marked[line]![idx] = { ...cell, clearing: true } })] *)
Definition mark_row (row : Row) : Row :=
  map (fun cell => match cell with
                   | Some c => Some (mkCell (cell_type c) (locked c) (Some true))
                   | None => None
                   end) row.

Definition mark_lines (merged : Board) (lines : list Z) : Board :=
  fold_left (fun marked line =>
               if line <? 0 then marked else alter mark_row (Z.to_nat line) marked)
            lines (cloneBoard merged).

(** The statistics of a clearing lock of [n] rows that brings the combo
    counter to [combo]. *)
Definition clearing_stats (st : GameStats) (combo : Z) (n : nat) : GameStats :=
  let st0 := mkStats (singles st) (doubles st) (triples st) (tetrises st)
                     (if combo >? 0 then combos st + 1 else combos st)
                     (Z.max (maxCombo st) combo) in
  let st1 := if (n =? 1)%nat then mkStats (singles st0 + 1) (doubles st0) (triples st0) (tetrises st0) (combos st0) (maxCombo st0) else st0 in
  let st2 := if (n =? 2)%nat then mkStats (singles st1) (doubles st1 + 1) (triples st1) (tetrises st1) (combos st1) (maxCombo st1) else st1 in
  let st3 := if (n =? 3)%nat then mkStats (singles st2) (doubles st2) (triples st2 + 1) (tetrises st2) (combos st2) (maxCombo st2) else st2 in
  if (n =? 4)%nat then mkStats (singles st3) (doubles st3) (triples st3) (tetrises st3 + 1) (combos st3) (maxCombo st3) else st3.

(** The branch [if (lines.length) { ... }] shared word for word by [TICK]
    and [HARD_DROP]; [bonusScore] is [0] for [TICK], which has no such term. *)
Definition clearing_lock (state : GameState) (merged : Board) (lines_ : list Z)
    (bonusScore : Z) : GameState :=
  let marked := mark_lines merged lines_ in
  let n := length lines_ in
  let combo_ := combo state + 1 in
  let level_ := calculateLevel (lines state + Z.of_nat n) in
  let baseScore := score_at n in
  let comboBonus := if combo_ >? 0 then combo_ * 50 else 0 in
  let totalScore :=
    num_add (num_mul (num_add baseScore (Num comboBonus)) (Num level_)) (Num bonusScore) in
  let stats_ := clearing_stats (stats state) combo_ n in
  with_canHold true
    (with_dropDelay (calculateDelay level_)
      (with_level level_
        (with_lines (lines state + Z.of_nat n)
          (with_score (num_add (score state) totalScore)
            (with_stats stats_
              (with_combo combo_
                (with_linesToClear lines_
                  (with_board marked state)))))))).

(** The loop of [HARD_DROP]:
    [while (!collides(board, current, { x, y: y + dropDistance + 1 })) dropDistance += 1] *)
Fixpoint drop_loop (fuel : nat) (board : Board) (piece : ActivePiece) (dropDistance : Z)
    : outcome Z :=
  match fuel with
  | O => OutOfFuel
  | S fuel' =>
      let+ hit := collides board piece
                    (Some (mkPos (px (position piece)) (py (position piece) + dropDistance + 1)))
                    None in
      if negb hit then drop_loop fuel' board piece (dropDistance + 1)
      else Ok dropDistance
  end.

(** Fuel that the loop cannot exhaust: a piece whose anchor is at row [y]
    is stopped by the floor after at most [BOARD_HEIGHT - y] steps. *)
Definition drop_fuel (piece : ActivePiece) : nat :=
  S (Z.to_nat (BOARD_HEIGHT - py (position piece))).

(** ** The reducer *)

Definition reducer (state : GameState) (action : Action) : M GameState :=
  match action with
  | RESET piece queue =>
      let* fresh := startingState in
      ret (with_status Playing
            (with_nextQueue queue
              (with_current piece
                (with_board EMPTY_BOARD fresh))))
  | SET_STATUS payload => ret (with_status payload state)
  | PAUSE_TOGGLE =>
      ret (with_status (if decide (status state = Paused) then Playing else Paused) state)
  | RESUME => ret (with_status Playing state)
  | MOVE dx dy =>
      if negb (bool_decide (status state = Playing)) then ret state else
      let position_ := mkPos (px (position (current state)) + dx)
                             (py (position (current state)) + dy) in
      let* hit := lift (collides (board state) (current state) (Some position_) None) in
      if hit then ret state
      else ret (with_current (with_position position_ (current state)) state)
  | ROTATE direction =>
      if negb (bool_decide (status state = Playing)) then ret state else
      let* kicked := lift (applyKickTests (board state) (current state) direction) in
      match kicked with
      | None => ret state
      | Some k =>
          ret (with_current
                 (with_rotation (kicked_rotation k)
                    (with_position (kicked_position k) (current state)))
                 state)
      end
  | TICK =>
      if negb (bool_decide (status state = Playing)) then ret state else
      let nextPos := mkPos (px (position (current state)))
                           (py (position (current state)) + 1) in
      let* hit := lift (collides (board state) (current state) (Some nextPos) None) in
      if negb hit
      then ret (with_current (with_position nextPos (current state)) state)
      else
        let* merged := lift (mergePiece (board state) (current state)) in
        let lines_ := findFullLines merged in
        if negb (length lines_ =? 0)%nat
        then ret (clearing_lock state merged lines_ 0)
        else
          let* spawned := spawnPiece (nextQueue state) in
          let '(next, queue_now) := spawned in
          let state := with_nextQueue queue_now state in
          let* blocked := lift (collides merged (spawn_piece next) None None) in
          if blocked
          then ret (with_status Gameover (with_board merged state))
          else ret (with_combo (-1)
                     (with_canHold true
                       (with_nextQueue (spawn_queue next)
                         (with_current (spawn_piece next)
                           (with_board merged state)))))
  | APPLY_CLEARING =>
      if (length (linesToClear state) =? 0)%nat then ret state else
      let clearedBoard := clearFullLines (board state) (linesToClear state) in
      let* spawned := spawnPiece (nextQueue state) in
      let '(next, queue_now) := spawned in
      let state := with_nextQueue queue_now state in
      let* blocked := lift (collides clearedBoard (spawn_piece next) None None) in
      if blocked
      then ret (with_linesToClear []
                 (with_status Gameover
                   (with_board clearedBoard state)))
      else ret (with_linesToClear []
                 (with_nextQueue (spawn_queue next)
                   (with_current (spawn_piece next)
                     (with_board clearedBoard state))))
  | HOLD =>
      if negb (bool_decide (status state = Playing)) || negb (canHold state)
      then ret state else
      let hold := holdPiece state in
      (* [const nextQueue = [...state.nextQueue]]: a copy, local to the case *)
      let nextQueue_ := nextQueue state in
      let* chosen :=
        match hold with
        | Some h => ret (spawn_pose h, Some (type (current state)), nextQueue_)
        | None =>
            let* spawned := spawnPiece nextQueue_ in
            let spawn := fst spawned in
            (* [nextQueue.splice(0, nextQueue.length, ...spawn.queue)] *)
            ret (spawn_piece spawn, Some (type (current state)), spawn_queue spawn)
        end in
      let '(nextPiece, nextHold, nextQueue_) := chosen in
      let* blocked := lift (collides (board state) nextPiece None None) in
      if blocked
      then ret (with_status Gameover state)
      else ret (with_canHold false
                 (with_holdPiece nextHold
                   (with_current nextPiece state)))
  | HARD_DROP =>
      if negb (bool_decide (status state = Playing)) then ret state else
      let* dropDistance :=
        lift (drop_loop (drop_fuel (current state)) (board state) (current state) 0) in
      let landedPiece :=
        with_position (mkPos (px (position (current state)))
                             (py (position (current state)) + dropDistance))
                      (current state) in
      let* merged := lift (mergePiece (board state) landedPiece) in
      let lines_ := findFullLines merged in
      let bonusScore := 2 * dropDistance in
      if negb (length lines_ =? 0)%nat
      then ret (clearing_lock state merged lines_ bonusScore)
      else
        let* spawned := spawnPiece (nextQueue state) in
        let '(next, queue_now) := spawned in
        let state := with_nextQueue queue_now state in
        let* blocked := lift (collides merged (spawn_piece next) None None) in
        if blocked
        then ret (with_status Gameover
                   (with_score (num_add (score state) (Num bonusScore))
                     (with_board merged state)))
        else ret (with_canHold true
                   (with_combo (-1)
                     (with_score (num_add (score state) (Num bonusScore))
                       (with_nextQueue (spawn_queue next)
                         (with_current (spawn_piece next)
                           (with_board merged state))))))
  | GAME_OVER => ret (with_status Gameover state)
  | APPLY_LINES | SET_HIGH_SCORE _ => ret state
  end.

(** * Specification vocabulary *)

(** The board has (at least) the [BOARD_HEIGHT] rows the engine addresses. *)
Definition has_rows (board : Board) : Prop :=
  BOARD_HEIGHT <= Z.of_nat (length board).

(** A [BOARD_HEIGHT] by [BOARD_WIDTH] grid. *)
Definition board_shape (board : Board) : Prop :=
  length board = Z.to_nat BOARD_HEIGHT /\
  Forall (fun row => length row = Z.to_nat BOARD_WIDTH) board.

(** Cell [(x, y)] of a rotation matrix is set. *)
Definition cell_set (matrix : list (list Z)) (x y : nat) : Prop :=
  exists row v, matrix !! y = Some row /\ row !! x = Some v /\ v <> 0.

(** Board cell [(x, y)] holds a locked cell. *)
Definition occupied (board : Board) (x y : Z) : Prop :=
  exists row c, at_index board y = Some row /\ at_index row x = Some (Some c).

(** The cells a pose may not cover. *)
Definition blocking (board : Board) (x y : Z) : Prop :=
  x < 0 \/ BOARD_WIDTH <= x \/ BOARD_HEIGHT <= y \/ (0 <= y /\ occupied board x y).

(** The rows of [board] whose index, counted from [y], is not listed in
    [lines], in their original order. *)
Fixpoint rows_kept_from {A} (y : Z) (lines : list Z) (board : list A) : list A :=
  match board with
  | [] => []
  | row :: board' =>
      (if bool_decide (y ∈ lines) then [] else [row]) ++ rows_kept_from (y + 1) lines board'
  end.

(** One round of the loop in [clearFullLines]. *)
Definition collapse_step (nextBoard : Board) (line : Z) : Board :=
  EMPTY_ROW :: splice1 nextBoard line.

Definition ALL_KINDS : list TetrominoKey := [I_; J_; L_; O_; S_; T_; Z_].

(** The piece [HOLD] tries to make active, and the entropy left once it is
    chosen: the held kind at the spawn pose, or the next draw from a copy of
    the queue when nothing is held. *)
Definition hold_candidate (s : GameState) (g : Rng) : outcome (ActivePiece * Rng) :=
  match holdPiece s with
  | Some h => Ok (spawn_pose h, g)
  | None =>
      match spawnPiece (nextQueue s) g with
      | Ok ((spawn, _), g') => Ok (spawn_piece spawn, g')
      | TypeError => TypeError
      | OutOfFuel => OutOfFuel
      end
  end.

(** The active piece of [s] locks under action [a]: [landed] is the piece as
    it is merged and [dropped] the rows it fell in the action.  [TICK] locks
    the piece where it is when one row down collides; [HARD_DROP] locks it
    where its drop loop stops. *)
Definition lock_of (s : GameState) (a : Action) (landed : ActivePiece) (dropped : Z) : Prop :=
  let x := px (position (current s)) in
  let y := py (position (current s)) in
  match a with
  | TICK =>
      collides (board s) (current s) (Some (mkPos x (y + 1))) None = Ok true /\
      landed = current s /\ dropped = 0
  | HARD_DROP =>
      drop_loop (drop_fuel (current s)) (board s) (current s) 0 = Ok dropped /\
      landed = with_position (mkPos x (y + dropped)) (current s)
  | _ => False
  end.

(** The hard-drop bonus of an action: [2 * dropDistance], and none for a tick. *)
Definition drop_bonus (a : Action) (dropped : Z) : Z :=
  match a with HARD_DROP => 2 * dropped | _ => 0 end.

(** The combo bonus of a clearing lock that brings the counter to [combo_]. *)
Definition combo_bonus (combo_ : Z) : Z := if combo_ >? 0 then combo_ * 50 else 0.

(** The score delta in the words of C2: the base score times the level, plus
    the combo bonus, plus the hard-drop bonus. *)
Definition claimed_score_delta (base level_ comboBonus hardDropBonus : Z) : Z :=
  base * level_ + comboBonus + hardDropBonus.

(** The pose a kick leads to. *)
Definition candidate (piece : ActivePiece) (k : Pos) : Pos :=
  mkPos (px (position piece) + px k) (py (position piece) + py k).

(** The pose of kick [k] at rotation [nextRotation] collides. *)
Definition kick_collides (board : Board) (piece : ActivePiece) (nextRotation : Z)
    (k : Pos) : Prop :=
  collides board piece (Some (candidate piece k)) (Some nextRotation) = Ok true.

Definition has_cell (matrix : list (list Z)) : bool :=
  existsb (existsb (fun v => negb (v =? 0))) matrix.

(** * Example states *)

(** A locked cell of kind [k], as [mergePiece] writes it. *)
Definition locked_cell (k : TetrominoKey) : option Cell := Some (mkCell k true None).

(** A full row. *)
Definition FULL_ROW : Row := replicate (Z.to_nat BOARD_WIDTH) (locked_cell J_).

(** A state as [startingState] makes it, with the bag [J; L; O; S; T; Z; I]
    split into the first piece and the queue: the status is idle. *)
Definition idle_state : GameState :=
  {| board := EMPTY_BOARD;
     current := spawn_pose J_;
     nextQueue := [L_; O_; S_; T_; Z_; I_; I_; J_; L_; O_; S_; T_; Z_];
     holdPiece := None;
     canHold := true;
     status := Idle;
     score := Num 0;
     level := 1;
     lines := 0;
     combo := -1;
     stats := mkStats 0 0 0 0 0 0;
     linesToClear := [];
     dropDelay := INITIAL_DROP_DELAY |}.

(** An entropy source that always yields [0]. *)
Definition zero_rng : Rng := mkRng (fun _ => 0%nat) 0.

(** A stack that reaches the spawn rows: column 4 is filled from row 2 down. *)
Definition TOWER_ROW : Row :=
  replicate 4 None ++ [locked_cell J_] ++ replicate 5 None.

Definition tower_board : Board := replicate 2 EMPTY_ROW ++ replicate 20 TOWER_ROW.

(** The O piece sits on the tower at the spawn pose. *)
Definition stacked_state : GameState :=
  {| board := tower_board;
     current := spawn_pose O_;
     nextQueue := [T_; L_; O_; S_; Z_; I_; J_; I_; J_; L_; O_; S_; T_; Z_];
     holdPiece := None;
     canHold := true;
     status := Playing;
     score := Num 0;
     level := 1;
     lines := 0;
     combo := -1;
     stats := mkStats 0 0 0 0 0 0;
     linesToClear := [];
     dropDelay := INITIAL_DROP_DELAY |}.

(** The tower with the O piece merged on top of it. *)
Definition topped_board : Board :=
  replicate 2 (replicate 4 None ++ [locked_cell O_; locked_cell O_] ++ replicate 4 None)
  ++ replicate 20 TOWER_ROW.

(** The bottom row lacks columns 3 to 6. *)
Definition GAP_ROW : Row :=
  replicate 3 (locked_cell J_) ++ replicate 4 None ++ replicate 3 (locked_cell J_).

Definition gap_board : Board := replicate 21 EMPTY_ROW ++ [GAP_ROW].

(** A flat I piece lies in the gap of the bottom row; [lines_] rows were
    cleared so far and the combo counter is [combo_]. *)
Definition gap_state (lines_ combo_ : Z) : GameState :=
  {| board := gap_board;
     current := mkPiece I_ 0 (mkPos 3 20);
     nextQueue := [T_; L_; O_; S_; Z_; I_; J_; I_; J_; L_; O_; S_; T_; Z_];
     holdPiece := None;
     canHold := true;
     status := Playing;
     score := Num 0;
     level := calculateLevel lines_;
     lines := lines_;
     combo := combo_;
     stats := mkStats 0 0 0 0 0 0;
     linesToClear := [];
     dropDelay := calculateDelay (calculateLevel lines_) |}.

(** The same flat I piece at the top of the board, twenty rows above the
    gap, after ten lines and with the combo counter at 0. *)
Definition drop_state : GameState :=
  with_current (mkPiece I_ 0 (mkPos 3 0)) (gap_state 10 0).

(** The bottom row of [gap_board] once the I piece fills the gap. *)
Definition filled_board : Board :=
  replicate 21 EMPTY_ROW ++
  [replicate 3 (locked_cell J_) ++ replicate 4 (locked_cell I_) ++ replicate 3 (locked_cell J_)].

(** Rows 18 to 21 lack column 5 only. *)
Definition WELL_ROW : Row :=
  replicate 5 (locked_cell J_) ++ [None] ++ replicate 4 (locked_cell J_).

Definition well_board : Board := replicate 18 EMPTY_ROW ++ replicate 4 WELL_ROW.

(** An upright I piece stands in the well. *)
Definition well_state : GameState :=
  with_current (mkPiece I_ 1 (mkPos 3 18)) (with_board well_board (gap_state 0 (-1))).

(** * The view helpers and the start of a game *)

(** The loop of [computeGhostPosition] is the loop of [HARD_DROP] under
    another variable name ([offset]); the function returns the row. *)
Definition computeGhostPosition (board : Board) (piece : ActivePiece) : outcome Z :=
  let+ offset := drop_loop (drop_fuel piece) board piece 0 in
  Ok (py (position piece) + offset).

(** [board.slice(BOARD_HEIGHT - VISIBLE_ROWS)] *)
Definition getVisibleBoard (board : Board) : Board :=
  drop (Z.to_nat (BOARD_HEIGHT - VISIBLE_ROWS)) board.

(** The action [startGame] dispatches: a bag is drawn, its first kind is the
    active piece at the spawn pose and the other six are the queue. *)
Definition startGame : M Action :=
  let* queue := randomBag in
  (* [queue.shift()!] *)
  let first := hd I_ queue in
  let queue := tl queue in
  ret (RESET (spawn_pose first) queue).

(** [startGame] followed by the reducer on the action it dispatches. *)
Definition newGame (state : GameState) : M GameState :=
  let* action := startGame in
  reducer state action.

(** * More specification vocabulary *)

(** The actions of a list, dispatched one after the other. *)
Fixpoint run (actions : list Action) (state : GameState) : M GameState :=
  match actions with
  | [] => ret state
  | a :: actions' => let* state' := reducer state a in run actions' state'
  end.

(** The cell of a board at column [x] and row [y], when there is one. *)
Definition cell_at (board : Board) (x y : Z) : option (option Cell) :=
  match at_index board y with
  | Some row => at_index row x
  | None => None
  end.

(** A set cell of the piece's matrix lands on board cell [(x, y)]. *)
Definition lands (piece : ActivePiece) (matrix : list (list Z)) (x y : Z) : Prop :=
  exists i j : nat, cell_set matrix i j /\
    x = px (position piece) + Z.of_nat i /\ y = py (position piece) + Z.of_nat j.

(** The active piece lies inside the board on free cells, unless the game is
    over or rows wait to be collapsed. *)
Definition piece_fits (s : GameState) : Prop :=
  status s <> Gameover -> linesToClear s = [] ->
  collides (board s) (current s) None None = Ok false.

(** Actions that keep [piece_fits]: the status actions must not revive a
    finished game, and [RESET] must be given a piece that fits the empty
    board. *)
Definition keeps_fit (s : GameState) (a : Action) : Prop :=
  match a with
  | RESET piece _ => collides EMPTY_BOARD piece None None = Ok false
  | PAUSE_TOGGLE | RESUME | SET_STATUS _ => status s <> Gameover
  | _ => True
  end.

(** A state the engine can work on: a full grid, a rotation index in range
    and pending rows that are rows of the grid. *)
Definition well_formed (s : GameState) : Prop :=
  board_shape (board s) /\
  0 <= rotation (current s) < 4 /\
  Forall (fun l => 0 <= l < BOARD_HEIGHT) (linesToClear s).

Definition action_ok (a : Action) : Prop :=
  match a with
  | RESET piece _ => 0 <= rotation piece < 4
  | _ => True
  end.

(** The level and the drop delay are those of the lines counter. *)
Definition level_consistent (s : GameState) : Prop :=
  level s = calculateLevel (lines s) /\ dropDelay s = calculateDelay (level s).

Definition stats_le (a b : GameStats) : Prop :=
  singles a <= singles b /\ doubles a <= doubles b /\ triples a <= triples b /\
  tetrises a <= tetrises b /\ combos a <= combos b /\ maxCombo a <= maxCombo b.

(** [a <= b] on scores; [NaN] is above nothing and below nothing. *)
Definition number_le (a b : number) : Prop :=
  match a, b with
  | Num x, Num y => x <= y
  | _, _ => False
  end.

Definition is_reset (a : Action) : bool :=
  match a with RESET _ _ => true | _ => false end.

Definition opposite (d : Direction) : Direction :=
  match d with Clockwise => Counterclockwise | Counterclockwise => Clockwise end.

(** The state with its active piece [k] rows lower. *)
Definition lowered (s : GameState) (k : Z) : GameState :=
  with_current
    (with_position (mkPos (px (position (current s))) (py (position (current s)) + k))
       (current s)) s.

(** Two states that differ at most in the score and in the active piece. *)
Definition same_but_score_and_piece (a b : GameState) : Prop :=
  board a = board b /\ nextQueue a = nextQueue b /\ holdPiece a = holdPiece b /\
  canHold a = canHold b /\ status a = status b /\ level a = level b /\
  lines a = lines b /\ combo a = combo b /\ stats a = stats b /\
  linesToClear a = linesToClear b /\ dropDelay a = dropDelay b.

(** The actions that move or place the active piece. *)
Definition is_piece_action (a : Action) : bool :=
  match a with
  | MOVE _ _ | ROTATE _ | TICK | HARD_DROP | HOLD => true
  | _ => false
  end.

(** Every cell of a matrix row is [0]. *)
Definition row_clear (row : list Z) : bool := forallb (fun v => v =? 0) row.

(** The set cells of a matrix lie in its first [h] rows and first [w]
    columns. *)
Definition cells_within (w h : nat) (matrix : list (list Z)) : bool :=
  forallb row_clear (drop h matrix) && forallb (fun row => row_clear (drop w row)) matrix.

(** ** Entropy for the randomizer *)

(** Entropy whose draws are the numbers of [ds], first [skip] zeros before
    them and zeros after them. *)
Definition rng_of (skip : nat) (ds : list nat) : Rng :=
  mkRng (fun k => if (k <? skip)%nat then 0%nat else nth (k - skip) ds 0%nat) 0.

(** The bag [randomBag] returns on the draws [ds]. *)
Definition bag_of (ds : list nat) : list TetrominoKey :=
  match randomBag (rng_of 0 ds) with
  | Ok (bag, _) => bag
  | _ => []
  end.

Definition kind_eqb (a b : TetrominoKey) : bool :=
  match a, b with
  | I_, I_ | J_, J_ | L_, L_ | O_, O_ | S_, S_ | T_, T_ | Z_, Z_ => true
  | _, _ => false
  end.

Fixpoint bag_eqb (a b : list TetrominoKey) : bool :=
  match a, b with
  | [], [] => true
  | x :: a', y :: b' => kind_eqb x y && bag_eqb a' b'
  | _, _ => false
  end.

(** The position of kind [k] in [a]. *)
Fixpoint find_kind (k : TetrominoKey) (a : list TetrominoKey) : nat :=
  match a with
  | [] => 0
  | x :: a' => if kind_eqb x k then 0 else S (find_kind k a')
  end.

(** The draws that shuffle [a] into [p]: the draw for index [i] is the place
    in the array, as the swaps so far left it, of the kind [p] has at [i]. *)
Fixpoint draws_from (i : nat) (a p : list TetrominoKey) : list nat :=
  match i with
  | O => []
  | S i' =>
      let j := find_kind (nth i p I_) a in
      j :: draws_from i' (swap a i j) p
  end.

Definition draws_for (p : list TetrominoKey) : list nat :=
  draws_from 6 [I_; J_; L_; O_; S_; T_; Z_] p.

(** Entropy that counts: draw [k] is [k]. *)
Definition counting_rng : Rng := mkRng (fun k => k) 0.

(** * Properties *)

(** ** Well-formed inputs *)

Lemma board_shape_has_rows board : board_shape board -> has_rows board.
Proof. intros [Hlen _]. unfold has_rows. rewrite Hlen. reflexivity. Qed.

Lemma copy_cell_id c : copy_cell c = c.
Proof. by destruct c. Qed.

Lemma cloneBoard_id board : cloneBoard board = board.
Proof.
  unfold cloneBoard. rewrite <- (map_id board) at 2.
  apply map_ext. intros row. rewrite <- (map_id row) at 2.
  apply map_ext. intros [c|]; [by rewrite copy_cell_id | done].
Qed.

Lemma at_index_Some {A} (l : list A) (i : Z) a :
  at_index l i = Some a <-> 0 <= i /\ l !! Z.to_nat i = Some a.
Proof.
  unfold at_index. destruct (Z.ltb_spec i 0); split.
  - done.
  - intros [? _]. lia.
  - intros Hl. by split; [lia|].
  - by intros [_ Hl].
Qed.

Lemma at_index_in_range {A} (l : list A) (i : Z) :
  0 <= i < Z.of_nat (length l) -> is_Some (at_index l i).
Proof.
  intros Hi. unfold at_index. destruct (Z.ltb_spec i 0); [lia|].
  apply lookup_lt_is_Some. lia.
Qed.

Lemma board_at_has_rows board x y :
  has_rows board -> 0 <= y < BOARD_HEIGHT ->
  exists c, board_at board x y = Ok c /\ (truthy c = true <-> occupied board x y).
Proof.
  intros Hrows Hy. unfold board_at, occupied.
  destruct (at_index_in_range board y) as [row Hrow]; [unfold has_rows in Hrows; lia|].
  rewrite Hrow. eexists; split; [reflexivity|].
  destruct (at_index row x) as [[c|]|] eqn:Hc; simpl; split; try done.
  - intros _. by exists row, c.
  - intros (row' & c' & Hr & Hc'). congruence.
  - intros (row' & c' & Hr & Hc'). congruence.
Qed.

Section Collision.
Variable board : Board.
Hypothesis Hrows : has_rows board.

(** The inner loop finds a blocked cell of the matrix row, if there is one. *)
Lemma collides_cells_spec pos y cells : forall x,
  exists b, collides_cells board pos y x cells = Ok b /\
    (b = true <->
     exists (i : nat) v, cells !! i = Some v /\ v <> 0 /\
       blocking board (px pos + (x + Z.of_nat i)) (py pos + y)).
Proof.
  induction cells as [|v cells IH]; intros x; simpl.
  - exists false. split; [done|]. split; [done|]. by intros (i & w & ? & _).
  - destruct (IH (x + 1)) as (b' & Hb' & Hspec').
    assert (Hshift : b' = true <->
      exists (i : nat) w, (v :: cells) !! S i = Some w /\ w <> 0 /\
        blocking board (px pos + (x + Z.of_nat (S i))) (py pos + y)).
    { rewrite Hspec'. split; intros (i & w & Hi & Hw & Hblk); exists i, w;
        (split; [exact Hi|split; [exact Hw|]]);
        replace (x + Z.of_nat (S i)) with (x + 1 + Z.of_nat i) in * by lia; done. }
    assert (Hskip :
               (v <> 0 -> ~ blocking board (px pos + x) (py pos + y)) ->
               b' = true <->
               exists (i : nat) w, (v :: cells) !! i = Some w /\ w <> 0 /\
                 blocking board (px pos + (x + Z.of_nat i)) (py pos + y)).
    { intros Hno. rewrite Hshift. split.
      - intros (i & w & ?). by exists (S i), w.
      - intros ([|i] & w & Hi & Hw & Hblk).
        + simpl in Hi. inversion Hi; subst w. exfalso. apply (Hno Hw).
          replace (x + Z.of_nat 0) with x in Hblk by lia. exact Hblk.
        + by exists i, w. }
    assert (Hhit : v <> 0 -> blocking board (px pos + x) (py pos + y) ->
               true = true <->
               exists (i : nat) w, (v :: cells) !! i = Some w /\ w <> 0 /\
                 blocking board (px pos + (x + Z.of_nat i)) (py pos + y)).
    { intros Hv Hblk. split; [|done]. intros _. exists 0%nat, v.
      repeat split; [done|]. replace (x + Z.of_nat 0) with x by lia. exact Hblk. }
    destruct (Z.eqb_spec v 0) as [Hv|Hv].
    { exists b'. split; [done|]. apply Hskip. tauto. }
    destruct (Z.ltb_spec (px pos + x) 0) as [Hx0|Hx0]; simpl.
    { exists true. split; [done|]. apply Hhit; [done|]. left. lia. }
    destruct (Z.geb_spec (px pos + x) BOARD_WIDTH) as [Hx1|Hx1]; simpl.
    { exists true. split; [done|]. apply Hhit; [done|]. right; left. lia. }
    destruct (Z.geb_spec (py pos + y) BOARD_HEIGHT) as [Hy1|Hy1]; simpl.
    { exists true. split; [done|]. apply Hhit; [done|]. right; right; left. lia. }
    destruct (Z.geb_spec (py pos + y) 0) as [Hy0|Hy0].
    + destruct (board_at_has_rows board (px pos + x) (py pos + y) Hrows)
        as (c & Hc & Hocc); [lia|].
      rewrite Hc. simpl. destruct (truthy c) eqn:Htr.
      * exists true. split; [done|]. apply Hhit; [done|]. right; right; right.
        split; [lia|]. by apply Hocc.
      * exists b'. split; [done|]. apply Hskip. intros _.
        intros [?|[?|[?|[_ Hocc']]]]; [lia..|].
        apply Hocc in Hocc'. congruence.
    + exists b'. split; [done|]. apply Hskip. intros _.
      intros [?|[?|[?|[? _]]]]; lia.
Qed.

(** The outer loop finds a blocked cell of the matrix, if there is one. *)
Lemma collides_rows_spec pos rows : forall y,
  exists b, collides_rows board pos y rows = Ok b /\
    (b = true <->
     exists (i j : nat) row v, rows !! j = Some row /\ row !! i = Some v /\ v <> 0 /\
       blocking board (px pos + Z.of_nat i) (py pos + (y + Z.of_nat j))).
Proof.
  induction rows as [|row rows IH]; intros y; simpl.
  - exists false. split; [done|]. split; [done|]. by intros (i & j & r & w & ? & _).
  - destruct (collides_cells_spec pos y row 0) as (b0 & Hb0 & Hspec0).
    rewrite Hb0. simpl. destruct b0.
    + exists true. split; [done|]. split; [|done]. intros _.
      destruct Hspec0 as [Hex _]. destruct (Hex eq_refl) as (i & v & Hi & Hv & Hblk).
      exists i, 0%nat, row, v. repeat split; try done.
      replace (y + Z.of_nat 0) with y by lia. exact Hblk.
    + destruct (IH (y + 1)) as (b' & Hb' & Hspec').
      exists b'. split; [done|]. rewrite Hspec'. split.
      * intros (i & j & r & v & Hj & Hi & Hv & Hblk).
        exists i, (S j), r, v. repeat split; try done.
        replace (y + Z.of_nat (S j)) with (y + 1 + Z.of_nat j) by lia. exact Hblk.
      * intros (i & [|j] & r & v & Hj & Hi & Hv & Hblk).
        -- simpl in Hj. inversion Hj; subst r. exfalso.
           assert (false = true); [|done]. apply Hspec0.
           exists i, v. repeat split; try done.
           replace (y + Z.of_nat 0) with y in Hblk by lia. exact Hblk.
        -- exists i, j, r, v. repeat split; try done.
           replace (y + 1 + Z.of_nat j) with (y + Z.of_nat (S j)) by lia. exact Hblk.
Qed.
End Collision.

(** Every kind has a rotation state for every rotation index that is not
    negative. *)
Lemma getPieceMatrix_nonneg k r :
  0 <= r -> exists matrix, getPieceMatrix k r = Some matrix /\ matrix ∈ TETROMINOES k.
Proof.
  intros Hr. unfold getPieceMatrix.
  assert (Hlen : 0 < Z.of_nat (length (TETROMINOES k))) by (destruct k; simpl; lia).
  pose proof (Z.rem_bound_pos r _ Hr Hlen) as Hb.
  destruct (at_index_in_range (TETROMINOES k) (Z.rem r (Z.of_nat (length (TETROMINOES k)))) Hb)
    as [m Hm].
  exists m. split; [exact Hm|].
  apply at_index_Some in Hm as [_ Hm]. by eapply list_elem_of_lookup_2.
Qed.

Lemma collides_total board piece pos rot :
  has_rows board -> 0 <= default (rotation piece) rot ->
  exists b, collides board piece pos rot = Ok b.
Proof.
  intros Hrows Hrot. unfold collides.
  destruct (getPieceMatrix_nonneg (type piece) _ Hrot) as (m & -> & _).
  destruct (collides_rows_spec board Hrows (default (position piece) pos) m 0) as (b & Hb & _).
  by exists b.
Qed.

Lemma isCellOccupied_spec board x y :
  has_rows board ->
  exists b, isCellOccupied board x y = Ok b /\ (b = true <-> blocking board x y).
Proof.
  intros Hrows. unfold isCellOccupied, blocking.
  destruct (Z.ltb_spec x 0); simpl; [exists true; split; [done|]; split; [intros _; lia|done]|].
  destruct (Z.geb_spec x BOARD_WIDTH); simpl; [exists true; split; [done|]; split; [intros _; lia|done]|].
  destruct (Z.geb_spec y BOARD_HEIGHT); simpl; [exists true; split; [done|]; split; [intros _; lia|done]|].
  destruct (Z.ltb_spec y 0).
  - exists false. split; [done|]. split; [done|]. intros [?|[?|[?|[? _]]]]; lia.
  - destruct (board_at_has_rows board x y Hrows) as (c & -> & Hocc); [lia|].
    simpl. exists (truthy c). split; [done|]. rewrite Hocc. split; [intros; right; right; right; split; [lia|done]|].
    intros [?|[?|[?|[_ ?]]]]; [lia..|done].
Qed.

(** C1. Collision soundness.  On a board with its [BOARD_HEIGHT] rows and
    for a rotation index that is not negative, [collides] returns, and it
    returns [true] exactly when some set cell of the pose's rotation matrix
    lands on a blocking board cell: a column outside [0, BOARD_WIDTH), a row
    at or past [BOARD_HEIGHT], or an occupied cell in a row [>= 0].  A cell
    above the top boundary with its column in range is never blocking, for
    [isCellOccupied] as well. *)
Theorem collides_sound (board : Board) (piece : ActivePiece)
    (pos : option Pos) (rot : option Z) :
  has_rows board ->
  0 <= default (rotation piece) rot ->
  let p := default (position piece) pos in
  exists matrix b,
    getPieceMatrix (type piece) (default (rotation piece) rot) = Some matrix /\
    collides board piece pos rot = Ok b /\
    (b = true <->
     exists x y : nat, cell_set matrix x y /\
       let col := px p + Z.of_nat x in
       let row := py p + Z.of_nat y in
       col < 0 \/ BOARD_WIDTH <= col \/ BOARD_HEIGHT <= row \/
       (0 <= row /\ occupied board col row)) /\
    (forall col row, 0 <= col < BOARD_WIDTH -> row < 0 ->
       ~ blocking board col row /\ isCellOccupied board col row = Ok false).
Proof.
  intros Hrows Hrot p.
  destruct (getPieceMatrix_nonneg (type piece) _ Hrot) as (m & Hm & _).
  destruct (collides_rows_spec board Hrows p m 0) as (b & Hb & Hspec).
  exists m, b. split; [exact Hm|]. split; [unfold collides; by rewrite Hm|]. split.
  - rewrite Hspec. unfold cell_set. split.
    + intros (i & j & row & v & Hj & Hi & Hv & Hblk). exists i, j. split; [by exists row, v|].
      exact Hblk.
    + intros (i & j & (row & v & Hj & Hi & Hv) & Hblk). exists i, j, row, v.
      repeat split; try done.
  - intros col row Hcol Hrow.
    assert (Hnb : ~ blocking board col row)
      by (unfold blocking, BOARD_HEIGHT; intros [?|[?|[?|[? _]]]]; lia).
    split; [exact Hnb|].
    destruct (isCellOccupied_spec board col row Hrows) as ([|] & Hb' & Hiff); [|exact Hb'].
    exfalso. apply Hnb. by apply Hiff.
Qed.

Lemma EMPTY_BOARD_shape : board_shape EMPTY_BOARD.
Proof. split; [reflexivity|]. unfold EMPTY_BOARD. apply Forall_replicate. reflexivity. Qed.

Lemma EMPTY_BOARD_has_rows : has_rows EMPTY_BOARD.
Proof. apply board_shape_has_rows, EMPTY_BOARD_shape. Qed.

Lemma collides_sound_witness :
  exists matrix b,
    getPieceMatrix T_ 0 = Some matrix /\
    collides EMPTY_BOARD (mkPiece T_ 0 (mkPos 3 20)) None None = Ok b /\
    (b = true <->
     exists x y : nat, cell_set matrix x y /\
       let col := 3 + Z.of_nat x in
       let row := 20 + Z.of_nat y in
       col < 0 \/ BOARD_WIDTH <= col \/ BOARD_HEIGHT <= row \/
       (0 <= row /\ occupied EMPTY_BOARD col row)) /\
    (forall col row, 0 <= col < BOARD_WIDTH -> row < 0 ->
       ~ blocking EMPTY_BOARD col row /\ isCellOccupied EMPTY_BOARD col row = Ok false).
Proof.
  apply (collides_sound EMPTY_BOARD (mkPiece T_ 0 (mkPos 3 20)) None None).
  - exact EMPTY_BOARD_has_rows.
  - simpl. lia.
Defined.

(** ** Row collapse *)

Lemma rows_kept_none {A} (board : list A) y : rows_kept_from y [] board = board.
Proof.
  revert y. induction board as [|row board IH]; intros y; cbn [rows_kept_from]; [done|].
  rewrite bool_decide_eq_false_2 by apply not_elem_of_nil. simpl. by rewrite IH.
Qed.

Lemma rows_kept_skip {A} (board : list A) l ls : forall y,
  l < y -> rows_kept_from y (l :: ls) board = rows_kept_from y ls board.
Proof.
  induction board as [|row board IH]; intros y Hy; cbn [rows_kept_from]; [done|].
  rewrite IH by lia. f_equal.
  destruct (decide (y ∈ ls)) as [Hin|Hin].
  - rewrite !bool_decide_eq_true_2; [done|done|by apply elem_of_cons; right].
  - rewrite !bool_decide_eq_false_2; [done|done|].
    intros [->|?]%elem_of_cons; [lia|done].
Qed.

Lemma rows_kept_split {A} (suf : list A) l ls : forall y,
  y <= l < y + Z.of_nat (length suf) ->
  Forall (fun l' => l < l') ls ->
  rows_kept_from y (l :: ls) suf =
    take (Z.to_nat (l - y)) suf ++ rows_kept_from (l + 1) ls (drop (S (Z.to_nat (l - y))) suf).
Proof.
  induction suf as [|row suf IH]; intros y Hy Hls; cbn [rows_kept_from length] in *; [lia|].
  destruct (decide (y = l)) as [->|Hne].
  - rewrite bool_decide_eq_true_2 by (apply elem_of_cons; by left).
    replace (l - l) with 0 by lia. simpl. rewrite drop_0. apply rows_kept_skip. lia.
  - rewrite bool_decide_eq_false_2.
    2:{ intros [->|Hin]%elem_of_cons; [done|].
        rewrite Forall_forall in Hls. apply Hls in Hin. lia. }
    rewrite (IH (y + 1)) by (done || lia).
    replace (Z.to_nat (l - y)) with (S (Z.to_nat (l - (y + 1)))) by lia.
    reflexivity.
Qed.

Lemma rows_kept_Forall {A} (P : A -> Prop) (board : list A) lines : forall y,
  Forall P board -> Forall P (rows_kept_from y lines board).
Proof.
  induction board as [|row board IH]; intros y Hall; cbn [rows_kept_from]; [constructor|].
  inversion Hall; subst. apply Forall_app. split; [|by apply IH].
  destruct (bool_decide _); [constructor | by constructor].
Qed.

Lemma splice1_in_range {A} (a : list A) (start : Z) :
  0 <= start < Z.of_nat (length a) -> splice1 a start = delete (Z.to_nat start) a.
Proof.
  intros Hs. unfold splice1. destruct (Z.ltb_spec start 0); [lia|].
  by rewrite Z.min_l by lia.
Qed.

Lemma collapse_fold_length lines : forall (b : Board),
  Forall (fun l => 0 <= l < Z.of_nat (length b)) lines ->
  length (fold_left collapse_step lines b) = length b.
Proof.
  induction lines as [|l ls IH]; intros b Hall; simpl; [done|].
  inversion Hall as [|? ? Hl Hls]; subst.
  assert (Hstep : length (collapse_step b l) = length b).
  { unfold collapse_step. simpl. rewrite splice1_in_range by done.
    rewrite length_delete by (apply lookup_lt_is_Some; lia). lia. }
  rewrite IH; [done|]. by rewrite Hstep.
Qed.

Lemma collapse_fold lines : forall (pre suf : Board),
  StronglySorted Z.lt lines ->
  Forall (fun l => Z.of_nat (length pre) <= l < Z.of_nat (length pre + length suf)) lines ->
  fold_left collapse_step lines (pre ++ suf) =
    replicate (length lines) EMPTY_ROW ++ pre ++
    rows_kept_from (Z.of_nat (length pre)) lines suf.
Proof.
  induction lines as [|l ls IH]; intros pre suf Hsorted Hrange; simpl.
  - by rewrite rows_kept_none.
  - apply StronglySorted_inv in Hsorted as [Hsorted Hlt].
    inversion Hrange as [|? ? Hl Hls]; subst.
    remember (Z.to_nat l - length pre)%nat as k eqn:Hkdef.
    assert (Hstep : collapse_step (pre ++ suf) l =
                    (EMPTY_ROW :: pre ++ take k suf) ++ drop (S k) suf).
    { unfold collapse_step. rewrite splice1_in_range by (rewrite length_app; lia).
      rewrite delete_take_drop.
      rewrite take_app_ge by lia. rewrite drop_app_ge by lia.
      rewrite <- Hkdef.
      replace (S (Z.to_nat l) - length pre)%nat with (S k) by lia.
      simpl. by rewrite <- app_assoc. }
    rewrite Hstep.
    assert (Hk : (k < length suf)%nat) by lia.
    assert (Hpre : Z.of_nat (length (EMPTY_ROW :: pre ++ take k suf)) = l + 1).
    { simpl. rewrite length_app, length_take. lia. }
    rewrite IH; [|done|].
    2:{ rewrite Forall_forall in Hls, Hlt |- *. intros l' Hin.
        specialize (Hls l' Hin). specialize (Hlt l' Hin).
        rewrite Nat2Z.inj_add, Hpre, length_drop. lia. }
    rewrite Hpre.
    rewrite (rows_kept_split suf l ls (Z.of_nat (length pre))) by (done || lia).
    replace (Z.to_nat (l - Z.of_nat (length pre))) with k by lia.
    change (replicate (length ls) EMPTY_ROW ++ (EMPTY_ROW :: pre ++ take k suf) ++ ?t)
      with (replicate (length ls) EMPTY_ROW ++ [EMPTY_ROW] ++ (pre ++ take k suf) ++ t).
    rewrite (app_assoc (replicate _ _) [EMPTY_ROW]), <- replicate_cons_app.
    simpl. by rewrite <- !app_assoc.
Qed.

(** The full rows come out of [findFullLines] top to bottom, each an index
    of the board: the lists [clearFullLines] is called with. *)
Lemma full_lines_from_sorted (board : Board) : forall y,
  StronglySorted Z.lt (full_lines_from y board) /\
  Forall (fun l => y <= l < y + Z.of_nat (length board)) (full_lines_from y board).
Proof.
  induction board as [|row board IH]; intros y; cbn [full_lines_from length].
  - split; constructor.
  - destruct (IH (y + 1)) as [Hsorted Hrange].
    assert (Hrange' : Forall (fun l => y < l /\ y <= l < y + Z.of_nat (S (length board)))
                             (full_lines_from (y + 1) board)).
    { eapply Forall_impl; [exact Hrange|]. simpl. intros l Hl. lia. }
    destruct (forallb truthy row); simpl.
    + split.
      * constructor; [done|]. eapply Forall_impl; [exact Hrange'|]. simpl. tauto.
      * constructor; [lia|]. eapply Forall_impl; [exact Hrange'|]. simpl. tauto.
    + split; [done|]. eapply Forall_impl; [exact Hrange'|]. simpl. tauto.
Qed.

Lemma findFullLines_sorted (board : Board) :
  StronglySorted Z.lt (findFullLines board) /\
  Forall (fun l => 0 <= l < Z.of_nat (length board)) (findFullLines board).
Proof. apply (full_lines_from_sorted board 0). Qed.

(** C5. Row collapse.  For a board of any height whose rows are
    [BOARD_WIDTH] wide and row indices listed top to bottom (strictly
    increasing, each an index of the board), [clearFullLines] returns as many
    empty rows as were listed followed by the rows that were not listed, in
    their original order; the height and the width are those of the input.
    On the empty list it returns its input. *)
Theorem clearFullLines_collapse (board : Board) (lines : list Z) :
  Forall (fun row => length row = Z.to_nat BOARD_WIDTH) board ->
  StronglySorted Z.lt lines ->
  Forall (fun l => 0 <= l < Z.of_nat (length board)) lines ->
  clearFullLines board lines =
    replicate (length lines) EMPTY_ROW ++ rows_kept_from 0 lines board /\
  (forall row, row ∈ replicate (length lines) EMPTY_ROW ->
     length row = Z.to_nat BOARD_WIDTH /\ Forall (fun cell => cell = None) row) /\
  length (clearFullLines board lines) = length board /\
  Forall (fun row => length row = Z.to_nat BOARD_WIDTH) (clearFullLines board lines) /\
  clearFullLines board [] = board.
Proof.
  intros Hwidth Hsorted Hrange.
  assert (Heq : clearFullLines board lines =
                replicate (length lines) EMPTY_ROW ++ rows_kept_from 0 lines board).
  { destruct lines as [|l ls] eqn:Hlines; [simpl; by rewrite rows_kept_none|].
    rewrite <- Hlines in *. unfold clearFullLines. rewrite Hlines, <- Hlines.
    rewrite cloneBoard_id.
    change (fold_left _ lines board) with (fold_left collapse_step lines ([] ++ board)).
    by rewrite collapse_fold. }
  split; [exact Heq|]. split.
  { intros row [-> _]%elem_of_replicate. split; [reflexivity|].
    unfold EMPTY_ROW. by apply Forall_replicate. }
  split.
  { destruct lines as [|l ls] eqn:Hlines; [done|].
    rewrite <- Hlines in *. unfold clearFullLines. rewrite Hlines, <- Hlines.
    rewrite cloneBoard_id. by apply collapse_fold_length. }
  split; [|done].
  rewrite Heq. apply Forall_app. split.
  - by apply Forall_replicate.
  - by apply rows_kept_Forall.
Qed.

Lemma clearFullLines_collapse_witness :
  clearFullLines (replicate 20 EMPTY_ROW ++ [FULL_ROW; FULL_ROW]) [20; 21] = EMPTY_BOARD.
Proof.
  destruct (clearFullLines_collapse
              (replicate 20 EMPTY_ROW ++ [FULL_ROW; FULL_ROW]) [20; 21]) as [Heq _].
  - repeat constructor.
  - repeat constructor; lia.
  - repeat constructor; simpl; lia.
  - rewrite Heq. reflexivity.
Defined.

(** ** Randomizer and queue *)

Lemma delete_insert_same {A} (l : list A) i x : delete i (<[i:=x]> l) = delete i l.
Proof.
  revert i. induction l as [|a l IH]; intros [|i]; simpl; [done..|]. by rewrite IH.
Qed.

Lemma swap_Permutation {A} (bag : list A) i j : swap bag i j ≡ₚ bag.
Proof.
  unfold swap.
  destruct (bag !! i) as [a|] eqn:Hi; [|done].
  destruct (bag !! j) as [b|] eqn:Hj; [|done].
  destruct (decide (i = j)) as [->|Hne].
  - rewrite list_insert_insert_eq. rewrite list_insert_id; [done|congruence].
  - set (bag' := <[i:=b]> bag).
    assert (Hi' : bag' !! i = Some b)
      by (apply list_lookup_insert_eq; by eapply lookup_lt_Some).
    assert (Hj' : bag' !! j = Some b) by (unfold bag'; by rewrite list_lookup_insert_ne).
    assert (Hj'' : <[j:=a]> bag' !! j = Some a)
      by (apply list_lookup_insert_eq; by eapply lookup_lt_Some).
    rewrite (delete_Permutation _ _ _ Hj''), delete_insert_same.
    rewrite (delete_Permutation bag i a Hi).
    apply Permutation_cons; [done|].
    apply (Permutation_cons_inv (a:=b)).
    rewrite <- (delete_Permutation _ _ _ Hj').
    rewrite (delete_Permutation _ _ _ Hi'). unfold bag'. by rewrite delete_insert_same.
Qed.

Lemma shuffle_from_Permutation {A} (i : nat) : forall (bag : list A) g,
  exists bag' g', shuffle_from i bag g = Ok (bag', g') /\ bag' ≡ₚ bag.
Proof.
  induction i as [|i IH]; intros bag g; simpl.
  - by exists bag, g.
  - unfold bind, random_below.
    destruct (IH (swap bag (S i) (draws g (cursor g) mod S (S i))%nat)
                 (mkRng (draws g) (S (cursor g)))) as (bag' & g' & Hrun & Hperm).
    exists bag', g'. split; [exact Hrun|]. by rewrite Hperm, swap_Permutation.
Qed.

(** A bag holds each of the seven kinds once. *)
Lemma randomBag_Permutation g :
  exists bag g', randomBag g = Ok (bag, g') /\ bag ≡ₚ ALL_KINDS.
Proof. apply shuffle_from_Permutation. Qed.

Lemma shuffle_from_draws {A} (i : nat) : forall (bag : list A) g bag' g',
  shuffle_from i bag g = Ok (bag', g') ->
  draws g' = draws g /\ cursor g' = (cursor g + i)%nat.
Proof.
  induction i as [|i IH]; intros bag g bag' g' Hrun; simpl in Hrun.
  - inversion Hrun; subst. split; [done|lia].
  - unfold bind, random_below in Hrun. apply IH in Hrun as [Hd Hc]. simpl in *.
    split; [done|lia].
Qed.

(** The result of the shuffle loop is fixed by the draws it reads. *)
Lemma shuffle_from_ext {A} (i : nat) : forall (bag : list A) g h,
  (forall k, (k < i)%nat -> draws g (cursor g + k) = draws h (cursor h + k)) ->
  exists bag', shuffle_from i bag g = Ok (bag', mkRng (draws g) (cursor g + i)) /\
               shuffle_from i bag h = Ok (bag', mkRng (draws h) (cursor h + i)).
Proof.
  induction i as [|i IH]; intros bag g h Hsame; simpl.
  - exists bag. unfold ret. rewrite !Nat.add_0_r. by destruct g, h.
  - unfold bind, random_below.
    pose proof (Hsame 0%nat ltac:(lia)) as H0. rewrite !Nat.add_0_r in H0. rewrite H0.
    destruct (IH (swap bag (S i) (draws h (cursor h) mod S (S i))%nat)
                 (mkRng (draws g) (S (cursor g))) (mkRng (draws h) (S (cursor h))))
      as (bag' & Hg & Hh).
    { intros k Hk. cbn [draws cursor]. specialize (Hsame (S k) ltac:(lia)).
      by replace (S (cursor g) + k)%nat with (cursor g + S k)%nat by lia;
         replace (S (cursor h) + k)%nat with (cursor h + S k)%nat by lia. }
    cbn [draws cursor] in Hg, Hh. exists bag'.
    replace (cursor g + S i)%nat with (S (cursor g) + i)%nat by lia.
    replace (cursor h + S i)%nat with (S (cursor h) + i)%nat by lia.
    by rewrite Hg, Hh.
Qed.

Lemma kind_eqb_eq a b : kind_eqb a b = true -> a = b.
Proof. by destruct a, b. Qed.

Lemma bag_eqb_eq a : forall b, bag_eqb a b = true -> a = b.
Proof.
  induction a as [|x a IH]; intros [|y b] Heq; simpl in Heq; try done.
  apply andb_prop in Heq as [Hx Ha]. by rewrite (kind_eqb_eq _ _ Hx), (IH _ Ha).
Qed.

(** Every ordering of the seven kinds is the bag of the draws [draws_for]
    computes for it. *)
Lemma bag_of_draws_for p : p ≡ₚ ALL_KINDS -> bag_of (draws_for p) = p.
Proof.
  intros Hperm.
  assert (Hall : forallb (fun q => bag_eqb (bag_of (draws_for q)) q)
                   (permutations ALL_KINDS) = true) by (vm_compute; reflexivity).
  rewrite forallb_forall in Hall. apply bag_eqb_eq, Hall.
  apply list_elem_of_In, permutations_Permutation. by symmetry.
Qed.

Lemma randomBag_shuffle g : randomBag g = shuffle_from 6 ALL_KINDS g.
Proof. reflexivity. Qed.

(** A bag is fixed by the six draws its shuffle reads. *)
Lemma bag_of_run ds p g :
  bag_of ds = p ->
  (forall k, (k < 6)%nat -> draws g (cursor g + k) = nth k ds 0%nat) ->
  randomBag g = Ok (p, mkRng (draws g) (cursor g + 6)).
Proof.
  intros Hbag Hg. rewrite randomBag_shuffle.
  destruct (shuffle_from_ext 6 ALL_KINDS g (rng_of 0 ds)) as (bag' & Hrun & Hrun0).
  { intros k Hk. rewrite (Hg k Hk). cbn [rng_of draws cursor Nat.add Nat.ltb Nat.leb].
    by rewrite Nat.sub_0_r. }
  unfold bag_of in Hbag. rewrite randomBag_shuffle, Hrun0 in Hbag. by subst bag'.
Qed.

(** Every ordering of the seven kinds is returned by [randomBag] on some
    entropy, wherever in the entropy the shuffle starts. *)
Lemma randomBag_onto p :
  p ≡ₚ ALL_KINDS ->
  exists ds, forall g,
    (forall k, (k < 6)%nat -> draws g (cursor g + k) = nth k ds 0%nat) ->
    randomBag g = Ok (p, mkRng (draws g) (cursor g + 6)).
Proof.
  intros Hperm. exists (draws_for p). intros g.
  apply bag_of_run, bag_of_draws_for, Hperm.
Qed.

(** What a call of [spawnPiece] returns. *)
Lemma spawnPiece_spec (queue : list TetrominoKey) (g : Rng) :
  exists spawn queue_now g',
    spawnPiece queue g = Ok ((spawn, queue_now), g') /\
    (7 <= length (spawn_queue spawn))%nat /\
    exists nextPiece rest,
      queue_now = nextPiece :: rest /\
      (match queue with
       | [] => queue_now ≡ₚ ALL_KINDS
       | _ => queue_now = queue
       end) /\
      spawn_piece spawn = mkPiece nextPiece 0 (mkPos 3 0) /\
      if (length rest <=? 7)%nat
      then exists bag, bag ≡ₚ ALL_KINDS /\ spawn_queue spawn = rest ++ bag
      else spawn_queue spawn = rest.
Proof.
  unfold spawnPiece.
  assert (Hfirst : exists q0 g0 nextPiece rest,
             (match queue with
              | [] => bind randomBag (fun bag => ret (queue ++ bag))
              | _ => ret queue
              end) g = Ok (q0, g0) /\ q0 = nextPiece :: rest /\
             match queue with [] => q0 ≡ₚ ALL_KINDS | _ => q0 = queue end).
  { destruct queue as [|k rest].
    - destruct (randomBag_Permutation g) as (bag & g0 & Hrun & Hperm).
      destruct bag as [|k rest].
      { apply Permutation_length in Hperm. discriminate. }
      exists (k :: rest), g0, k, rest. unfold bind. rewrite Hrun. by simpl.
    - by exists (k :: rest), g, k, rest. }
  destruct Hfirst as (q0 & g0 & nextPiece & rest & Hrun & -> & Hq0).
  unfold bind at 1. rewrite Hrun. simpl hd. simpl tl.
  destruct (length rest <=? 7)%nat eqn:Hlen.
  - destruct (randomBag_Permutation g0) as (bag & g1 & Hrun1 & Hperm1).
    exists (mkSpawn (spawn_pose nextPiece) (rest ++ bag)), (nextPiece :: rest), g1.
    unfold bind, ret. rewrite Hrun1. split; [done|]. split.
    { simpl. rewrite length_app, (Permutation_length Hperm1). simpl. lia. }
    exists nextPiece, rest. rewrite Hlen. repeat split; try done. by exists bag.
  - exists (mkSpawn (spawn_pose nextPiece) rest), (nextPiece :: rest), g0.
    unfold bind, ret. split; [done|]. split.
    { simpl. apply Nat.leb_gt in Hlen. lia. }
    exists nextPiece, rest. rewrite Hlen. by repeat split.
Qed.

(** What a call of [spawnPiece] returns and the entropy it reads: [g0] is
    the entropy at the refill check. *)
Lemma spawnPiece_run (queue : list TetrominoKey) (g : Rng) :
  exists spawn queue_now g0 g',
    spawnPiece queue g = Ok ((spawn, queue_now), g') /\
    (7 <= length (spawn_queue spawn))%nat /\
    (match queue with
     | [] => randomBag g = Ok (queue_now, g0) /\ queue_now ≡ₚ ALL_KINDS
     | _ => queue_now = queue /\ g0 = g
     end) /\
    exists nextPiece rest,
      queue_now = nextPiece :: rest /\
      spawn_piece spawn = mkPiece nextPiece 0 (mkPos 3 0) /\
      if (length rest <=? 7)%nat
      then exists bag,
             randomBag g0 = Ok (bag, g') /\
             bag ≡ₚ ALL_KINDS /\
             draws g' = draws g0 /\ cursor g' = (cursor g0 + 6)%nat /\
             spawn_queue spawn = rest ++ bag
      else g' = g0 /\ spawn_queue spawn = rest.
Proof.
  unfold spawnPiece.
  assert (Hfirst : exists q0 g0 nextPiece rest,
             (match queue with
              | [] => bind randomBag (fun bag => ret (queue ++ bag))
              | _ => ret queue
              end) g = Ok (q0, g0) /\ q0 = nextPiece :: rest /\
             match queue with
             | [] => randomBag g = Ok (q0, g0) /\ q0 ≡ₚ ALL_KINDS
             | _ => q0 = queue /\ g0 = g
             end).
  { destruct queue as [|k rest].
    - destruct (randomBag_Permutation g) as (bag & g0 & Hrun & Hperm).
      destruct bag as [|k rest].
      { apply Permutation_length in Hperm. discriminate. }
      exists (k :: rest), g0, k, rest. unfold bind. rewrite Hrun. by simpl.
    - by exists (k :: rest), g, k, rest. }
  destruct Hfirst as (q0 & g0 & nextPiece & rest & Hrun & -> & Hq0).
  unfold bind at 1. rewrite Hrun. simpl hd. simpl tl.
  destruct (length rest <=? 7)%nat eqn:Hlen.
  - destruct (randomBag_Permutation g0) as (bag & g1 & Hrun1 & Hperm1).
    destruct (shuffle_from_draws _ _ _ _ _ Hrun1) as [Hd Hc].
    exists (mkSpawn (spawn_pose nextPiece) (rest ++ bag)), (nextPiece :: rest), g0, g1.
    unfold bind, ret. rewrite Hrun1. split; [done|]. split.
    { simpl. rewrite length_app, (Permutation_length Hperm1). simpl. lia. }
    split; [exact Hq0|].
    exists nextPiece, rest. rewrite Hlen. split; [done|]. split; [done|].
    exists bag. by repeat split.
  - exists (mkSpawn (spawn_pose nextPiece) rest), (nextPiece :: rest), g0, g0.
    unfold bind, ret. split; [done|]. split.
    { simpl. apply Nat.leb_gt in Hlen. lia. }
    split; [exact Hq0|].
    exists nextPiece, rest. rewrite Hlen. by repeat split.
Qed.

(** At the refill threshold every ordering of the seven kinds is the bag
    [spawnPiece] appends on some entropy. *)
Lemma spawnPiece_onto (queue p : list TetrominoKey) :
  p ≡ₚ ALL_KINDS ->
  (length (tl queue) <= 7)%nat ->
  exists g1 spawn1 queue1 g1',
    spawnPiece queue g1 = Ok ((spawn1, queue1), g1') /\
    spawn_queue spawn1 = tl queue1 ++ p.
Proof.
  intros Hperm Hshort. destruct (randomBag_onto p Hperm) as [ds Hds].
  destruct queue as [|k rest].
  - set (g1 := rng_of 6 ds).
    destruct (randomBag_Permutation g1) as (bag & g0 & Hrun & Hbag).
    destruct (shuffle_from_draws _ _ _ _ _ Hrun) as [Hd Hc].
    cbn [length Nat.sub] in Hc.
    destruct bag as [|first rest0]; [apply Permutation_length in Hbag; discriminate|].
    assert (Hlen : (length rest0 <=? 7)%nat = true).
    { apply Permutation_length in Hbag. simpl in Hbag. apply Nat.leb_le. lia. }
    eexists g1, _, _, _. unfold spawnPiece, bind, ret. rewrite Hrun.
    cbn [app hd tl]. rewrite Hlen, (Hds g0); [split; reflexivity|].
    intros i Hi. rewrite Hd, Hc. unfold g1, rng_of. cbn [draws cursor].
    destruct (Nat.ltb_spec (0 + 6 + i) 6) as [|_]; [lia|]. f_equal. lia.
  - simpl in Hshort. set (g1 := rng_of 0 ds).
    eexists g1, _, _, _. unfold spawnPiece, bind, ret. cbn [hd tl].
    rewrite (proj2 (Nat.leb_le _ _) Hshort), (Hds g1); [split; reflexivity|].
    intros i Hi. cbn [g1 rng_of draws cursor Nat.add Nat.ltb Nat.leb].
    by rewrite Nat.sub_0_r.
Qed.

(** C7. Queue non-starvation.  [spawnPiece] always returns.  It draws the
    front of the queue (of a bag pushed first when the queue is empty) as the
    new piece at the spawn pose.  When the rest has seven pieces or fewer it
    returns the rest followed by a fresh bag: the result of [randomBag] on
    the entropy as the call finds it at the refill check, a permutation of
    the seven kinds, six draws further on; otherwise it returns the rest
    alone and draws nothing more.  The queue returned is never shorter than
    seven.  The bag is shuffled: at the threshold every ordering of the
    seven kinds is appended on some entropy. *)
Theorem spawnPiece_queue (queue : list TetrominoKey) (g : Rng) :
  (exists spawn queue_now g0 g',
     spawnPiece queue g = Ok ((spawn, queue_now), g') /\
     (7 <= length (spawn_queue spawn))%nat /\
     (match queue with
      | [] => randomBag g = Ok (queue_now, g0) /\ queue_now ≡ₚ ALL_KINDS
      | _ => queue_now = queue /\ g0 = g
      end) /\
     exists nextPiece rest,
       queue_now = nextPiece :: rest /\
       spawn_piece spawn = mkPiece nextPiece 0 (mkPos 3 0) /\
       if (length rest <=? 7)%nat
       then exists bag,
              randomBag g0 = Ok (bag, g') /\
              bag ≡ₚ ALL_KINDS /\
              draws g' = draws g0 /\ cursor g' = (cursor g0 + 6)%nat /\
              spawn_queue spawn = rest ++ bag
       else g' = g0 /\ spawn_queue spawn = rest) /\
  (forall p, p ≡ₚ ALL_KINDS -> (length (tl queue) <= 7)%nat ->
     exists g1 spawn1 queue1 g1',
       spawnPiece queue g1 = Ok ((spawn1, queue1), g1') /\
       spawn_queue spawn1 = tl queue1 ++ p).
Proof.
  split; [apply spawnPiece_run|]. intros p. apply spawnPiece_onto.
Qed.

Lemma spawnPiece_queue_witness :
  (exists spawn g',
     spawnPiece [T_; I_] counting_rng = Ok ((spawn, [T_; I_]), g') /\
     spawn_piece spawn = spawn_pose T_ /\
     spawn_queue spawn = [I_] ++ [Z_; S_; T_; O_; L_; J_; I_] /\
     cursor g' = 6%nat) /\
  (exists g1 spawn1 queue1 g1',
     spawnPiece [T_; I_] g1 = Ok ((spawn1, queue1), g1') /\
     spawn_queue spawn1 = tl queue1 ++ [Z_; T_; S_; O_; L_; J_; I_]).
Proof.
  destruct (spawnPiece_queue [T_; I_] counting_rng) as [Hrun Honto]. split.
  - destruct Hrun as (spawn & q & g0 & g' & Hrun & _ & [-> ->] & _).
    exists spawn, g'. split; [exact Hrun|].
    vm_compute in Hrun. inversion Hrun; subst spawn g'. by repeat split.
  - apply Honto; [|simpl; lia].
    apply permutations_Permutation. apply (bool_decide_unpack _). vm_compute. exact I.
Defined.

(** ** Status actions *)



(** ** Hold *)

Lemma spawnPiece_total queue g :
  exists spawn queue_now g', spawnPiece queue g = Ok ((spawn, queue_now), g').
Proof.
  destruct (spawnPiece_spec queue g) as (spawn & queue_now & g' & Hrun & _).
  by exists spawn, queue_now, g'.
Qed.

Lemma hold_candidate_total s g :
  exists k g', hold_candidate s g = Ok (spawn_pose k, g').
Proof.
  unfold hold_candidate. destruct (holdPiece s) as [h|]; [by exists h, g|].
  destruct (spawnPiece_spec (nextQueue s) g)
    as (spawn & q & g' & -> & _ & k & rest & _ & _ & Hpiece & _).
  exists k, g'. by rewrite Hpiece.
Qed.

(** [HOLD] on a playing state whose hold is available, in terms of the
    candidate piece. *)
Lemma reducer_hold_playing s g cand g' blocked :
  status s = Playing -> canHold s = true ->
  hold_candidate s g = Ok (cand, g') ->
  collides (board s) cand None None = Ok blocked ->
  reducer s HOLD g =
    Ok (if blocked then with_status Gameover s
        else with_canHold false
               (with_holdPiece (Some (type (current s))) (with_current cand s)), g').
Proof.
  intros Hst Hcan Hcand Hcol. unfold reducer, hold_candidate in *.
  rewrite Hst, Hcan, bool_decide_eq_true_2 by done. cbn [negb orb].
  destruct (holdPiece s) as [h|].
  - inversion Hcand; subst. unfold bind, ret, lift. rewrite Hcol. by destruct blocked.
  - unfold bind, ret, lift. cbv zeta beta.
    destruct (spawnPiece (nextQueue s) g) as [[[spawn q] g1]| |]; [|done..].
    inversion Hcand; subst. simpl. rewrite Hcol. by destruct blocked.
Qed.

Lemma reducer_hold_guard s g :
  status s <> Playing \/ canHold s = false -> reducer s HOLD g = Ok (s, g).
Proof.
  intros Hguard. unfold reducer.
  destruct Hguard as [Hst|Hcan].
  - by rewrite bool_decide_eq_false_2.
  - rewrite Hcan. by rewrite orb_true_r.
Qed.

(** C6. Hold single-use.  On a board with its rows, [HOLD] returns, and a
    second [HOLD] right after it returns the state (and the entropy) the
    first one left: the first either did nothing, or ended the game, or
    swapped and turned the hold-available flag off.  [HOLD] is a no-op
    whenever the flag is off or the status is not playing, and a hold that
    keeps the game playing leaves the flag off. *)
Theorem hold_single_use (s : GameState) (g : Rng) :
  has_rows (board s) ->
  exists s1 g1,
    reducer s HOLD g = Ok (s1, g1) /\
    reducer s1 HOLD g1 = Ok (s1, g1) /\
    (status s = Playing -> canHold s = true -> status s1 = Playing -> canHold s1 = false) /\
    (status s <> Playing \/ canHold s = false -> s1 = s /\ g1 = g) /\
    (forall s2 g2, (status s2 <> Playing \/ canHold s2 = false) ->
                   reducer s2 HOLD g2 = Ok (s2, g2)).
Proof.
  intros Hrows.
  assert (Hguarded : forall s2 g2, (status s2 <> Playing \/ canHold s2 = false) ->
                                   reducer s2 HOLD g2 = Ok (s2, g2))
    by (intros; by apply reducer_hold_guard).
  destruct (decide (status s = Playing)) as [Hst|Hst];
    [destruct (canHold s) eqn:Hcan|].
  - destruct (hold_candidate_total s g) as (k & g' & Hcand).
    destruct (collides_total (board s) (spawn_pose k) None None Hrows) as [blocked Hcol];
      [simpl; lia|].
    rewrite (reducer_hold_playing s g _ g' blocked Hst Hcan Hcand Hcol).
    destruct blocked.
    + exists (with_status Gameover s), g'. split; [done|]. split.
      { apply Hguarded. by left. }
      split; [done|]. split; [|done]. intros [?|?]; congruence.
    + eexists _, g'. split; [done|]. split.
      { apply Hguarded. by right. }
      split; [done|]. split; [|done]. intros [?|?]; congruence.
  - exists s, g. rewrite Hguarded by (by right). repeat split; try done.
  - exists s, g. rewrite Hguarded by (by left). repeat split; try done.
Qed.

Lemma hold_single_use_witness :
  exists s1 g1,
    reducer (with_status Playing idle_state) HOLD zero_rng = Ok (s1, g1) /\
    reducer s1 HOLD g1 = Ok (s1, g1) /\
    canHold s1 = false /\ holdPiece s1 = Some J_.
Proof.
  destruct (hold_single_use (with_status Playing idle_state) zero_rng)
    as (s1 & g1 & H1 & H2 & _).
  - exact EMPTY_BOARD_has_rows.
  - exists s1, g1. split; [exact H1|]. split; [exact H2|].
    vm_compute in H1. inversion H1; subst s1. split; reflexivity.
Defined.

(** C10. A hold that ends the game touches nothing but the status.  For a
    playing state with hold available whose candidate piece (the held kind,
    or the next draw when nothing is held) collides at the spawn pose,
    [HOLD] returns the input with its status set to game-over: board, held
    piece, hold-available flag, score and queue are those of the input, so
    a piece drawn for the attempt is still at the front of the queue. *)
Theorem hold_game_over_frame (s : GameState) (g g' : Rng) (cand : ActivePiece) :
  status s = Playing ->
  canHold s = true ->
  hold_candidate s g = Ok (cand, g') ->
  collides (board s) cand None None = Ok true ->
  exists s',
    reducer s HOLD g = Ok (s', g') /\
    s' = with_status Gameover s /\
    status s' = Gameover /\
    board s' = board s /\ current s' = current s /\
    holdPiece s' = holdPiece s /\ canHold s' = canHold s /\
    score s' = score s /\ nextQueue s' = nextQueue s /\
    level s' = level s /\ lines s' = lines s /\ combo s' = combo s /\
    stats s' = stats s /\ linesToClear s' = linesToClear s /\ dropDelay s' = dropDelay s.
Proof.
  intros Hst Hcan Hcand Hcol.
  exists (with_status Gameover s). split; [|by repeat split].
  by rewrite (reducer_hold_playing s g cand g' true Hst Hcan Hcand Hcol).
Qed.

(** ** Locks *)

Lemma num_add_0_r n : num_add n (Num 0) = n.
Proof. destruct n; simpl; [f_equal; lia | done]. Qed.

(** A lock that completes rows: both actions return [clearing_lock]. *)
Lemma reducer_clearing_lock s a g landed dropped merged :
  status s = Playing ->
  lock_of s a landed dropped ->
  mergePiece (board s) landed = Ok merged ->
  findFullLines merged <> [] ->
  reducer s a g =
    Ok (clearing_lock s merged (findFullLines merged) (drop_bonus a dropped), g).
Proof.
  intros Hst Hlock Hmerge Hlines.
  assert (Hn : negb (length (findFullLines merged) =? 0)%nat = true)
    by (destruct (findFullLines merged); [done | reflexivity]).
  destruct a; try done; unfold lock_of in Hlock; unfold reducer, bind, lift, ret;
    rewrite Hst, bool_decide_eq_true_2 by done; cbn [negb]; cbv zeta beta.
  - destruct Hlock as (Hcol & -> & ->). rewrite Hcol. cbn [negb].
    rewrite Hmerge, Hn. reflexivity.
  - destruct Hlock as (Hdrop & ->). rewrite Hdrop, Hmerge, Hn. reflexivity.
Qed.

(** A lock that completes no row and whose next piece is blocked. *)
Lemma reducer_blocked_lock s a g g' landed dropped merged next queue_now :
  status s = Playing ->
  lock_of s a landed dropped ->
  mergePiece (board s) landed = Ok merged ->
  findFullLines merged = [] ->
  spawnPiece (nextQueue s) g = Ok ((next, queue_now), g') ->
  collides merged (spawn_piece next) None None = Ok true ->
  reducer s a g =
    Ok (with_status Gameover
          (with_score (num_add (score s) (Num (drop_bonus a dropped)))
             (with_board merged (with_nextQueue queue_now s))), g').
Proof.
  intros Hst Hlock Hmerge Hlines Hspawn Hblocked.
  destruct a; try done; unfold lock_of in Hlock; unfold reducer, bind, lift, ret;
    rewrite Hst, bool_decide_eq_true_2 by done; cbn [negb]; cbv zeta beta.
  - destruct Hlock as (Hcol & -> & ->). rewrite Hcol. cbn [negb].
    rewrite Hmerge, Hlines. cbn [length Nat.eqb negb]. rewrite Hspawn, Hblocked.
    cbn [drop_bonus]. rewrite num_add_0_r. by destruct s.
  - destruct Hlock as (Hdrop & ->). rewrite Hdrop, Hmerge, Hlines.
    cbn [length Nat.eqb negb]. rewrite Hspawn, Hblocked. reflexivity.
Qed.

(** C8. Game over on a blocked spawn keeps the merged board.  When a lock
    by [TICK] or [HARD_DROP] completes no row and the piece drawn next
    collides at its spawn pose, the action returns a state whose status is
    game-over and whose board is the merged board, the cells of the piece
    just locked included. *)
Theorem game_over_keeps_merged_board (s : GameState) (a : Action) (g g' : Rng)
    (landed : ActivePiece) (dropped : Z) (merged : Board)
    (next : Spawn) (queue_now : list TetrominoKey) :
  status s = Playing ->
  lock_of s a landed dropped ->
  mergePiece (board s) landed = Ok merged ->
  findFullLines merged = [] ->
  spawnPiece (nextQueue s) g = Ok ((next, queue_now), g') ->
  collides merged (spawn_piece next) None None = Ok true ->
  exists s',
    reducer s a g = Ok (s', g') /\
    status s' = Gameover /\
    board s' = merged.
Proof.
  intros Hst Hlock Hmerge Hlines Hspawn Hblocked.
  eexists. split; [by eapply reducer_blocked_lock|]. by split.
Qed.

Lemma game_over_keeps_merged_board_witness :
  (exists s', reducer stacked_state TICK zero_rng = Ok (s', zero_rng) /\
              status s' = Gameover /\ board s' = topped_board) /\
  (exists s', reducer stacked_state HARD_DROP zero_rng = Ok (s', zero_rng) /\
              status s' = Gameover /\ board s' = topped_board).
Proof.
  split.
  - apply (game_over_keeps_merged_board stacked_state TICK zero_rng zero_rng
             (spawn_pose O_) 0 topped_board
             (mkSpawn (spawn_pose T_) [L_; O_; S_; Z_; I_; J_; I_; J_; L_; O_; S_; T_; Z_])
             (nextQueue stacked_state));
      try (vm_compute; reflexivity).
    vm_compute. repeat split; reflexivity.
  - apply (game_over_keeps_merged_board stacked_state HARD_DROP zero_rng zero_rng
             (spawn_pose O_) 0 topped_board
             (mkSpawn (spawn_pose T_) [L_; O_; S_; Z_; I_; J_; I_; J_; L_; O_; S_; T_; Z_])
             (nextQueue stacked_state));
      try (vm_compute; reflexivity).
    vm_compute. repeat split; reflexivity.
Defined.

Lemma hold_game_over_frame_witness :
  (exists s',
     reducer (with_holdPiece (Some T_) (with_board topped_board stacked_state)) HOLD zero_rng
       = Ok (s', zero_rng) /\
     status s' = Gameover /\ board s' = topped_board /\
     holdPiece s' = Some T_ /\ canHold s' = true /\
     nextQueue s' = nextQueue stacked_state) /\
  (exists s',
     reducer (with_board topped_board stacked_state) HOLD zero_rng = Ok (s', zero_rng) /\
     status s' = Gameover /\ board s' = topped_board /\
     holdPiece s' = None /\ canHold s' = true /\
     nextQueue s' = T_ :: [L_; O_; S_; Z_; I_; J_; I_; J_; L_; O_; S_; T_; Z_]).
Proof.
  split.
  - destruct (hold_game_over_frame
                (with_holdPiece (Some T_) (with_board topped_board stacked_state))
                zero_rng zero_rng (spawn_pose T_))
      as (s' & Hrun & -> & _); try (vm_compute; reflexivity).
    eexists. split; [exact Hrun|]. repeat split.
  - destruct (hold_game_over_frame (with_board topped_board stacked_state)
                zero_rng zero_rng (spawn_pose T_))
      as (s' & Hrun & -> & _); try (vm_compute; reflexivity).
    eexists. split; [exact Hrun|]. repeat split.
Defined.

(** ** Scoring *)

Lemma score_of_clearing_lock s merged lines_ bonus :
  score (clearing_lock s merged lines_ bonus) =
    num_add (score s)
      (num_add (num_mul (num_add (score_at (length lines_)) (Num (combo_bonus (combo s + 1))))
                        (Num (calculateLevel (lines s + Z.of_nat (length lines_)))))
               (Num bonus)).
Proof. reflexivity. Qed.

(** C2, as the reducer has it.  A lock by [TICK] or [HARD_DROP] that
    completes [n >= 1] rows returns, and it adds to the score
    [(base + combo bonus) * level + hard-drop bonus]: the combo bonus is
    inside the product with the level.  [base] is [SCORES[n]] (100, 300, 500,
    800 for 1 to 4 rows), the combo bonus is [50 * combo] when the
    incremented combo counter is positive and [0] otherwise, the level is
    computed from the lines cleared so far plus [n], and the hard-drop bonus
    is twice the drop distance for [HARD_DROP] and absent for [TICK]. *)
Theorem clearing_lock_score_delta (s : GameState) (a : Action) (g : Rng)
    (landed : ActivePiece) (dropped : Z) (merged : Board) :
  status s = Playing ->
  lock_of s a landed dropped ->
  mergePiece (board s) landed = Ok merged ->
  let n := length (findFullLines merged) in
  (1 <= n)%nat ->
  let combo_ := combo s + 1 in
  let level_ := calculateLevel (lines s + Z.of_nat n) in
  let comboBonus := if combo_ >? 0 then 50 * combo_ else 0 in
  let hardDropBonus := match a with HARD_DROP => 2 * dropped | _ => 0 end in
  exists s',
    reducer s a g = Ok (s', g) /\
    combo s' = combo_ /\ level s' = level_ /\
    (forall z base, score s = Num z -> SCORES !! n = Some base ->
       score s' = Num (z + ((base + comboBonus) * level_ + hardDropBonus))) /\
    SCORES !! 1%nat = Some 100 /\ SCORES !! 2%nat = Some 300 /\
    SCORES !! 3%nat = Some 500 /\ SCORES !! 4%nat = Some 800.
Proof.
  intros Hst Hlock Hmerge n Hn combo_ level_ comboBonus hardDropBonus.
  exists (clearing_lock s merged (findFullLines merged) (drop_bonus a dropped)).
  split.
  { apply (reducer_clearing_lock s a g landed dropped merged Hst Hlock Hmerge).
    intros Hnil. subst n. rewrite Hnil in Hn. simpl in Hn. lia. }
  split; [reflexivity|]. split; [reflexivity|]. split; [|by repeat split].
  intros z base Hz Hbase. rewrite score_of_clearing_lock, Hz.
  unfold score_at. fold n. rewrite Hbase. simpl. f_equal.
  unfold combo_bonus. fold combo_. fold level_.
  replace (combo_ * 50) with (50 * combo_) by lia.
  fold comboBonus.
  assert (drop_bonus a dropped = hardDropBonus) as -> by (by destruct a).
  reflexivity.
Qed.

Lemma gap_state_lock lines_ combo_ :
  lock_of (gap_state lines_ combo_) TICK (mkPiece I_ 0 (mkPos 3 20)) 0 /\
  exists merged,
    mergePiece gap_board (mkPiece I_ 0 (mkPos 3 20)) = Ok merged /\
    findFullLines merged = [21].
Proof.
  split; [by repeat split|]. eexists. split; vm_compute; reflexivity.
Qed.

Lemma clearing_lock_score_delta_witness :
  (exists s',
     reducer (gap_state 10 0) TICK zero_rng = Ok (s', zero_rng) /\
     combo s' = 1 /\ level s' = 2 /\
     score s' = Num (0 + ((100 + 50) * 2 + 0))) /\
  (exists s',
     reducer drop_state HARD_DROP zero_rng = Ok (s', zero_rng) /\
     combo s' = 1 /\ level s' = 2 /\
     score s' = Num (0 + ((100 + 50) * 2 + 2 * 20))).
Proof.
  split.
  - destruct (clearing_lock_score_delta (gap_state 10 0) TICK zero_rng
                (mkPiece I_ 0 (mkPos 3 20)) 0 filled_board)
      as (s' & Hrun & Hcombo & Hlevel & Hscore & _).
    + reflexivity.
    + by repeat split.
    + vm_compute. reflexivity.
    + vm_compute. lia.
    + exists s'. split; [exact Hrun|]. split; [exact Hcombo|]. split; [exact Hlevel|].
      apply (Hscore 0 100); reflexivity.
  - destruct (clearing_lock_score_delta drop_state HARD_DROP zero_rng
                (mkPiece I_ 0 (mkPos 3 20)) 20 filled_board)
      as (s' & Hrun & Hcombo & Hlevel & Hscore & _).
    + reflexivity.
    + split; vm_compute; reflexivity.
    + vm_compute. reflexivity.
    + vm_compute. lia.
    + exists s'. split; [exact Hrun|]. split; [exact Hcombo|]. split; [exact Hlevel|].
      apply (Hscore 0 100); reflexivity.
Defined.

(** C2 fails as stated.  With ten lines cleared (level 2) and the combo
    counter at 0, a tick lock that completes one row adds
    [(100 + 50) * 2 = 300] to the score; the claimed delta is
    [100 * 2 + 50 = 250] (and [100 * 2 + 0 = 200] were the bonus taken from
    the counter before its increment). *)
Lemma clearing_lock_score_delta_counterexample :
  exists s',
    reducer (gap_state 10 0) TICK zero_rng = Ok (s', zero_rng) /\
    linesToClear s' = [21] /\ level s' = 2 /\ combo s' = 1 /\
    score (gap_state 10 0) = Num 0 /\
    score s' = Num 300 /\
    score s' <> Num (0 + claimed_score_delta 100 2 (50 * 1) 0) /\
    score s' <> Num (0 + claimed_score_delta 100 2 0 0).
Proof.
  eexists. split; [vm_compute; reflexivity|]. by repeat split.
Qed.

(** C3, as the reducer has it.  A tick lock (no hard-drop bonus) that
    completes [n] rows, [n] from 1 to 4, returns.  The level that multiplies
    is the one the lock computes from the lines cleared so far plus [n] and
    stores; the level stored before the lock is not read.  Entered with the
    combo counter at its sentinel [-1], the lock adds [base * level], with
    [base] 100, 300, 500 or 800: exactly [base] when the lines cleared so
    far plus [n] stay below ten.  Entered as a consecutive clearing lock
    with one clearing lock before it (counter [0], so that the streak
    becomes 1), it adds [(base + 50) * level]: the 50-point combo bonus is
    inside the quantity multiplied by the level. *)
Theorem score_exactness (s : GameState) (g : Rng) (merged : Board) (z : Z) :
  status s = Playing ->
  collides (board s) (current s)
    (Some (mkPos (px (position (current s))) (py (position (current s)) + 1))) None
    = Ok true ->
  mergePiece (board s) (current s) = Ok merged ->
  score s = Num z ->
  let n := length (findFullLines merged) in
  (1 <= n <= 4)%nat ->
  let base := match n with 1%nat => 100 | 2%nat => 300 | 3%nat => 500 | _ => 800 end in
  let level_ := calculateLevel (lines s + Z.of_nat n) in
  exists s',
    reducer s TICK g = Ok (s', g) /\
    level s' = level_ /\
    (combo s = -1 -> score s' = Num (z + base * level_)) /\
    (combo s = -1 -> 0 <= lines s -> lines s + Z.of_nat n < 10 ->
     score s' = Num (z + base)) /\
    (combo s = 0 -> combo s' = 1 /\ score s' = Num (z + (base + 50) * level_)).
Proof.
  intros Hst Hcol Hmerge Hz n Hn base level_.
  exists (clearing_lock s merged (findFullLines merged) (drop_bonus TICK 0)).
  split.
  { apply (reducer_clearing_lock s TICK g (current s) 0 merged Hst); [by repeat split|done|].
    intros Hnil. subst n. rewrite Hnil in Hn. simpl in Hn. lia. }
  split; [reflexivity|].
  assert (Hbase : score_at n = Num base).
  { subst base. destruct n as [|[|[|[|[|n]]]]]; try reflexivity; lia. }
  assert (Hscore : forall c, combo s = c ->
            score (clearing_lock s merged (findFullLines merged) (drop_bonus TICK 0))
            = Num (z + (base + combo_bonus (c + 1)) * level_)).
  { intros c Hc. rewrite score_of_clearing_lock. fold n. fold level_.
    rewrite Hz, Hbase, Hc. cbn [num_add num_mul drop_bonus]. f_equal. lia. }
  split; [|split].
  - intros Hcombo. rewrite (Hscore _ Hcombo). change (combo_bonus (-1 + 1)) with 0.
    f_equal. lia.
  - intros Hcombo Hlines0 Hlines. rewrite (Hscore _ Hcombo).
    change (combo_bonus (-1 + 1)) with 0.
    assert (Hlevel : level_ = 1).
    { subst level_. unfold calculateLevel. rewrite Z.div_small by lia. reflexivity. }
    rewrite Hlevel. f_equal. lia.
  - intros Hcombo. split; [simpl; lia|]. rewrite (Hscore _ Hcombo).
    change (combo_bonus (0 + 1)) with 50. reflexivity.
Qed.

Lemma score_exactness_witness :
  (exists s', reducer (gap_state 0 (-1)) TICK zero_rng = Ok (s', zero_rng) /\
              linesToClear s' = [21] /\ score s' = Num (0 + 100)) /\
  (exists s', reducer well_state TICK zero_rng = Ok (s', zero_rng) /\
              linesToClear s' = [18; 19; 20; 21] /\ score s' = Num (0 + 800)) /\
  (exists s', reducer (gap_state 9 (-1)) TICK zero_rng = Ok (s', zero_rng) /\
              score s' = Num (0 + 100 * 2) /\ level s' = 2) /\
  (exists s', reducer (gap_state 10 0) TICK zero_rng = Ok (s', zero_rng) /\
              score s' = Num (0 + (100 + 50) * 2) /\ level s' = 2).
Proof.
  split; [|split; [|split]].
  - destruct (score_exactness (gap_state 0 (-1)) zero_rng
                filled_board 0)
      as (s' & Hrun & _ & _ & Hfirst & _);
      [reflexivity | reflexivity | vm_compute; reflexivity | reflexivity
      | vm_compute; lia |].
    exists s'. split; [exact Hrun|]. split.
    + vm_compute in Hrun. by inversion Hrun.
    + apply Hfirst; by vm_compute.
  - destruct (score_exactness well_state zero_rng
                (replicate 18 EMPTY_ROW ++
                 replicate 4 (replicate 5 (locked_cell J_) ++ [locked_cell I_] ++
                              replicate 4 (locked_cell J_))) 0)
      as (s' & Hrun & _ & _ & Hfirst & _);
      [reflexivity | reflexivity | vm_compute; reflexivity | reflexivity
      | vm_compute; lia |].
    exists s'. split; [exact Hrun|]. split.
    + vm_compute in Hrun. by inversion Hrun.
    + apply Hfirst; by vm_compute.
  - destruct (score_exactness (gap_state 9 (-1)) zero_rng
                filled_board 0)
      as (s' & Hrun & Hlevel & Hsentinel & _);
      [reflexivity | reflexivity | vm_compute; reflexivity | reflexivity
      | vm_compute; lia |].
    exists s'. split; [exact Hrun|]. split.
    + by apply Hsentinel.
    + exact Hlevel.
  - destruct (score_exactness (gap_state 10 0) zero_rng
                filled_board 0)
      as (s' & Hrun & Hlevel & _ & _ & Hsecond);
      [reflexivity | reflexivity | vm_compute; reflexivity | reflexivity
      | vm_compute; lia |].
    exists s'. split; [exact Hrun|]. split.
    + by apply Hsecond.
    + exact Hlevel.
Defined.

(** C3 fails as stated.  With nine lines cleared the level is 1; with the
    combo counter at its sentinel a tick lock that completes one row adds
    200, not 100: the lock scores at the level of ten lines.  With six lines
    cleared a tick lock that completes four rows adds 1600, not 800. *)
Lemma score_exactness_counterexample :
  (level (gap_state 9 (-1)) = 1 /\ combo (gap_state 9 (-1)) = -1 /\
   score (gap_state 9 (-1)) = Num 0 /\
   exists s',
     reducer (gap_state 9 (-1)) TICK zero_rng = Ok (s', zero_rng) /\
     linesToClear s' = [21] /\
     score s' = Num 200 /\ score s' <> Num (0 + 100)) /\
  (level (with_lines 6 well_state) = 1 /\ combo (with_lines 6 well_state) = -1 /\
   score (with_lines 6 well_state) = Num 0 /\
   exists s',
     reducer (with_lines 6 well_state) TICK zero_rng = Ok (s', zero_rng) /\
     linesToClear s' = [18; 19; 20; 21] /\
     score s' = Num 1600 /\ score s' <> Num (0 + 800)).
Proof.
  split; (split; [reflexivity|]); (split; [reflexivity|]); (split; [reflexivity|]);
    eexists; (split; [vm_compute; reflexivity|]); by repeat split.
Qed.

(** ** Rotation *)

Section Kicks.
Variables (board : Board) (piece : ActivePiece) (nextRotation : Z).
Hypothesis Hrows : has_rows board.
Hypothesis Hrot : 0 <= nextRotation.

(** The loop over the kicks takes the first one that does not collide. *)
Lemma try_kicks_first kicks :
  (exists pre k post,
      kicks = pre ++ k :: post /\
      Forall (kick_collides board piece nextRotation) pre /\
      collides board piece (Some (candidate piece k)) (Some nextRotation) = Ok false /\
      try_kicks board piece nextRotation kicks
        = Ok (Some (mkKicked (candidate piece k) nextRotation)))
  \/ (Forall (kick_collides board piece nextRotation) kicks /\
      try_kicks board piece nextRotation kicks = Ok None).
Proof.
  induction kicks as [|k kicks IH]; simpl.
  - right. by split.
  - destruct (collides_total board piece (Some (candidate piece k)) (Some nextRotation)
                Hrows Hrot) as [hit Hhit].
    fold (candidate piece k). rewrite Hhit. simpl. destruct hit; simpl.
    + destruct IH as [(pre & k' & post & -> & Hpre & Hfree & Hrun)|[Hall Hrun]].
      * left. exists (k :: pre), k', post. repeat split; try done. by constructor.
      * right. split; [by constructor|done].
    + left. exists [], k, kicks. by repeat split.
Qed.
End Kicks.

(** The target rotation and the key of the kick list, for a rotation index
    that is not negative: the key pairs [rotation mod 4] with the target. *)
Lemma rotation_key r d :
  0 <= r ->
  let target := (r + direction_value d) mod 4 in
  Z.rem (r + direction_value d + 4) 4 = target /\
  0 <= target < 4 /\
  getRotationKey r target = (pretty (r mod 4) +:+ ">" +:+ pretty target)%string /\
  is_Some (SRS_KICKS_I !! getRotationKey r target) /\
  is_Some (SRS_KICKS_DEFAULT !! getRotationKey r target).
Proof.
  intros Hr target.
  assert (Hd : direction_value d = 1 \/ direction_value d = -1) by (destruct d; tauto).
  assert (Htarget : 0 <= target < 4) by (apply Z.mod_pos_bound; lia).
  assert (Hrem : Z.rem (r + direction_value d + 4) 4 = target).
  { rewrite Z.rem_mod_nonneg by lia. subst target.
    replace (r + direction_value d + 4) with (r + direction_value d + 1 * 4) by lia.
    apply Z.mod_add. lia. }
  assert (Hkey : getRotationKey r target = (pretty (r mod 4) +:+ ">" +:+ pretty target)%string).
  { unfold getRotationKey. by rewrite !Z.rem_mod_nonneg, (Z.mod_small target) by lia. }
  split; [exact Hrem|]. split; [exact Htarget|]. split; [exact Hkey|].
  rewrite Hkey.
  assert (Hfrom : 0 <= r mod 4 < 4) by (apply Z.mod_pos_bound; lia).
  assert (Hstep : target = (r mod 4 + direction_value d + 4) mod 4).
  { subst target. rewrite <- Zplus_mod_idemp_l with (a := r).
    replace (r mod 4 + direction_value d + 4) with (r mod 4 + direction_value d + 1 * 4) by lia.
    by rewrite Z.mod_add by lia. }
  assert (Hcases : r mod 4 = 0 \/ r mod 4 = 1 \/ r mod 4 = 2 \/ r mod 4 = 3) by lia.
  destruct Hcases as [Hc|[Hc|[Hc|Hc]]]; rewrite Hstep, Hc;
    destruct d; split; vm_compute; eexists; reflexivity.
Qed.

(** C4. Rotation resolution.  For a playing state on a board with its rows
    and a rotation index that is not negative, [ROTATE] returns.  The target
    rotation is [(current + direction) mod 4]; the kick list is the single
    no-offset kick for the O piece, the entry of [SRS_KICKS_I] for the I
    piece and the entry of [SRS_KICKS_DEFAULT] for the other five, under the
    key of the pair (from-rotation, to-rotation); the offsets are tried in
    their listed order, every one before the chosen one collides, and the
    state returned has the position and rotation of the first candidate that
    does not collide.  If every offset collides the state is returned as it
    was. *)
Theorem rotate_resolution (s : GameState) (d : Direction) (g : Rng) :
  status s = Playing ->
  has_rows (board s) ->
  0 <= rotation (current s) ->
  let piece := current s in
  let target := (rotation piece + direction_value d) mod 4 in
  let key := (pretty (rotation piece mod 4) +:+ ">" +:+ pretty target)%string in
  exists kicks,
    match type piece with
    | O_ => kicks = [mkPos 0 0]
    | I_ => SRS_KICKS_I !! key = Some kicks
    | _ => SRS_KICKS_DEFAULT !! key = Some kicks
    end /\
    ((exists pre k post,
         kicks = pre ++ k :: post /\
         Forall (kick_collides (board s) piece target) pre /\
         collides (board s) piece (Some (candidate piece k)) (Some target) = Ok false /\
         reducer s (ROTATE d) g =
           Ok (with_current (mkPiece (type piece) target (candidate piece k)) s, g))
     \/
     (Forall (kick_collides (board s) piece target) kicks /\
      reducer s (ROTATE d) g = Ok (s, g))).
Proof.
  intros Hst Hrows Hrot piece target key.
  destruct (rotation_key (rotation piece) d Hrot)
    as (Hrem & Htarget & Hkey & [kicksI HI] & [kicksD HD]).
  fold target in Hrem, Htarget, Hkey, HI, HD. fold key in Hkey.
  set (kicks := match type piece with
                | O_ => [mkPos 0 0]
                | I_ => kicksI
                | _ => kicksD
                end).
  assert (Hrun : applyKickTests (board s) piece d = try_kicks (board s) piece target kicks).
  { unfold applyKickTests. rewrite Hrem. subst kicks.
    destruct (type piece); rewrite ?HI, ?HD; try reflexivity.
    by rewrite lookup_singleton_eq. }
  exists kicks. split.
  { subst kicks. rewrite <- Hkey. by destruct (type piece). }
  assert (Hred : reducer s (ROTATE d) g =
                 match try_kicks (board s) piece target kicks with
                 | Ok None => Ok (s, g)
                 | Ok (Some k) =>
                     Ok (with_current
                           (with_rotation (kicked_rotation k)
                              (with_position (kicked_position k) piece)) s, g)
                 | TypeError => TypeError
                 | OutOfFuel => OutOfFuel
                 end).
  { unfold reducer, bind, lift, ret. rewrite Hst, bool_decide_eq_true_2 by done.
    cbn [negb]. fold piece. rewrite Hrun.
    by destruct (try_kicks (board s) piece target kicks) as [[k|]| |]. }
  destruct (try_kicks_first (board s) piece target Hrows (proj1 Htarget) kicks)
    as [(pre & k & post & Hsplit & Hpre & Hfree & Htry)|[Hall Htry]].
  - left. exists pre, k, post. repeat split; try done.
    by rewrite Hred, Htry.
  - right. split; [done|]. by rewrite Hred, Htry.
Qed.

Lemma rotate_resolution_witness :
  exists kicks,
    SRS_KICKS_DEFAULT !! "0>1"%string = Some kicks /\
    reducer (with_status Playing idle_state) (ROTATE Clockwise) zero_rng =
      Ok (with_current (mkPiece J_ 1 (mkPos 3 0)) (with_status Playing idle_state), zero_rng).
Proof.
  destruct (rotate_resolution (with_status Playing idle_state) Clockwise zero_rng)
    as (kicks & Hkicks & Hcases).
  - reflexivity.
  - exact EMPTY_BOARD_has_rows.
  - simpl. lia.
  - exists kicks. split; [exact Hkicks|].
    vm_compute in Hkicks. inversion Hkicks; subst kicks.
    destruct Hcases as [(pre & k & post & Hsplit & Hpre & Hfree & Hrun)|[Hall Hrun]].
    + destruct pre as [|k0 pre]; simpl in Hsplit; inversion Hsplit; subst.
      * rewrite Hrun. reflexivity.
      * exfalso. apply Forall_cons in Hpre as [Hfirst _]. vm_compute in Hfirst. discriminate.
    + exfalso. apply Forall_cons in Hall as [Hfirst _]. vm_compute in Hfirst. discriminate.
Defined.

(** ** Totality on well-formed states *)

Lemma has_cell_set matrix : has_cell matrix = true -> exists x y, cell_set matrix x y.
Proof.
  unfold has_cell. rewrite existsb_exists. intros (row & Hrow & Hex).
  apply existsb_exists in Hex as (v & Hv & Hnz).
  apply list_elem_of_In, list_elem_of_lookup in Hrow as [y Hy].
  apply list_elem_of_In, list_elem_of_lookup in Hv as [x Hx].
  exists x, y, row, v. repeat split; try done.
  intros ->. discriminate.
Qed.

(** Every rotation state of every kind has a set cell. *)
Lemma TETROMINOES_has_cell k matrix :
  matrix ∈ TETROMINOES k -> exists x y, cell_set matrix x y.
Proof.
  intros Hin. apply has_cell_set.
  assert (Hall : Forall (fun m => has_cell m = true) (TETROMINOES k))
    by (destruct k; repeat constructor).
  rewrite Forall_forall in Hall. by apply Hall.
Qed.

(** A piece whose anchor is at or below the floor collides. *)
Lemma collides_below_floor board piece x y :
  has_rows board -> 0 <= rotation piece -> BOARD_HEIGHT <= y ->
  collides board piece (Some (mkPos x y)) None = Ok true.
Proof.
  intros Hrows Hrot Hy. unfold collides. simpl default.
  destruct (getPieceMatrix_nonneg (type piece) _ Hrot) as (m & -> & Hin).
  destruct (collides_rows_spec board Hrows (mkPos x y) m 0) as (b & -> & Hspec).
  f_equal. apply Hspec.
  destruct (TETROMINOES_has_cell _ _ Hin) as (i & j & row & v & Hj & Hi & Hv).
  exists i, j, row, v. repeat split; try done.
  right; right; left. simpl. lia.
Qed.

(** The drop loop stops before its fuel runs out. *)
Lemma drop_loop_enough_fuel board piece :
  has_rows board -> 0 <= rotation piece ->
  forall fuel dropDistance,
    (0 < fuel)%nat ->
    BOARD_HEIGHT - (py (position piece) + dropDistance + 1) < Z.of_nat fuel ->
    exists d, drop_loop fuel board piece dropDistance = Ok d /\ dropDistance <= d.
Proof.
  intros Hrows Hrot. induction fuel as [|fuel IH]; intros d Hpos Hfuel; [lia|].
  simpl.
  destruct (collides_total board piece
              (Some (mkPos (px (position piece)) (py (position piece) + d + 1))) None
              Hrows Hrot) as [hit Hhit].
  rewrite Hhit. simpl. destruct hit; simpl.
  - exists d. split; [done|lia].
  - assert (Habove : py (position piece) + d + 1 < BOARD_HEIGHT).
    { destruct (Z.lt_ge_cases (py (position piece) + d + 1) BOARD_HEIGHT) as [?|Hge]; [done|].
      rewrite (collides_below_floor board piece _ _ Hrows Hrot Hge) in Hhit. discriminate. }
    destruct (IH (d + 1)) as (d' & Hrun & Hle); [lia|lia|].
    exists d'. split; [done|lia].
Qed.

Lemma drop_loop_total board piece :
  has_rows board -> 0 <= rotation piece ->
  exists d, drop_loop (drop_fuel piece) board piece 0 = Ok d /\ 0 <= d.
Proof.
  intros Hrows Hrot. apply drop_loop_enough_fuel; try done; unfold drop_fuel; lia.
Qed.

Lemma set_cell_total nextBoard x y cell :
  has_rows nextBoard -> 0 <= y < BOARD_HEIGHT ->
  exists nextBoard', set_cell nextBoard x y cell = Ok nextBoard' /\
                     length nextBoard' = length nextBoard.
Proof.
  intros Hrows Hy. unfold set_cell.
  destruct (at_index_in_range nextBoard y) as [row ->]; [unfold has_rows in Hrows; lia|].
  eexists. split; [reflexivity|]. apply length_insert.
Qed.

Lemma merge_cells_total piece y cells : forall x nextBoard,
  has_rows nextBoard ->
  exists nextBoard', merge_cells piece y x cells nextBoard = Ok nextBoard' /\
                     length nextBoard' = length nextBoard.
Proof.
  induction cells as [|v cells IH]; intros x nextBoard Hrows; simpl; [by eexists|].
  destruct (v =? 0); [by apply IH|].
  destruct (Z.geb_spec (py (position piece) + y) 0); simpl; [|by apply IH].
  destruct (Z.ltb_spec (py (position piece) + y) BOARD_HEIGHT); simpl; [|by apply IH].
  destruct ((px (position piece) + x >=? 0) && (px (position piece) + x <? BOARD_WIDTH));
    [|by apply IH].
  destruct (set_cell_total nextBoard (px (position piece) + x) (py (position piece) + y)
              (mkCell (type piece) true None) Hrows) as (nb & -> & Hlen); [lia|].
  simpl. destruct (IH (x + 1) nb) as (nb' & Hrun & Hlen').
  { unfold has_rows in *. by rewrite Hlen. }
  exists nb'. split; [done|congruence].
Qed.

Lemma merge_rows_total piece rows : forall y nextBoard,
  has_rows nextBoard ->
  exists nextBoard', merge_rows piece y rows nextBoard = Ok nextBoard' /\
                     length nextBoard' = length nextBoard.
Proof.
  induction rows as [|row rows IH]; intros y nextBoard Hrows; simpl; [by eexists|].
  destruct (merge_cells_total piece y row 0 nextBoard Hrows) as (nb & -> & Hlen).
  simpl. destruct (IH (y + 1) nb) as (nb' & Hrun & Hlen').
  { unfold has_rows in *. by rewrite Hlen. }
  exists nb'. split; [done|congruence].
Qed.

(** [mergePiece] returns on a board with its rows, and keeps the height. *)
Lemma mergePiece_total board piece :
  has_rows board -> 0 <= rotation piece ->
  exists merged, mergePiece board piece = Ok merged /\ length merged = length board.
Proof.
  intros Hrows Hrot. unfold mergePiece. rewrite cloneBoard_id.
  destruct (getPieceMatrix_nonneg (type piece) _ Hrot) as (m & -> & _).
  by apply merge_rows_total.
Qed.

Lemma collapse_step_length (b : Board) l : (length b <= length (collapse_step b l))%nat.
Proof.
  unfold collapse_step, splice1. simpl. rewrite delete_take_drop, length_app, length_take, length_drop.
  lia.
Qed.

Lemma clearFullLines_length (b : Board) ls : (length b <= length (clearFullLines b ls))%nat.
Proof.
  unfold clearFullLines. destruct ls as [|l ls]; [done|]. rewrite cloneBoard_id.
  change (fun nextBoard line => EMPTY_ROW :: splice1 nextBoard line) with collapse_step.
  generalize (l :: ls). intros lines_. revert b.
  induction lines_ as [|l' ls' IH]; intros b; simpl; [done|].
  etransitivity; [apply (collapse_step_length b l')|apply IH].
Qed.

(** The engine is total: on a state whose board has its rows and whose
    active piece has a rotation index that is not negative, every action
    returns a state; no [TypeError] is thrown and the drop loop ends. *)
Lemma reducer_total (s : GameState) (a : Action) (g : Rng) :
  has_rows (board s) -> 0 <= rotation (current s) ->
  exists s' g', reducer s a g = Ok (s', g').
Proof.
  intros Hrows Hrot.
  assert (Hspawn : forall (b : Board) queue g0 (k : GameState -> Spawn -> list TetrominoKey -> bool -> GameState),
             has_rows b ->
             exists s' g',
               bind (spawnPiece queue)
                 (fun spawned => let '(next, queue_now) := spawned in
                    bind (lift (collides b (spawn_piece next) None None))
                      (fun blocked => ret (k s next queue_now blocked))) g0 = Ok (s', g')).
  { intros b queue g0 k Hb. unfold bind, lift, ret.
    destruct (spawnPiece_spec queue g0)
      as (spawn & q & g' & -> & _ & np & rest & _ & _ & Hpiece & _).
    destruct (collides_total b (spawn_piece spawn) None None Hb) as [blocked ->].
    { rewrite Hpiece. simpl. lia. }
    by eexists _, _. }
  destruct a; unfold reducer;
    try (by eexists _, _);
    try (destruct (negb (bool_decide (status s = Playing))); [by eexists _, _|]).
  - (* TICK *)
    unfold bind at 1. unfold lift at 1.
    destruct (collides_total (board s) (current s)
                (Some (mkPos (px (position (current s))) (py (position (current s)) + 1)))
                None Hrows Hrot) as [hit ->].
    destruct hit; cbn [negb]; [|by eexists _, _].
    unfold bind at 1. unfold lift at 1.
    destruct (mergePiece_total (board s) (current s) Hrows Hrot) as (merged & -> & Hlen).
    destruct (negb _); [by eexists _, _|].
    assert (Hm : has_rows merged) by (unfold has_rows in *; by rewrite Hlen).
    destruct (Hspawn merged (nextQueue s) g
                (fun st next q blocked =>
                   if blocked then with_status Gameover (with_board merged (with_nextQueue q st))
                   else with_combo (-1) (with_canHold true (with_nextQueue (spawn_queue next)
                          (with_current (spawn_piece next) (with_board merged (with_nextQueue q st))))))
                Hm) as (s' & g' & Hrun).
    exists s', g'. rewrite <- Hrun. unfold bind, lift, ret.
    destruct (spawnPiece (nextQueue s) g) as [[[next q] g1]| |]; try done.
    destruct (collides merged (spawn_piece next) None None) as [[|]| |]; done.
  - (* MOVE *)
    unfold bind, lift, ret.
    destruct (collides_total (board s) (current s)
                (Some (mkPos (px (position (current s)) + dx) (py (position (current s)) + dy)))
                None Hrows Hrot) as [hit ->].
    destruct hit; by eexists _, _.
  - (* ROTATE *)
    destruct (rotation_key (rotation (current s)) direction Hrot) as (Hrem & Htarget & _).
    unfold bind, lift, ret, applyKickTests. rewrite Hrem.
    match goal with |- context [try_kicks ?b ?p ?t ?ks] =>
      destruct (try_kicks_first b p t Hrows (proj1 Htarget) ks)
        as [(pre & k & post & _ & _ & _ & ->)|[_ ->]] end; by eexists _, _.
  - (* HARD_DROP *)
    unfold bind at 1. unfold lift at 1.
    destruct (drop_loop_total (board s) (current s) Hrows Hrot) as (d & -> & Hd).
    unfold bind at 1. unfold lift at 1.
    destruct (mergePiece_total (board s)
                (with_position (mkPos (px (position (current s))) (py (position (current s)) + d))
                   (current s)) Hrows Hrot) as (merged & -> & Hlen).
    destruct (negb _); [by eexists _, _|].
    assert (Hm : has_rows merged) by (unfold has_rows in *; by rewrite Hlen).
    destruct (Hspawn merged (nextQueue s) g
                (fun st next q blocked => st) Hm) as (s' & g' & Hrun).
    unfold bind, lift, ret in *.
    destruct (spawnPiece (nextQueue s) g) as [[[next q] g1]| |]; try done.
    destruct (collides merged (spawn_piece next) None None) as [[|]| |]; try done;
      by eexists _, _.
  - (* HOLD *)
    cbn [orb]. destruct (negb (canHold s)); [by eexists _, _|].
    unfold bind, lift, ret.
    destruct (holdPiece s) as [h|].
    + destruct (collides_total (board s) (spawn_pose h) None None Hrows) as [blocked ->];
        [simpl; lia|]. destruct blocked; by eexists _, _.
    + destruct (spawnPiece_spec (nextQueue s) g)
        as (spawn & q & g' & -> & _ & np & rest & _ & _ & Hpiece & _).
      simpl. destruct (collides_total (board s) (spawn_piece spawn) None None Hrows)
        as [blocked ->]; [rewrite Hpiece; simpl; lia|].
      destruct blocked; by eexists _, _.
  - (* APPLY_CLEARING *)
    destruct (length (linesToClear s) =? 0)%nat; [by eexists _, _|].
    assert (Hc : has_rows (clearFullLines (board s) (linesToClear s))).
    { unfold has_rows in *. pose proof (clearFullLines_length (board s) (linesToClear s)). lia. }
    destruct (Hspawn _ (nextQueue s) g (fun st next q blocked => st) Hc) as (s' & g' & Hrun).
    unfold bind, lift, ret in *.
    destruct (spawnPiece (nextQueue s) g) as [[[next q] g1]| |]; try done.
    destruct (collides _ (spawn_piece next) None None) as [[|]| |]; try done;
      by eexists _, _.
Qed.

(** ** Behaviour outside the well-formed inputs *)

(** A board without its rows makes [collides] throw as soon as a set cell
    lands on a missing row. *)
Example collides_missing_row :
  collides [] (spawn_pose T_) None None = TypeError.
Proof. reflexivity. Qed.

(** A negative rotation index that is not a multiple of the number of
    rotation states selects no matrix. *)
Example collides_negative_rotation :
  collides EMPTY_BOARD (mkPiece T_ (-1) (mkPos 3 0)) None None = TypeError.
Proof. reflexivity. Qed.

(** Past the table [SCORES[n]] is [undefined] and the score becomes [NaN]. *)
Lemma clearing_lock_past_table s merged lines_ bonus :
  (4 < length lines_)%nat -> score (clearing_lock s merged lines_ bonus) = NaN.
Proof.
  intros Hn. rewrite score_of_clearing_lock.
  assert (Hat : score_at (length lines_) = NaN).
  { unfold score_at. rewrite lookup_ge_None_2; [done|]. simpl. lia. }
  rewrite Hat. simpl. by destruct (score s).
Qed.

(** Rows listed bottom to top are not the rows removed: after the first
    round the rows above have moved down by one. *)
Example clearFullLines_bottom_up :
  clearFullLines [FULL_ROW; TOWER_ROW; GAP_ROW] [2; 1] = [EMPTY_ROW; EMPTY_ROW; TOWER_ROW].
Proof. reflexivity. Qed.

(** * Further properties of the engine *)

(** ** Randomizer *)

(** X1. [randomBag] returns each of the seven kinds exactly once and calls
    [Math.random] exactly six times. *)
Theorem randomBag_fair (g : Rng) :
  exists bag g',
    randomBag g = Ok (bag, g') /\
    bag ≡ₚ ALL_KINDS /\ NoDup bag /\ length bag = 7%nat /\
    (forall k : TetrominoKey, k ∈ bag) /\
    draws g' = draws g /\ cursor g' = (cursor g + 6)%nat.
Proof.
  destruct (randomBag_Permutation g) as (bag & g' & Hrun & Hperm).
  exists bag, g'. split; [exact Hrun|]. split; [exact Hperm|].
  assert (Hnd : NoDup ALL_KINDS).
  { apply (bool_decide_unpack (NoDup ALL_KINDS)). vm_compute. exact I. }
  split; [by rewrite Hperm|]. split; [by rewrite (Permutation_length Hperm)|]. split.
  - intros k. rewrite Hperm.
    apply (bool_decide_unpack (k ∈ ALL_KINDS)). by destruct k.
  - apply (shuffle_from_draws _ _ _ _ _ Hrun).
Qed.

(** ** Levels and delays *)

(** X2. For a lines counter that is not negative the level lies between 1
    and 20, does not decrease when lines are added and is 20 from 190 lines
    on; the drop delay of a level of at least 1 lies between
    [MIN_DROP_DELAY] and [INITIAL_DROP_DELAY], does not increase with the
    level and is [MIN_DROP_DELAY] from level 15 on. *)
Theorem level_and_delay_bounds (lines_ more level_ higher : Z) :
  0 <= lines_ -> 0 <= more -> 1 <= level_ -> level_ <= higher ->
  1 <= calculateLevel lines_ <= 20 /\
  calculateLevel lines_ <= calculateLevel (lines_ + more) /\
  (190 <= lines_ <-> calculateLevel lines_ = 20) /\
  MIN_DROP_DELAY <= calculateDelay level_ <= INITIAL_DROP_DELAY /\
  calculateDelay higher <= calculateDelay level_ /\
  (15 <= level_ <-> calculateDelay level_ = MIN_DROP_DELAY).
Proof.
  intros Hl Hm Hlv Hh.
  unfold calculateLevel, calculateDelay, MIN_DROP_DELAY, INITIAL_DROP_DELAY.
  assert (Hq : 0 <= lines_ / 10) by (apply Z.div_pos; lia).
  assert (Hmono : lines_ / 10 <= (lines_ + more) / 10) by (apply Z.div_le_mono; lia).
  assert (Hdiv : 190 <= lines_ <-> 19 <= lines_ / 10).
  { split; intros H.
    - change 19 with (190 / 10). apply Z.div_le_mono; lia.
    - pose proof (Z.mul_div_le lines_ 10 ltac:(lia)). lia. }
  repeat split; try lia.
Qed.

Lemma level_and_delay_bounds_witness :
  1 <= calculateLevel 42 <= 20 /\ calculateLevel 42 <= calculateLevel (42 + 8) /\
  MIN_DROP_DELAY <= calculateDelay 5 <= INITIAL_DROP_DELAY /\
  calculateDelay 9 <= calculateDelay 5.
Proof.
  destruct (level_and_delay_bounds 42 8 5 9) as (H1 & H2 & _ & H3 & H4 & _);
    [lia | lia | lia | lia |].
  repeat split; tauto.
Defined.

(** ** Full rows *)

Lemma full_lines_from_elem (board : Board) l : forall y,
  l ∈ full_lines_from y board <->
  exists (i : nat) row, board !! i = Some row /\ forallb truthy row = true /\ l = y + Z.of_nat i.
Proof.
  induction board as [|row board IH]; intros y; cbn [full_lines_from].
  - split; [by intros ?%elem_of_nil|]. by intros (i & r & ? & _).
  - rewrite elem_of_app, IH. split.
    + intros [Hhead|(i & r & Hi & Hfull & ->)].
      * destruct (forallb truthy row) eqn:Hfull; [|by apply elem_of_nil in Hhead].
        apply list_elem_of_singleton in Hhead as ->. exists 0%nat, row. repeat split; [done|lia].
      * exists (S i), r. repeat split; [done..|lia].
    + intros ([|i] & r & Hi & Hfull & ->); simpl in Hi.
      * inversion Hi; subst r. left. rewrite Hfull. apply list_elem_of_singleton. lia.
      * right. exists i, r. repeat split; [done..|lia].
Qed.

(** X3. [findFullLines] lists, top to bottom and without repetition, exactly
    the indices of the rows in which every cell is occupied; a row without
    cells counts as full. *)
Theorem findFullLines_spec (board : Board) :
  StronglySorted Z.lt (findFullLines board) /\
  forall l : Z,
    l ∈ findFullLines board <->
    exists row, at_index board l = Some row /\ Forall (fun cell => cell <> None) row.
Proof.
  split; [apply findFullLines_sorted|].
  intros l. unfold findFullLines. rewrite full_lines_from_elem.
  assert (Hfull : forall row : Row,
             forallb truthy row = true <-> Forall (fun cell => cell <> None) row).
  { intros row. rewrite forallb_forall, Forall_forall. split; intros H c Hc.
    - apply list_elem_of_In in Hc. specialize (H c Hc). by destruct c.
    - apply list_elem_of_In in Hc. specialize (H c Hc). by destruct c. }
  split.
  - intros (i & row & Hi & Hf & ->). exists row. split; [|by apply Hfull].
    apply at_index_Some. split; [lia|]. by rewrite Z.add_0_l, Nat2Z.id.
  - intros (row & Hrow & Hf). apply at_index_Some in Hrow as [Hl Hrow].
    exists (Z.to_nat l), row. repeat split; [done|by apply Hfull|lia].
Qed.

(** ** Invariants of the reducer *)

Lemma startingState_fields g fresh g' :
  startingState g = Ok (fresh, g') ->
  board fresh = EMPTY_BOARD /\ holdPiece fresh = None /\ canHold fresh = true /\
  status fresh = Idle /\ score fresh = Num 0 /\ level fresh = 1 /\ lines fresh = 0 /\
  combo fresh = -1 /\ stats fresh = mkStats 0 0 0 0 0 0 /\ linesToClear fresh = [] /\
  dropDelay fresh = INITIAL_DROP_DELAY /\ rotation (current fresh) = 0 /\
  position (current fresh) = mkPos 3 0.
Proof.
  unfold startingState, bind, ret. intros Hrun.
  destruct (randomBag g) as [[bag g1]| |]; [|done..].
  destruct (randomBag g1) as [[bag' g2]| |]; [|done..].
  inversion Hrun; subst. by repeat split.
Qed.

(** Case analysis on a run of the reducer that returned. *)
Ltac reducer_cases Hrun :=
  unfold reducer, bind, lift, ret in Hrun;
  repeat case_match; simplify_eq.

Lemma length_eqb_nil {A} (l : list A) : (length l =? 0)%nat = true -> l = [].
Proof. by destruct l. Qed.

Lemma length_eqb_cons {A} (l : list A) : (length l =? 0)%nat = false -> l <> [].
Proof. by destruct l. Qed.

(** A pose that the kick resolver returns does not collide. *)
Lemma try_kicks_free board piece nextRotation kicks k :
  try_kicks board piece nextRotation kicks = Ok (Some k) ->
  collides board piece (Some (kicked_position k)) (Some (kicked_rotation k)) = Ok false.
Proof.
  induction kicks as [|k0 kicks IH]; simpl; [done|].
  destruct (collides board piece _ (Some nextRotation)) as [[|]| |] eqn:Hhit; simpl; try done.
  intros Hk. inversion Hk; subst. exact Hhit.
Qed.

Lemma applyKickTests_free board piece d k :
  applyKickTests board piece d = Ok (Some k) ->
  collides board piece (Some (kicked_position k)) (Some (kicked_rotation k)) = Ok false.
Proof. apply try_kicks_free. Qed.

(** X4. The active piece stays on free cells inside the board.  If the piece
    of a state collides with nothing (the game not being over and no rows
    waiting to be collapsed), the same holds of the state any action
    returns, provided a status action does not revive a finished game and
    [RESET] is given a piece that fits the empty board. *)
Theorem piece_fits_invariant (s s' : GameState) (a : Action) (g g' : Rng) :
  piece_fits s ->
  keeps_fit s a ->
  reducer s a g = Ok (s', g') ->
  piece_fits s'.
Proof.
  intros Hfit Hkeep Hrun. unfold piece_fits in *.
  destruct a; simpl in Hkeep; reducer_cases Hrun; simpl;
    try (intros Hst Hl; by auto);
    try (intros; done);
    try (intros _ Hl; exfalso;
         match goal with H : negb (length _ =? 0)%nat = true |- _ =>
           apply negb_true_iff, length_eqb_cons in H; by apply H end).
  - intros _ _. match goal with H : negb ?b = true |- _ => destruct b; [done|] end.
    assumption.
  - intros _ _.
    match goal with H : applyKickTests _ _ _ = Ok (Some ?k) |- _ =>
      exact (applyKickTests_free _ _ _ _ H) end.
Qed.

Lemma piece_fits_invariant_witness :
  piece_fits (with_current (mkPiece J_ 0 (mkPos 4 0)) (with_status Playing idle_state)).
Proof.
  apply (piece_fits_invariant (with_status Playing idle_state) _ (MOVE 1 0) zero_rng zero_rng).
  - intros _ _. vm_compute. reflexivity.
  - exact I.
  - vm_compute. reflexivity.
Defined.

Lemma clearing_stats_le st combo_ n : stats_le st (clearing_stats st combo_ n).
Proof.
  unfold stats_le, clearing_stats.
  destruct (combo_ >? 0); destruct n as [|[|[|[|[|n]]]]]; simpl; repeat split; lia.
Qed.

Lemma stats_le_refl st : stats_le st st.
Proof. unfold stats_le. repeat split; lia. Qed.

(** X5. The counters never go down.  Any action other than [RESET] leaves
    the lines counter and each of the six run statistics at least as large
    as it found them. *)
Theorem counters_never_decrease (s s' : GameState) (a : Action) (g g' : Rng) :
  is_reset a = false ->
  reducer s a g = Ok (s', g') ->
  lines s <= lines s' /\ stats_le (stats s) (stats s').
Proof.
  intros Hreset Hrun.
  destruct a; try discriminate; reducer_cases Hrun; simpl;
    (split; [lia | first [apply stats_le_refl | apply clearing_stats_le]]).
Qed.

Lemma counters_never_decrease_witness :
  exists s', reducer (gap_state 10 0) TICK zero_rng = Ok (s', zero_rng) /\
             lines (gap_state 10 0) <= lines s' /\
             stats_le (stats (gap_state 10 0)) (stats s') /\
             singles (stats s') = 1 /\ lines s' = 11.
Proof.
  eexists. split; [vm_compute; reflexivity|].
  destruct (counters_never_decrease (gap_state 10 0) _ TICK zero_rng zero_rng eq_refl eq_refl)
    as [Hl Hs].
  split; [exact Hl|]. split; [exact Hs|]. split; reflexivity.
Defined.

(** X6. The level and the drop delay follow the lines counter.  If the level
    of a state is [calculateLevel] of its lines and its drop delay is
    [calculateDelay] of its level, the same holds after any action;
    [RESET] establishes it whatever state it starts from. *)
Theorem level_follows_lines (s s' : GameState) (a : Action) (g g' : Rng) :
  level_consistent s \/ is_reset a = true ->
  reducer s a g = Ok (s', g') ->
  level_consistent s'.
Proof.
  intros Hcons Hrun. unfold level_consistent in *.
  destruct a; simpl in Hcons;
    try (destruct Hcons as [Hcons|?]; [|discriminate]);
    reducer_cases Hrun; simpl; try done.
  match goal with H : startingState _ = _ |- _ =>
    apply startingState_fields in H
      as (_ & _ & _ & _ & _ & -> & -> & _ & _ & _ & -> & _) end.
  by split.
Qed.

Lemma level_follows_lines_witness :
  exists s', reducer (gap_state 9 0) TICK zero_rng = Ok (s', zero_rng) /\
             level_consistent s' /\ lines s' = 10 /\ level s' = 2 /\ dropDelay s' = 930.
Proof.
  eexists. split; [vm_compute; reflexivity|]. split.
  - apply (level_follows_lines (gap_state 9 0) _ TICK zero_rng zero_rng); [|reflexivity].
    left. split; reflexivity.
  - repeat split.
Defined.

Lemma drop_loop_ge fuel board piece : forall d0 d,
  drop_loop fuel board piece d0 = Ok d -> d0 <= d.
Proof.
  induction fuel as [|fuel IH]; intros d0 d Hrun; simpl in Hrun; [done|].
  destruct (collides board piece _ None) as [[|]| |]; simpl in Hrun; try done.
  - inversion Hrun. lia.
  - apply IH in Hrun. lia.
Qed.

Lemma score_at_cases n :
  ((n <= 4)%nat /\ exists base, score_at n = Num base /\ 0 <= base) \/
  ((4 < n)%nat /\ score_at n = NaN).
Proof.
  destruct n as [|[|[|[|[|n]]]]];
    [left; split; [lia|eexists; split; [reflexivity|lia]]..|right; split; [lia|done]].
Qed.

Lemma clearing_lock_score_le s merged lines_ bonus z :
  score s = Num z -> 0 <= lines s -> 0 <= bonus ->
  (exists z', score (clearing_lock s merged lines_ bonus) = Num z' /\ z <= z') \/
  (score (clearing_lock s merged lines_ bonus) = NaN /\ (4 < length lines_)%nat).
Proof.
  intros Hz Hl Hb. rewrite score_of_clearing_lock, Hz.
  destruct (score_at_cases (length lines_)) as [(_ & base & -> & Hbase)|[Hn ->]].
  - left. simpl. eexists. split; [reflexivity|].
    assert (Hc : 0 <= combo_bonus (combo s + 1)) by (unfold combo_bonus; case_match; lia).
    assert (Hlv : 1 <= calculateLevel (lines s + Z.of_nat (length lines_))).
    { unfold calculateLevel.
      assert (0 <= (lines s + Z.of_nat (length lines_)) / 10) by (apply Z.div_pos; lia). lia. }
    nia.
  - right. by split.
Qed.

(** X7. The score never goes down.  From a state with a numeric score and a
    lines counter that is not negative, an action other than [RESET]
    returns a score at least as large, or [NaN]; it is [NaN] only after a
    lock that completed more than four rows at once, past the end of
    [SCORES]. *)
Theorem score_never_decreases (s s' : GameState) (a : Action) (g g' : Rng) (z : Z) :
  score s = Num z ->
  0 <= lines s ->
  is_reset a = false ->
  reducer s a g = Ok (s', g') ->
  (exists z', score s' = Num z' /\ z <= z') \/
  (score s' = NaN /\ (4 < length (linesToClear s'))%nat).
Proof.
  intros Hz Hl Hreset Hrun.
  destruct a; try discriminate; reducer_cases Hrun;
    try (left; exists z; split; [assumption|lia]);
    try (apply clearing_lock_score_le; [assumption|assumption|lia]).
  all: match goal with H : drop_loop _ _ _ 0 = Ok ?d |- _ => apply drop_loop_ge in H end.
  - by apply clearing_lock_score_le; [| |lia].
  - left. simpl. rewrite Hz. simpl. eexists. split; [reflexivity|lia].
  - left. simpl. rewrite Hz. simpl. eexists. split; [reflexivity|lia].
Qed.

Lemma score_never_decreases_witness :
  exists s' z', reducer drop_state HARD_DROP zero_rng = Ok (s', zero_rng) /\
                score s' = Num z' /\ 0 <= z' /\ z' = 340.
Proof.
  eexists. eexists. split; [vm_compute; reflexivity|].
  destruct (score_never_decreases drop_state _ HARD_DROP zero_rng zero_rng 0
              eq_refl ltac:(simpl; lia) eq_refl eq_refl) as [(z' & Hz' & Hle)|[Hnan _]].
  - simpl in Hz'. inversion Hz'; subst z'. repeat split; [exact Hle].
  - discriminate Hnan.
Defined.

(** ** Merging a piece *)

Lemma cell_at_in_range (board : Board) x y :
  board_shape board -> 0 <= x < BOARD_WIDTH -> 0 <= y < BOARD_HEIGHT ->
  exists row, at_index board y = Some row /\ length row = Z.to_nat BOARD_WIDTH /\
              cell_at board x y = row !! Z.to_nat x.
Proof.
  intros [Hlen Hwidth] Hx Hy.
  destruct (at_index_in_range board y) as [row Hrow]; [rewrite Hlen; lia|].
  exists row. split; [exact Hrow|]. split.
  - apply at_index_Some in Hrow as [_ Hrow]. rewrite Forall_forall in Hwidth.
    apply Hwidth. by eapply list_elem_of_lookup_2.
  - unfold cell_at. rewrite Hrow. unfold at_index. destruct (Z.ltb_spec x 0); [lia|done].
Qed.

Lemma set_cell_spec (nb : Board) x y c :
  board_shape nb -> 0 <= x < BOARD_WIDTH -> 0 <= y < BOARD_HEIGHT ->
  exists nb', set_cell nb x y c = Ok nb' /\ board_shape nb' /\
    forall X Y, 0 <= X < BOARD_WIDTH -> 0 <= Y < BOARD_HEIGHT ->
      cell_at nb' X Y = if decide (X = x /\ Y = y) then Some (Some c) else cell_at nb X Y.
Proof.
  intros Hshape Hx Hy.
  destruct (cell_at_in_range nb x y Hshape Hx Hy) as (row & Hrow & Hlen & _).
  unfold set_cell. rewrite Hrow.
  assert (Hw : write_at row (Z.to_nat x) (Some c) = <[Z.to_nat x := Some c]> row).
  { unfold write_at. destruct (Nat.ltb_spec (Z.to_nat x) (length row)); [done|].
    rewrite Hlen in *. unfold BOARD_WIDTH in *. lia. }
  rewrite Hw. eexists. split; [reflexivity|].
  assert (Hshape' : board_shape (<[Z.to_nat y := <[Z.to_nat x := Some c]> row]> nb)).
  { destruct Hshape as [Hl Hall]. split; [by rewrite length_insert|].
    apply Forall_insert; [done|]. by rewrite length_insert. }
  split; [exact Hshape'|].
  intros X Y HX HY.
  destruct (cell_at_in_range _ X Y Hshape' HX HY) as (row' & Hrow' & _ & ->).
  destruct (cell_at_in_range nb X Y Hshape HX HY) as (row0 & Hrow0 & _ & ->).
  apply at_index_Some in Hrow' as [_ Hrow'].
  apply at_index_Some in Hrow0 as [_ Hrow0].
  apply at_index_Some in Hrow as [_ Hrow].
  destruct (decide (Y = y)) as [->|HneY].
  - rewrite list_lookup_insert_eq in Hrow' by (by eapply lookup_lt_Some).
    inversion Hrow'; subst row'. rewrite Hrow in Hrow0. inversion Hrow0; subst row0.
    destruct (decide (X = x)) as [->|HneX].
    + rewrite decide_True by done. apply list_lookup_insert_eq. rewrite Hlen.
      unfold BOARD_WIDTH in *. lia.
    + rewrite decide_False by tauto. apply list_lookup_insert_ne. lia.
  - rewrite decide_False by tauto.
    rewrite list_lookup_insert_ne in Hrow' by lia. congruence.
Qed.

Section Merge.
Variable piece : ActivePiece.

Let written : option Cell := Some (mkCell (type piece) true None).

(** The inner loop of [mergePiece] writes the set cells of the matrix row
    that land on the board and leaves every other cell. *)
Lemma merge_cells_spec y cells : forall x0 nb,
  board_shape nb ->
  exists nb', merge_cells piece y x0 cells nb = Ok nb' /\ board_shape nb' /\
    forall X Y, 0 <= X < BOARD_WIDTH -> 0 <= Y < BOARD_HEIGHT ->
      let hit := exists (i : nat) v, cells !! i = Some v /\ v <> 0 /\
                   X = px (position piece) + (x0 + Z.of_nat i) /\
                   Y = py (position piece) + y in
      (hit /\ cell_at nb' X Y = Some written) \/
      (~ hit /\ cell_at nb' X Y = cell_at nb X Y).
Proof.
  induction cells as [|v cells IH]; intros x0 nb Hshape; simpl.
  - exists nb. split; [done|]. split; [done|]. intros X Y _ _. right.
    split; [|done]. by intros (i & w & ? & _).
  - set (bx := px (position piece) + x0). set (by_ := py (position piece) + y).
    assert (Hstep : forall nb1,
      board_shape nb1 ->
      (forall X Y, 0 <= X < BOARD_WIDTH -> 0 <= Y < BOARD_HEIGHT ->
         (v <> 0 /\ X = bx /\ Y = by_ /\ cell_at nb1 X Y = Some written) \/
         (~ (v <> 0 /\ X = bx /\ Y = by_) /\ cell_at nb1 X Y = cell_at nb X Y)) ->
      exists nb', merge_cells piece y (x0 + 1) cells nb1 = Ok nb' /\ board_shape nb' /\
        forall X Y, 0 <= X < BOARD_WIDTH -> 0 <= Y < BOARD_HEIGHT ->
          let hit := exists (i : nat) w, (v :: cells) !! i = Some w /\ w <> 0 /\
                       X = px (position piece) + (x0 + Z.of_nat i) /\ Y = by_ in
          (hit /\ cell_at nb' X Y = Some written) \/
          (~ hit /\ cell_at nb' X Y = cell_at nb X Y)).
    { intros nb1 Hshape1 Hfirst.
      destruct (IH (x0 + 1) nb1 Hshape1) as (nb' & Hrun & Hshape' & Hrest).
      exists nb'. split; [exact Hrun|]. split; [exact Hshape'|].
      intros X Y HX HY. simpl.
      destruct (Hrest X Y HX HY) as [[(i & w & Hi & Hw & HXi & HYi) Hcell]|[Hno Hcell]].
      - left. split; [|exact Hcell]. exists (S i), w. repeat split; try done. lia.
      - destruct (Hfirst X Y HX HY) as [(Hv & HXb & HYb & Hc1)|[Hnot Hc1]].
        + left. split; [|congruence]. exists 0%nat, v. repeat split; try done.
          subst bx. lia.
        + right. split; [|congruence].
          intros ([|i] & w & Hi & Hw & HXi & HYi); simpl in Hi.
          * inversion Hi; subst w. apply Hnot. repeat split; try done. subst bx. lia.
          * apply Hno. exists i, w. repeat split; try done. lia. }
    destruct (Z.eqb_spec v 0) as [Hv|Hv].
    { apply Hstep; [done|]. intros X Y _ _. right. split; [tauto|done]. }
    fold bx by_.
    destruct (Z.geb_spec by_ 0) as [Hy0|Hy0]; simpl;
      [|apply Hstep; [done|]; intros X Y HX HY; right; split; [lia|done]].
    destruct (Z.ltb_spec by_ BOARD_HEIGHT) as [Hy1|Hy1]; simpl;
      [|apply Hstep; [done|]; intros X Y HX HY; right; split; [lia|done]].
    destruct (Z.geb_spec bx 0) as [Hx0|Hx0]; simpl;
      [|apply Hstep; [done|]; intros X Y HX HY; right; split; [lia|done]].
    destruct (Z.ltb_spec bx BOARD_WIDTH) as [Hx1|Hx1]; simpl;
      [|apply Hstep; [done|]; intros X Y HX HY; right; split; [lia|done]].
    destruct (set_cell_spec nb bx by_ (mkCell (type piece) true None) Hshape)
      as (nb1 & -> & Hshape1 & Hcell1); [lia|lia|].
    simpl. apply Hstep; [done|]. intros X Y HX HY. rewrite (Hcell1 X Y HX HY).
    destruct (decide (X = bx /\ Y = by_)) as [[-> ->]|Hne].
    + left. by repeat split.
    + right. split; [tauto|done].
Qed.

(** The outer loop, over the rows of the matrix. *)
Lemma merge_rows_spec rows : forall y0 nb,
  board_shape nb ->
  exists nb', merge_rows piece y0 rows nb = Ok nb' /\ board_shape nb' /\
    forall X Y, 0 <= X < BOARD_WIDTH -> 0 <= Y < BOARD_HEIGHT ->
      let hit := exists (i j : nat) row v, rows !! j = Some row /\ row !! i = Some v /\ v <> 0 /\
                   X = px (position piece) + Z.of_nat i /\
                   Y = py (position piece) + (y0 + Z.of_nat j) in
      (hit /\ cell_at nb' X Y = Some written) \/
      (~ hit /\ cell_at nb' X Y = cell_at nb X Y).
Proof.
  induction rows as [|row rows IH]; intros y0 nb Hshape; simpl.
  - exists nb. split; [done|]. split; [done|]. intros X Y _ _. right.
    split; [|done]. by intros (i & j & r & w & ? & _).
  - destruct (merge_cells_spec y0 row 0 nb Hshape) as (nb1 & -> & Hshape1 & Hrow).
    simpl. destruct (IH (y0 + 1) nb1 Hshape1) as (nb' & Hrun & Hshape' & Hrest).
    exists nb'. split; [exact Hrun|]. split; [exact Hshape'|].
    intros X Y HX HY.
    destruct (Hrest X Y HX HY)
      as [[(i & j & r & w & Hj & Hi & Hw & HXi & HYj) Hcell]|[Hno Hcell]].
    + left. split; [|exact Hcell]. exists i, (S j), r, w. repeat split; try done. lia.
    + destruct (Hrow X Y HX HY) as [[(i & w & Hi & Hw & HXi & HYi) Hc1]|[Hnot Hc1]].
      * left. split; [|congruence]. exists i, 0%nat, row, w. repeat split; try done; lia.
      * right. split; [|congruence].
        intros (i & [|j] & r & w & Hj & Hi & Hw & HXi & HYj); simpl in Hj.
        -- inversion Hj; subst r. apply Hnot. exists i, w. repeat split; try done; lia.
        -- apply Hno. exists i, j, r, w. repeat split; try done. lia.
Qed.
End Merge.

Lemma mergePiece_shape_spec (board : Board) (piece : ActivePiece) :
  board_shape board -> 0 <= rotation piece ->
  exists matrix merged,
    getPieceMatrix (type piece) (rotation piece) = Some matrix /\
    mergePiece board piece = Ok merged /\
    board_shape merged /\
    forall x y, 0 <= x < BOARD_WIDTH -> 0 <= y < BOARD_HEIGHT ->
      (lands piece matrix x y /\
       cell_at merged x y = Some (Some (mkCell (type piece) true None))) \/
      (~ lands piece matrix x y /\ cell_at merged x y = cell_at board x y).
Proof.
  intros Hshape Hrot.
  destruct (getPieceMatrix_nonneg (type piece) _ Hrot) as (m & Hm & _).
  destruct (merge_rows_spec piece m 0 board Hshape) as (merged & Hrun & Hshape' & Hcells).
  exists m, merged. split; [exact Hm|]. split.
  { unfold mergePiece. by rewrite cloneBoard_id, Hm. }
  split; [exact Hshape'|]. intros x y Hx Hy.
  destruct (Hcells x y Hx Hy) as [[(i & j & row & v & Hj & Hi & Hv & HX & HY) Hc]|[Hno Hc]].
  - left. split; [|exact Hc]. exists i, j. split; [by exists row, v|]. split; lia.
  - right. split; [|exact Hc]. intros (i & j & (row & v & Hj & Hi & Hv) & HX & HY).
    apply Hno. exists i, j, row, v. repeat split; try done; lia.
Qed.

(** X8. [mergePiece] on a full grid returns a full grid in which a cell is
    the locked cell of the piece's kind exactly where a set cell of the
    piece's matrix lands, and is the cell of the input board everywhere
    else; set cells that land outside the grid are dropped. *)
Theorem mergePiece_cells (board : Board) (piece : ActivePiece) :
  board_shape board -> 0 <= rotation piece ->
  exists matrix merged,
    getPieceMatrix (type piece) (rotation piece) = Some matrix /\
    mergePiece board piece = Ok merged /\
    board_shape merged /\
    forall x y, 0 <= x < BOARD_WIDTH -> 0 <= y < BOARD_HEIGHT ->
      (lands piece matrix x y /\
       cell_at merged x y = Some (Some (mkCell (type piece) true None))) \/
      (~ lands piece matrix x y /\ cell_at merged x y = cell_at board x y).
Proof. apply mergePiece_shape_spec. Qed.

Lemma tower_board_shape : board_shape tower_board.
Proof. split; [reflexivity|]. repeat constructor. Qed.

Lemma mergePiece_cells_witness :
  exists merged,
    mergePiece tower_board (spawn_pose O_) = Ok merged /\ board_shape merged /\
    cell_at merged 4 0 = Some (locked_cell O_) /\
    cell_at merged 4 2 = Some (locked_cell J_) /\
    cell_at merged 3 0 = Some None.
Proof.
  destruct (mergePiece_cells tower_board (spawn_pose O_) tower_board_shape)
    as (matrix & merged & Hm & Hrun & Hshape & Hcells); [simpl; lia|].
  exists merged. split; [exact Hrun|]. split; [exact Hshape|].
  vm_compute in Hrun. inversion Hrun; subst merged. repeat split.
Defined.

(** ** Well-formed states *)

Lemma mergePiece_shape board piece merged :
  board_shape board -> 0 <= rotation piece ->
  mergePiece board piece = Ok merged -> board_shape merged.
Proof.
  intros Hshape Hrot Hrun.
  destruct (mergePiece_shape_spec board piece Hshape Hrot) as (m & merged' & _ & Hrun' & Hs & _).
  congruence.
Qed.

Lemma mark_lines_shape merged lines_ :
  board_shape merged -> board_shape (mark_lines merged lines_).
Proof.
  unfold mark_lines. rewrite cloneBoard_id. revert merged.
  induction lines_ as [|l ls IH]; intros merged Hshape; simpl; [done|].
  apply IH. destruct (l <? 0); [done|].
  destruct Hshape as [Hlen Hall]. split; [by rewrite length_alter|].
  apply Forall_alter; [done|]. intros row _ Hrow. unfold mark_row. by rewrite length_map.
Qed.

Lemma clearFullLines_shape board lines_ :
  board_shape board ->
  Forall (fun l => 0 <= l < BOARD_HEIGHT) lines_ ->
  board_shape (clearFullLines board lines_).
Proof.
  intros [Hlen Hall] Hrange.
  assert (Hrange' : Forall (fun l => 0 <= l < Z.of_nat (length board)) lines_).
  { eapply Forall_impl; [exact Hrange|]. simpl. intros l Hl. rewrite Hlen.
    unfold BOARD_HEIGHT in *. lia. }
  unfold clearFullLines. destruct lines_ as [|l ls] eqn:Hl; [by split|].
  rewrite <- Hl in *. clear Hl. rewrite cloneBoard_id.
  change (fun nextBoard line => EMPTY_ROW :: splice1 nextBoard line) with collapse_step.
  split; [by rewrite collapse_fold_length|].
  clear Hrange Hlen Hrange'. revert board Hall.
  induction lines_ as [|l' ls' IH]; intros board Hall; simpl; [done|].
  apply IH. unfold collapse_step, splice1. constructor; [reflexivity|].
  rewrite delete_take_drop. apply Forall_app. split.
  - by apply Forall_take.
  - by apply Forall_drop.
Qed.

Lemma try_kicks_rotation board piece nextRotation kicks k :
  try_kicks board piece nextRotation kicks = Ok (Some k) -> kicked_rotation k = nextRotation.
Proof.
  induction kicks as [|k0 kicks IH]; simpl; [done|].
  destruct (collides board piece _ (Some nextRotation)) as [[|]| |]; simpl; try done.
  intros Hk. by inversion Hk.
Qed.

Lemma findFullLines_range merged :
  board_shape merged -> Forall (fun l => 0 <= l < BOARD_HEIGHT) (findFullLines merged).
Proof.
  intros [Hlen _]. destruct (findFullLines_sorted merged) as [_ Hrange].
  eapply Forall_impl; [exact Hrange|]. simpl. intros l Hl. rewrite Hlen in Hl.
  unfold BOARD_HEIGHT in *. lia.
Qed.

Lemma spawnPiece_rotation queue g spawned g' :
  spawnPiece queue g = Ok (spawned, g') -> rotation (spawn_piece spawned.1) = 0.
Proof.
  intros Hrun.
  destruct (spawnPiece_spec queue g)
    as (spawn & q & g1 & Hrun' & _ & np & rest & _ & _ & Hpiece & _).
  rewrite Hrun in Hrun'. inversion Hrun'; subst. simpl. by rewrite Hpiece.
Qed.

Lemma reducer_well_formed (s s' : GameState) (a : Action) (g g' : Rng) :
  well_formed s -> action_ok a ->
  reducer s a g = Ok (s', g') -> well_formed s'.
Proof.
  intros (Hshape & Hrot & Hlines) Hok Hrun. unfold well_formed.
  assert (Hrot0 : 0 <= rotation (current s)) by lia.
  destruct a; simpl in Hok; reducer_cases Hrun; simpl;
    repeat match goal with
    | H : mergePiece _ _ = Ok _ |- _ =>
        apply mergePiece_shape in H; [|assumption|simpl; lia]
    | H : startingState _ = _ |- _ =>
        apply startingState_fields in H
          as (_ & _ & _ & _ & _ & _ & _ & _ & _ & -> & _)
    | H : spawnPiece _ _ = Ok _ |- _ =>
        apply spawnPiece_rotation in H; simpl in H; rewrite ?H
    | H : applyKickTests _ _ _ = Ok (Some ?k) |- _ =>
        apply try_kicks_rotation in H; rewrite H;
        destruct (rotation_key (rotation (current s)) direction Hrot0) as (-> & ? & _)
    end;
    split_and!;
    first [ assumption | lia | done
          | apply EMPTY_BOARD_shape
          | by apply mark_lines_shape
          | by apply clearFullLines_shape
          | by apply findFullLines_range
          | by apply Forall_nil ].
Qed.

Lemma startingState_well_formed g :
  exists s0 g0, startingState g = Ok (s0, g0) /\ well_formed s0.
Proof.
  destruct (reducer_total idle_state (RESET (spawn_pose I_) []) g)
    as (s' & g' & Hrun); [apply EMPTY_BOARD_has_rows|simpl; lia|].
  unfold reducer, bind in Hrun.
  destruct (startingState g) as [[s0 g0]| |] eqn:Hstart; [|done..].
  exists s0, g0. split; [done|].
  apply startingState_fields in Hstart
    as (Hb & _ & _ & _ & _ & _ & _ & _ & _ & Hl & _ & Hr & _).
  unfold well_formed. rewrite Hb, Hl, Hr. split_and!; [apply EMPTY_BOARD_shape|lia|lia|done].
Qed.

(** X9. The engine never throws.  From a well-formed state (a full grid, a
    rotation index from 0 to 3, pending rows that are rows of the grid) any
    sequence of actions, [RESET] being given a piece with such a rotation
    index, returns a state, and that state is well-formed again; the state
    [startingState] makes is well-formed. *)
Theorem run_never_throws (actions : list Action) (s : GameState) (g : Rng) :
  well_formed s ->
  Forall action_ok actions ->
  (exists s' g', run actions s g = Ok (s', g') /\ well_formed s') /\
  (exists s0 g0, startingState g = Ok (s0, g0) /\ well_formed s0).
Proof.
  intros Hwf Hok. split; [|apply startingState_well_formed].
  revert s g Hwf. induction Hok as [|a actions Ha Hok IH]; intros s g Hwf; simpl.
  - by exists s, g.
  - destruct (reducer_total s a g) as (s1 & g1 & Hrun).
    { apply board_shape_has_rows, Hwf. }
    { destruct Hwf as (_ & ? & _). lia. }
    unfold bind. rewrite Hrun.
    apply IH. by eapply reducer_well_formed.
Qed.

Lemma idle_state_well_formed : well_formed idle_state.
Proof.
  unfold well_formed. split_and!; [apply EMPTY_BOARD_shape|simpl; lia|simpl; lia|constructor].
Qed.

Lemma run_never_throws_witness :
  exists s' g',
    run [PAUSE_TOGGLE; RESUME; MOVE (-1) 0; ROTATE Clockwise; HOLD; TICK; HARD_DROP;
         APPLY_CLEARING; RESET (spawn_pose T_) [I_; O_]; HARD_DROP]
        idle_state zero_rng = Ok (s', g') /\
    well_formed s'.
Proof.
  destruct (run_never_throws
              [PAUSE_TOGGLE; RESUME; MOVE (-1) 0; ROTATE Clockwise; HOLD; TICK; HARD_DROP;
               APPLY_CLEARING; RESET (spawn_pose T_) [I_; O_]; HARD_DROP]
              idle_state zero_rng idle_state_well_formed) as [Hrun _].
  - repeat constructor; simpl; lia.
  - exact Hrun.
Defined.

(** ** Dropping *)

(** Where the drop loop stops: the first distance at which one row further
    down collides. *)
Lemma drop_loop_spec fuel board piece : forall d0 d,
  drop_loop fuel board piece d0 = Ok d ->
  d0 <= d /\
  collides board piece
    (Some (mkPos (px (position piece)) (py (position piece) + d + 1))) None = Ok true /\
  forall k, d0 <= k < d ->
    collides board piece
      (Some (mkPos (px (position piece)) (py (position piece) + k + 1))) None = Ok false.
Proof.
  induction fuel as [|fuel IH]; intros d0 d Hrun; simpl in Hrun; [done|].
  destruct (collides board piece _ None) as [[|]| |] eqn:Hhit; simpl in Hrun; try done.
  - inversion Hrun; subst d. split; [lia|]. split; [exact Hhit|]. intros k Hk. lia.
  - apply IH in Hrun as (Hle & Hstop & Hfree). split; [lia|]. split; [exact Hstop|].
    intros k Hk. destruct (decide (k = d0)) as [->|Hne]; [exact Hhit|]. apply Hfree. lia.
Qed.

(** X10. The ghost row.  On a board with its rows [computeGhostPosition]
    returns a row at or below the piece's row; one row further down the
    piece collides, and at every row from the piece's own down to the ghost
    row it does not, so a piece that fits keeps fitting all the way.  The
    ghost row is the row at which [HARD_DROP] locks the piece. *)
Theorem ghost_position (grid : Board) (piece : ActivePiece) :
  has_rows grid -> 0 <= rotation piece ->
  let x := px (position piece) in
  let y := py (position piece) in
  exists ghostY,
    computeGhostPosition grid piece = Ok ghostY /\
    y <= ghostY /\
    collides grid piece (Some (mkPos x (ghostY + 1))) None = Ok true /\
    (forall y', y < y' <= ghostY ->
       collides grid piece (Some (mkPos x y')) None = Ok false) /\
    (forall s landed dropped,
       board s = grid -> current s = piece ->
       lock_of s HARD_DROP landed dropped ->
       position landed = mkPos x ghostY).
Proof.
  intros Hrows Hrot x y.
  destruct (drop_loop_total grid piece Hrows Hrot) as (d & Hrun & Hd).
  destruct (drop_loop_spec _ _ _ _ _ Hrun) as (_ & Hstop & Hfree).
  exists (y + d). unfold computeGhostPosition. rewrite Hrun. simpl.
  split; [done|]. split; [lia|]. split; [exact Hstop|]. split.
  - intros y' Hy'. specialize (Hfree (y' - y - 1) ltac:(lia)).
    replace (py (position piece) + (y' - y - 1) + 1) with y' in Hfree by (subst y; lia).
    exact Hfree.
  - intros s landed dropped Hb Hc Hlock.
    assert (Hdrop : drop_loop (drop_fuel (current s)) (board s) (current s) 0 = Ok dropped)
      by apply Hlock.
    assert (Hlanded : landed = with_position
              (mkPos (px (position (current s))) (py (position (current s)) + dropped))
              (current s)) by apply Hlock.
    rewrite Hb, Hc in Hdrop. rewrite Hc in Hlanded. rewrite Hrun in Hdrop.
    inversion Hdrop; subst dropped. by rewrite Hlanded.
Qed.

Lemma gap_board_has_rows : has_rows gap_board.
Proof. unfold has_rows. by vm_compute. Qed.

Lemma ghost_position_witness :
  computeGhostPosition gap_board (mkPiece I_ 0 (mkPos 3 0)) = Ok 20 /\
  collides gap_board (mkPiece I_ 0 (mkPos 3 0)) (Some (mkPos 3 21)) None = Ok true /\
  collides gap_board (mkPiece I_ 0 (mkPos 3 0)) (Some (mkPos 3 20)) None = Ok false.
Proof.
  destruct (ghost_position gap_board (mkPiece I_ 0 (mkPos 3 0)))
    as (ghostY & Hrun & _ & Hstop & Hfree & _).
  - exact gap_board_has_rows.
  - simpl. lia.
  - vm_compute in Hrun. inversion Hrun; subst ghostY.
    split; [reflexivity|]. split; [exact Hstop|]. apply Hfree.
    cbv. split; [reflexivity|discriminate].
Defined.

Lemma run_app actions1 actions2 s g :
  run (actions1 ++ actions2) s g = bind (run actions1 s) (run actions2) g.
Proof.
  revert s g. induction actions1 as [|a actions1 IH]; intros s g; simpl; [done|].
  unfold bind. destruct (reducer s a g) as [[s1 g1]| |]; [|done..]. apply IH.
Qed.

Lemma lowered_0 s : lowered s 0 = s.
Proof.
  destruct s as [b [t r [x y]] q h c st sc lv ln cb sts ltc dd]. unfold lowered. simpl.
  by rewrite Z.add_0_r.
Qed.

(** Gravity ticks take the piece to where the drop loop stops. *)
Lemma ticks_fall s g :
  status s = Playing ->
  forall fuel d0 d,
    drop_loop fuel (board s) (current s) d0 = Ok d ->
    run (replicate (Z.to_nat (d - d0)) TICK) (lowered s d0) g = Ok (lowered s d, g).
Proof.
  intros Hst. induction fuel as [|fuel IH]; intros d0 d Hrun; simpl in Hrun; [done|].
  destruct (collides (board s) (current s) _ None) as [[|]| |] eqn:Hhit;
    simpl in Hrun; try done.
  - inversion Hrun; subst d. by rewrite Z.sub_diag.
  - pose proof (drop_loop_ge _ _ _ _ _ Hrun) as Hge.
    replace (Z.to_nat (d - d0)) with (S (Z.to_nat (d - (d0 + 1)))) by lia.
    cbn [run replicate]. unfold bind at 1.
    assert (Hstep : reducer (lowered s d0) TICK g = Ok (lowered s (d0 + 1), g)).
    { unfold reducer, bind, lift, ret.
      change (status (lowered s d0)) with (status s). rewrite Hst.
      rewrite bool_decide_eq_true_2 by done. cbn [negb].
      change (collides (board (lowered s d0)) (current (lowered s d0))
                (Some (mkPos (px (position (current (lowered s d0))))
                             (py (position (current (lowered s d0))) + 1))) None)
        with (collides (board s) (current s)
                (Some (mkPos (px (position (current s)))
                             (py (position (current s)) + d0 + 1))) None).
      rewrite Hhit. cbn [negb]. unfold lowered, with_current, with_position. simpl.
      by rewrite Z.add_assoc. }
    rewrite Hstep. by apply IH.
Qed.

(** A lock that completes no row and whose next piece is free. *)
Lemma reducer_respawn_lock s a g g' landed dropped merged next queue_now :
  status s = Playing ->
  lock_of s a landed dropped ->
  mergePiece (board s) landed = Ok merged ->
  findFullLines merged = [] ->
  spawnPiece (nextQueue s) g = Ok ((next, queue_now), g') ->
  collides merged (spawn_piece next) None None = Ok false ->
  reducer s a g =
    Ok (with_canHold true
          (with_combo (-1)
             (with_score (num_add (score s) (Num (drop_bonus a dropped)))
                (with_nextQueue (spawn_queue next)
                   (with_current (spawn_piece next)
                      (with_board merged (with_nextQueue queue_now s)))))), g').
Proof.
  intros Hst Hlock Hmerge Hlines Hspawn Hfree.
  destruct a; try done; unfold lock_of in Hlock; unfold reducer, bind, lift, ret;
    rewrite Hst, bool_decide_eq_true_2 by done; cbn [negb]; cbv zeta beta.
  - destruct Hlock as (Hcol & -> & ->). rewrite Hcol. cbn [negb].
    rewrite Hmerge, Hlines. cbn [length Nat.eqb negb]. rewrite Hspawn, Hfree.
    cbn [drop_bonus]. rewrite num_add_0_r. by destruct s.
  - destruct Hlock as (Hdrop & ->). rewrite Hdrop, Hmerge, Hlines.
    cbn [length Nat.eqb negb]. rewrite Hspawn, Hfree. reflexivity.
Qed.

Lemma num_add_bonus a t b :
  num_add a (num_add t (Num b)) = num_add (num_add a (num_add t (Num 0))) (Num b).
Proof. destruct a, t; simpl; try done. f_equal. lia. Qed.

(** X11. A hard drop is the ticks it replaces, plus the bonus.  On a playing
    state, [HARD_DROP] and the sequence of [TICK]s that lets the piece fall
    its drop distance [d] and then locks it ([d + 1] ticks) return the same
    board, queue, hold slot, status, level, lines, combo counter,
    statistics, pending rows and delay, and draw the same entropy; the score
    of the hard drop is that of the ticks plus [2 * d]. *)
Theorem hard_drop_as_ticks (s : GameState) (g : Rng) :
  status s = Playing ->
  has_rows (board s) ->
  0 <= rotation (current s) ->
  exists d s1 s2 g',
    0 <= d /\
    drop_loop (drop_fuel (current s)) (board s) (current s) 0 = Ok d /\
    run (replicate (S (Z.to_nat d)) TICK) s g = Ok (s1, g') /\
    reducer s HARD_DROP g = Ok (s2, g') /\
    same_but_score_and_piece s1 s2 /\
    score s2 = num_add (score s1) (Num (2 * d)).
Proof.
  intros Hst Hrows Hrot.
  destruct (drop_loop_total (board s) (current s) Hrows Hrot) as (d & Hdrop & Hd).
  destruct (drop_loop_spec _ _ _ _ _ Hdrop) as (_ & Hstop & _).
  pose proof (ticks_fall s g Hst _ _ _ Hdrop) as Hfall.
  rewrite Z.sub_0_r, lowered_0 in Hfall.
  set (landed := with_position (mkPos (px (position (current s)))
                                      (py (position (current s)) + d)) (current s)).
  destruct (mergePiece_total (board s) landed Hrows Hrot) as (merged & Hmerge & Hlen).
  assert (Hlock1 : lock_of (lowered s d) TICK landed 0) by (by repeat split).
  assert (Hlock2 : lock_of s HARD_DROP landed d) by (by split).
  assert (Hticks : forall s1 g',
             reducer (lowered s d) TICK g = Ok (s1, g') ->
             run (replicate (S (Z.to_nat d)) TICK) s g = Ok (s1, g')).
  { intros s1 g' Hlast. rewrite replicate_S_end, run_app. unfold bind at 1. rewrite Hfall.
    cbn [run]. unfold bind at 1. by rewrite Hlast. }
  exists d.
  destruct (findFullLines merged) as [|l ls] eqn:Hlines.
  - destruct (spawnPiece_total (nextQueue s) g) as (next & queue_now & g' & Hspawn).
    assert (Hm : has_rows merged) by (unfold has_rows in *; by rewrite Hlen).
    destruct (collides_total merged (spawn_piece next) None None Hm) as [blocked Hblocked].
    { pose proof (spawnPiece_rotation _ _ _ _ Hspawn) as Hr0. simpl in *. lia. }
    destruct blocked.
    + eexists _, _, g'. split; [done|]. split; [done|]. split.
      { apply Hticks.
        by apply (reducer_blocked_lock (lowered s d) TICK g g' landed 0 merged next queue_now). }
      split.
      { by apply (reducer_blocked_lock s HARD_DROP g g' landed d merged next queue_now). }
      split; [repeat (split; [reflexivity|]); reflexivity|]. simpl. by rewrite num_add_0_r.
    + eexists _, _, g'. split; [done|]. split; [done|]. split.
      { apply Hticks.
        by apply (reducer_respawn_lock (lowered s d) TICK g g' landed 0 merged next queue_now). }
      split.
      { by apply (reducer_respawn_lock s HARD_DROP g g' landed d merged next queue_now). }
      split; [repeat (split; [reflexivity|]); reflexivity|]. simpl. by rewrite num_add_0_r.
  - eexists _, _, g. split; [done|]. split; [done|]. split.
    { apply Hticks.
      apply (reducer_clearing_lock (lowered s d) TICK g landed 0 merged); try done.
      by rewrite Hlines. }
    split.
    { apply (reducer_clearing_lock s HARD_DROP g landed d merged); try done.
      by rewrite Hlines. }
    rewrite Hlines. split.
    { unfold same_but_score_and_piece, clearing_lock, lowered.
      cbn -[calculateLevel calculateDelay clearing_stats score_at num_add num_mul Z.add Z.mul
            Z.of_nat length mark_lines]. by repeat split. }
    rewrite !score_of_clearing_lock. simpl. apply num_add_bonus.
Qed.

Lemma hard_drop_as_ticks_witness :
  exists s1 s2,
    run (replicate 21 TICK) drop_state zero_rng = Ok (s1, zero_rng) /\
    reducer drop_state HARD_DROP zero_rng = Ok (s2, zero_rng) /\
    same_but_score_and_piece s1 s2 /\
    score s1 = Num 300 /\ score s2 = Num 340.
Proof.
  destruct (hard_drop_as_ticks drop_state zero_rng)
    as (d & s1 & s2 & g' & Hd & Hdrop & Hticks & Hhard & Hsame & Hscore).
  - reflexivity.
  - exact gap_board_has_rows.
  - simpl. lia.
  - vm_compute in Hdrop. inversion Hdrop; subst d.
    change (S (Z.to_nat 20)) with 21%nat in Hticks.
    assert (Hg : g' = zero_rng).
    { vm_compute in Hhard. by inversion Hhard. }
    subst g'. exists s1, s2. split; [exact Hticks|]. split; [exact Hhard|].
    split; [exact Hsame|].
    vm_compute in Hticks. inversion Hticks; subst s1.
    vm_compute in Hhard. inversion Hhard; subst s2. split; reflexivity.
Defined.

(** ** Clearing and collapsing *)

Lemma clearFullLines_eq (board : Board) (lines_ : list Z) :
  StronglySorted Z.lt lines_ ->
  Forall (fun l => 0 <= l < Z.of_nat (length board)) lines_ ->
  clearFullLines board lines_ =
    replicate (length lines_) EMPTY_ROW ++ rows_kept_from 0 lines_ board.
Proof.
  intros Hsorted Hrange.
  destruct lines_ as [|l ls] eqn:Hl; [simpl; by rewrite rows_kept_none|].
  rewrite <- Hl in *. unfold clearFullLines. rewrite Hl, <- Hl. rewrite cloneBoard_id.
  change (fold_left _ lines_ board) with (fold_left collapse_step lines_ ([] ++ board)).
  by rewrite collapse_fold.
Qed.

Lemma alter_same_image {A B} (f : A -> B) (h : A -> A) (l : list A) i :
  (forall a, f (h a) = f a) -> f <$> alter h i l = f <$> l.
Proof.
  intros Hf. revert i. induction l as [|a l IH]; intros [|i]; csimpl; [done..| |].
  - by rewrite Hf.
  - by rewrite IH.
Qed.

Lemma mark_row_full row : forallb truthy (mark_row row) = forallb truthy row.
Proof.
  unfold mark_row. induction row as [|[c|] row IH]; simpl; [done| |done]. exact IH.
Qed.

(** Marking rows for clearing changes no row's being full. *)
Lemma mark_lines_full merged lines_ :
  forallb truthy <$> mark_lines merged lines_ = forallb truthy <$> merged.
Proof.
  unfold mark_lines. rewrite cloneBoard_id. revert merged.
  induction lines_ as [|l ls IH]; intros merged; simpl; [done|].
  rewrite IH. destruct (l <? 0); [done|]. apply alter_same_image, mark_row_full.
Qed.

Lemma full_lines_from_image (a b : Board) : forall y,
  forallb truthy <$> a = forallb truthy <$> b ->
  full_lines_from y a = full_lines_from y b.
Proof.
  revert b. induction a as [|row a IH]; intros [|row' b] y Heq; simpl in *; try done.
  inversion Heq as [[Hrow Hrest]]. rewrite Hrow. f_equal. by apply IH.
Qed.

Lemma full_lines_from_none (rows : Board) : forall y,
  Forall (fun row => forallb truthy row = false) rows -> full_lines_from y rows = [].
Proof.
  induction rows as [|row rows IH]; intros y Hall; simpl; [done|].
  inversion Hall as [|? ? Hrow Hrest]; subst. rewrite Hrow. simpl. by apply IH.
Qed.

Lemma rows_kept_not_full (board : Board) lines_ : forall y,
  (forall (i : nat) row, board !! i = Some row -> forallb truthy row = true ->
                         y + Z.of_nat i ∈ lines_) ->
  Forall (fun row => forallb truthy row = false) (rows_kept_from y lines_ board).
Proof.
  induction board as [|row board IH]; intros y Hfull; cbn [rows_kept_from]; [constructor|].
  apply Forall_app. split.
  - case_bool_decide as Hin; [constructor|]. constructor; [|constructor].
    destruct (forallb truthy row) eqn:Hrow; [|done]. exfalso. apply Hin.
    specialize (Hfull 0%nat row eq_refl Hrow). by rewrite Z.add_0_r in Hfull.
  - apply IH. intros i r Hi Hr. specialize (Hfull (S i) r Hi Hr).
    by replace (y + 1 + Z.of_nat i) with (y + Z.of_nat (S i)) by lia.
Qed.

Lemma clearFullLines_same_length (board : Board) (lines_ : list Z) :
  Forall (fun l => 0 <= l < Z.of_nat (length board)) lines_ ->
  length (clearFullLines board lines_) = length board.
Proof.
  intros Hrange. unfold clearFullLines. destruct lines_ as [|l ls] eqn:Hl; [done|].
  rewrite <- Hl in *. rewrite cloneBoard_id.
  change (fun nextBoard line => EMPTY_ROW :: splice1 nextBoard line) with collapse_step.
  by apply collapse_fold_length.
Qed.

(** Collapsing the full rows of a board, marked or not, leaves none. *)
Lemma collapse_leaves_no_full_row (merged : Board) :
  findFullLines
    (clearFullLines (mark_lines merged (findFullLines merged)) (findFullLines merged)) = [] /\
  length (clearFullLines (mark_lines merged (findFullLines merged)) (findFullLines merged))
    = length merged.
Proof.
  destruct (findFullLines_sorted merged) as [Hsorted Hrange].
  assert (Hlen : length (mark_lines merged (findFullLines merged)) = length merged).
  { rewrite <- (length_fmap (forallb truthy)), mark_lines_full. apply length_fmap. }
  assert (Hrange' : Forall (fun l => 0 <= l < Z.of_nat
                              (length (mark_lines merged (findFullLines merged))))
                           (findFullLines merged)) by (by rewrite Hlen).
  split; [|by rewrite clearFullLines_same_length].
  rewrite (clearFullLines_eq _ _ Hsorted Hrange').
  apply full_lines_from_none, Forall_app. split.
  - by apply Forall_replicate.
  - apply rows_kept_not_full. intros i row Hi Hrow. rewrite Z.add_0_l.
    unfold findFullLines.
    rewrite <- (full_lines_from_image _ _ 0 (mark_lines_full merged (full_lines_from 0 merged))).
    apply full_lines_from_elem. exists i, row. split; [done|]. split; [done|]. lia.
Qed.

(** The fields a clearing lock sets that the collapse reads. *)
Lemma clearing_lock_fields s merged lines_ bonus :
  board (clearing_lock s merged lines_ bonus) = mark_lines merged lines_ /\
  linesToClear (clearing_lock s merged lines_ bonus) = lines_ /\
  lines (clearing_lock s merged lines_ bonus) = lines s + Z.of_nat (length lines_).
Proof. by repeat split. Qed.

(** [APPLY_CLEARING] with rows pending stores the collapsed board, empties
    the pending list and leaves the lines counter. *)
Lemma reducer_apply_clearing s g :
  linesToClear s <> [] ->
  has_rows (clearFullLines (board s) (linesToClear s)) ->
  exists s2 g2,
    reducer s APPLY_CLEARING g = Ok (s2, g2) /\
    board s2 = clearFullLines (board s) (linesToClear s) /\
    linesToClear s2 = [] /\
    lines s2 = lines s.
Proof.
  intros Hpending Hrows.
  destruct (spawnPiece_total (nextQueue s) g) as (next & queue_now & g2 & Hspawn).
  destruct (collides_total (clearFullLines (board s) (linesToClear s))
              (spawn_piece next) None None Hrows) as [blocked Hblocked].
  { pose proof (spawnPiece_rotation _ _ _ _ Hspawn) as Hr0. simpl in *. lia. }
  unfold reducer, bind, lift, ret.
  destruct (linesToClear s) as [|l ls] eqn:Hl; [done|]. cbn [length Nat.eqb].
  cbv zeta beta. rewrite Hspawn. cbn [nextQueue with_nextQueue board].
  rewrite Hblocked. destruct blocked; eexists _, _; (split; [reflexivity|]); by repeat split.
Qed.

(** X12. A clearing lock followed by the collapse leaves no full row.  After
    a lock by [TICK] or [HARD_DROP] that completes rows, the pending rows
    are the full rows of the merged board, and [APPLY_CLEARING] on the state
    returned yields a board of the same height without any full row, an
    empty pending list and the lines counter raised by the number of rows
    completed. *)
Theorem lock_then_collapse (s : GameState) (a : Action) (g : Rng)
    (landed : ActivePiece) (dropped : Z) (merged : Board) :
  status s = Playing ->
  has_rows merged ->
  lock_of s a landed dropped ->
  mergePiece (board s) landed = Ok merged ->
  findFullLines merged <> [] ->
  exists s1 s2 g2,
    reducer s a g = Ok (s1, g) /\
    linesToClear s1 = findFullLines merged /\
    reducer s1 APPLY_CLEARING g = Ok (s2, g2) /\
    findFullLines (board s2) = [] /\
    linesToClear s2 = [] /\
    length (board s2) = length merged /\
    lines s2 = lines s + Z.of_nat (length (findFullLines merged)).
Proof.
  intros Hst Hrows Hlock Hmerge Hlines.
  pose proof (reducer_clearing_lock s a g landed dropped merged Hst Hlock Hmerge Hlines) as H1.
  destruct (collapse_leaves_no_full_row merged) as [Hnone Hlen].
  destruct (clearing_lock_fields s merged (findFullLines merged) (drop_bonus a dropped))
    as (Hb1 & Hp1 & Hn1).
  remember (clearing_lock s merged (findFullLines merged) (drop_bonus a dropped)) as s1
    eqn:Hs1. clear Hs1.
  destruct (reducer_apply_clearing s1 g) as (s2 & g2 & Hrun2 & Hb2 & Hp2 & Hn2).
  { by rewrite Hp1. }
  { unfold has_rows in *. rewrite Hb1, Hp1. by rewrite Hlen. }
  exists s1, s2, g2. rewrite Hb2, Hp2, Hn2, Hb1, Hp1, Hn1. by repeat split.
Qed.

Lemma filled_board_has_rows : has_rows filled_board.
Proof. unfold has_rows. by vm_compute. Qed.

Lemma lock_then_collapse_witness :
  exists s1 s2 g2,
    reducer (gap_state 10 0) TICK zero_rng = Ok (s1, zero_rng) /\
    linesToClear s1 = [21] /\
    reducer s1 APPLY_CLEARING zero_rng = Ok (s2, g2) /\
    findFullLines (board s2) = [] /\ board s2 = EMPTY_BOARD /\ lines s2 = 11.
Proof.
  destruct (lock_then_collapse (gap_state 10 0) TICK zero_rng
              (mkPiece I_ 0 (mkPos 3 20)) 0 filled_board)
    as (s1 & s2 & g2 & H1 & Hp & H2 & Hnone & _ & _ & Hlines).
  - reflexivity.
  - exact filled_board_has_rows.
  - by repeat split.
  - vm_compute. reflexivity.
  - vm_compute. discriminate.
  - exists s1, s2, g2. split; [exact H1|].
    vm_compute in H1. inversion H1; subst s1.
    split; [reflexivity|]. split; [exact H2|]. split; [exact Hnone|].
    vm_compute in H2. inversion H2; subst s2. split; reflexivity.
Defined.

(** ** Spawning *)

Lemma lookup_In {A} (l : list A) (i : nat) (x : A) : l !! i = Some x -> In x l.
Proof. intros H. apply list_elem_of_In. by eapply list_elem_of_lookup_2. Qed.

(** [cells_within] decides that no cell is set outside the window. *)
Lemma cells_within_sound (w h : nat) matrix (i j : nat) :
  cells_within w h matrix = true -> cell_set matrix i j -> (i < w)%nat /\ (j < h)%nat.
Proof.
  unfold cells_within, row_clear. intros Hin (row & v & Hj & Hi & Hv).
  apply andb_prop in Hin as [Hrows Hcols].
  rewrite forallb_forall in Hrows, Hcols.
  split.
  - destruct (decide (i < w)%nat) as [|Hge]; [done|]. exfalso.
    specialize (Hcols row (lookup_In _ _ _ Hj)).
    rewrite forallb_forall in Hcols.
    assert (Hv' : drop w row !! (i - w)%nat = Some v).
    { rewrite lookup_drop. replace (w + (i - w))%nat with i by lia. done. }
    specialize (Hcols v (lookup_In _ _ _ Hv')).
    apply Z.eqb_eq in Hcols. done.
  - destruct (decide (j < h)%nat) as [|Hge]; [done|]. exfalso.
    assert (Hj' : drop h matrix !! (j - h)%nat = Some row).
    { rewrite lookup_drop. replace (h + (j - h))%nat with j by lia. done. }
    specialize (Hrows row (lookup_In _ _ _ Hj')).
    rewrite forallb_forall in Hrows.
    specialize (Hrows v (lookup_In _ _ _ Hi)).
    apply Z.eqb_eq in Hrows. done.
Qed.

(** The set cells of every kind's first rotation state lie in its first two
    rows and first four columns. *)
Lemma spawn_matrix_window k matrix (i j : nat) :
  getPieceMatrix k 0 = Some matrix -> cell_set matrix i j -> (i < 4)%nat /\ (j < 2)%nat.
Proof.
  intros Hm Hset. apply (cells_within_sound 4 2 matrix); [|done].
  destruct k; vm_compute in Hm; inversion Hm; reflexivity.
Qed.

(** The spawn pose is free on a board whose hidden rows are empty. *)
Lemma spawn_free_hidden (grid : Board) (k : TetrominoKey) :
  has_rows grid ->
  grid = replicate (Z.to_nat (BOARD_HEIGHT - VISIBLE_ROWS)) EMPTY_ROW ++ getVisibleBoard grid ->
  collides grid (spawn_pose k) None None = Ok false.
Proof.
  intros Hrows Hgrid.
  destruct (getPieceMatrix_nonneg k 0 ltac:(lia)) as (m & Hm & _).
  destruct (collides_rows_spec grid Hrows (mkPos 3 0) m 0) as (b & Hb & Hspec).
  unfold collides. simpl type. simpl rotation. simpl default. rewrite Hm, Hb.
  destruct b; [|done]. exfalso.
  destruct Hspec as [Hex _].
  destruct (Hex eq_refl) as (i & j & row & v & Hj & Hi & Hv & Hblk).
  destruct (spawn_matrix_window k m i j Hm) as [Hi4 Hj2]; [by exists row, v|].
  simpl in Hblk. unfold blocking, BOARD_WIDTH, BOARD_HEIGHT in Hblk.
  destruct Hblk as [?|[?|[?|[_ (r & c & Hr & Hc)]]]]; [lia..|].
  apply at_index_Some in Hr as [_ Hr]. apply at_index_Some in Hc as [_ Hc].
  rewrite Hgrid in Hr. rewrite lookup_app_l in Hr by (rewrite length_replicate; unfold BOARD_HEIGHT, VISIBLE_ROWS; lia).
  apply lookup_replicate in Hr as [-> _].
  unfold EMPTY_ROW in Hc. apply lookup_replicate in Hc as [Hc _]. discriminate.
Qed.

(** X13. No spawn collides while the hidden rows are empty.  On a board
    whose rows above the visible board (the rows [getVisibleBoard] drops)
    are empty, the spawn pose of every kind is free: the game can end by a
    blocked spawn only once a locked cell sits in a hidden row. *)
Theorem spawn_free_above_visible (grid : Board) (k : TetrominoKey) :
  has_rows grid ->
  grid = replicate (Z.to_nat (BOARD_HEIGHT - VISIBLE_ROWS)) EMPTY_ROW ++ getVisibleBoard grid ->
  collides grid (spawn_pose k) None None = Ok false.
Proof. apply spawn_free_hidden. Qed.

Lemma spawn_free_above_visible_witness :
  collides gap_board (spawn_pose S_) None None = Ok false.
Proof.
  apply (spawn_free_above_visible gap_board S_).
  - exact gap_board_has_rows.
  - reflexivity.
Defined.

(** ** Hold, continued *)

(** X14. A hold that succeeds swaps and does not consume the queue.  On a
    playing state with hold available whose candidate piece is free, [HOLD]
    makes the candidate the active piece, stores the kind that was active
    and turns the hold-available flag off, and changes nothing else: the
    queue in particular is the one of the input, so that with an empty hold
    slot the kind made active is still the first of the queue. *)
Theorem hold_swap (s : GameState) (g g' : Rng) (cand : ActivePiece) :
  status s = Playing ->
  canHold s = true ->
  hold_candidate s g = Ok (cand, g') ->
  collides (board s) cand None None = Ok false ->
  exists s',
    reducer s HOLD g = Ok (s', g') /\
    current s' = cand /\
    holdPiece s' = Some (type (current s)) /\
    canHold s' = false /\
    s' = with_canHold false (with_holdPiece (holdPiece s') (with_current cand s)) /\
    nextQueue s' = nextQueue s /\
    match holdPiece s with
    | Some h => cand = spawn_pose h /\ g' = g
    | None =>
        match nextQueue s with
        | first :: rest => cand = spawn_pose first /\ nextQueue s' = first :: rest
        | [] => True
        end
    end.
Proof.
  intros Hst Hcan Hcand Hfree.
  eexists. split; [by apply (reducer_hold_playing s g cand g' false)|].
  repeat (split; [reflexivity|]).
  unfold hold_candidate in Hcand. destruct (holdPiece s) as [h|].
  - by inversion Hcand.
  - destruct (nextQueue s) as [|first rest] eqn:Hq; [done|].
    destruct (spawnPiece_spec (first :: rest) g)
      as (spawn & q & g1 & Hrun & _ & np & rest' & Hq' & Hsame & Hpiece & _).
    rewrite Hrun in Hcand. inversion Hcand; subst.
    inversion Hsame; subst. split; [exact Hpiece|]. simpl. exact Hq.
Qed.

Lemma hold_swap_witness :
  exists s',
    reducer (with_status Playing idle_state) HOLD zero_rng = Ok (s', zero_rng) /\
    type (current s') = L_ /\ holdPiece s' = Some J_ /\
    nextQueue s' = L_ :: [O_; S_; T_; Z_; I_; I_; J_; L_; O_; S_; T_; Z_].
Proof.
  destruct (hold_swap (with_status Playing idle_state) zero_rng zero_rng (spawn_pose L_))
    as (s' & Hrun & Hcur & Hhold & _ & _ & Hq & _); try (vm_compute; reflexivity).
  exists s'. split; [exact Hrun|]. rewrite Hcur, Hhold, Hq. repeat split.
Defined.

(** ** Starting *)

Lemma randomBag_run g :
  exists first rest g',
    randomBag g = Ok (first :: rest, g') /\ first :: rest ≡ₚ ALL_KINDS /\
    length rest = 6%nat /\ draws g' = draws g /\ cursor g' = (cursor g + 6)%nat.
Proof.
  destruct (randomBag_Permutation g) as (bag & g' & Hrun & Hperm).
  destruct (shuffle_from_draws _ _ _ _ _ Hrun) as [Hd Hc].
  pose proof (Permutation_length Hperm) as Hlen.
  destruct bag as [|first rest]; [discriminate|].
  exists first, rest, g'. simpl in Hlen. repeat split; try done. lia.
Qed.

(** What a run of [startingState] returns. *)
Lemma startingState_run (g : Rng) :
  exists s0 g',
    startingState g = Ok (s0, g') /\
    current s0 = spawn_pose (type (current s0)) /\
    length (nextQueue s0) = 13%nat /\
    type (current s0) :: take 6 (nextQueue s0) ≡ₚ ALL_KINDS /\
    drop 6 (nextQueue s0) ≡ₚ ALL_KINDS /\
    status s0 = Idle /\ board s0 = EMPTY_BOARD /\ score s0 = Num 0 /\
    level s0 = 1 /\ lines s0 = 0 /\ combo s0 = -1 /\
    holdPiece s0 = None /\ canHold s0 = true /\ linesToClear s0 = [] /\
    dropDelay s0 = calculateDelay 1 /\
    cursor g' = (cursor g + 12)%nat.
Proof.
  destruct (randomBag_run g) as (first & rest & g1 & Hrun1 & Hperm1 & Hlen1 & _ & Hc1).
  destruct (randomBag_run g1) as (first2 & rest2 & g2 & Hrun2 & Hperm2 & Hlen2 & _ & Hc2).
  eexists _, g2. unfold startingState, bind, ret. rewrite Hrun1. cbn [hd tl]. rewrite Hrun2.
  split; [reflexivity|]. cbn [current nextQueue type].
  split; [reflexivity|]. split; [rewrite length_app; simpl; lia|].
  rewrite take_app_length' by done. rewrite drop_app_length' by done.
  repeat split; try done. lia.
Qed.

(** X15. The state a fresh page starts from.  [startingState] deals two
    bags: the active piece and the first six of the queue are the seven
    kinds once each, the other seven of the queue are the seven kinds once
    each; the state is idle with an empty board, the piece at the spawn
    pose, counters at their start values, and twelve random numbers are
    drawn. *)
Theorem startingState_deal (g : Rng) :
  exists s0 g',
    startingState g = Ok (s0, g') /\
    current s0 = spawn_pose (type (current s0)) /\
    length (nextQueue s0) = 13%nat /\
    type (current s0) :: take 6 (nextQueue s0) ≡ₚ ALL_KINDS /\
    drop 6 (nextQueue s0) ≡ₚ ALL_KINDS /\
    status s0 = Idle /\ board s0 = EMPTY_BOARD /\ score s0 = Num 0 /\
    level s0 = 1 /\ lines s0 = 0 /\ combo s0 = -1 /\
    holdPiece s0 = None /\ canHold s0 = true /\ linesToClear s0 = [] /\
    dropDelay s0 = calculateDelay 1 /\
    cursor g' = (cursor g + 12)%nat.
Proof. apply startingState_run. Qed.

(** X16. A new game.  Whatever the state before, [startGame] and the [RESET]
    it dispatches return a playing state with an empty board, a piece at the
    spawn pose that fits, counters at their start values and an empty hold
    slot; the active piece and the six pieces of the queue are the seven
    kinds once each.  The bags [RESET] draws inside [startingState] are
    discarded: eighteen random numbers are consumed. *)
Theorem newGame_deal (s : GameState) (g : Rng) :
  exists s' g',
    newGame s g = Ok (s', g') /\
    status s' = Playing /\ board s' = EMPTY_BOARD /\
    current s' = spawn_pose (type (current s')) /\
    length (nextQueue s') = 6%nat /\
    type (current s') :: nextQueue s' ≡ₚ ALL_KINDS /\
    collides (board s') (current s') None None = Ok false /\
    score s' = Num 0 /\ level s' = 1 /\ lines s' = 0 /\ combo s' = -1 /\
    stats s' = mkStats 0 0 0 0 0 0 /\
    holdPiece s' = None /\ canHold s' = true /\ linesToClear s' = [] /\
    dropDelay s' = INITIAL_DROP_DELAY /\
    cursor g' = (cursor g + 18)%nat.
Proof.
  destruct (randomBag_run g) as (first & rest & g1 & Hrun1 & Hperm1 & Hlen1 & _ & Hc1).
  destruct (startingState_run g1) as (s0 & g2 & Hstart & _ & _ & _ & _ & _ & _ & _ & _ & _ & _ & _ & _ & _ & _ & Hc2).
  pose proof (startingState_fields _ _ _ Hstart)
    as (_ & Hh & Hcan & _ & Hsc & Hlv & Hln & Hcb & Hsts & Hltc & Hdd & _).
  exists (with_status Playing (with_nextQueue rest (with_current (spawn_pose first)
            (with_board EMPTY_BOARD s0)))), g2.
  split.
  { unfold newGame, startGame, bind, ret. rewrite Hrun1. cbn [hd tl reducer].
    unfold bind, ret. by rewrite Hstart. }
  cbn. rewrite Hh, Hcan, Hsc, Hlv, Hln, Hcb, Hsts, Hltc, Hdd.
  repeat split; try done.
  - apply (spawn_free_hidden EMPTY_BOARD first); [apply EMPTY_BOARD_has_rows|done].
  - lia.
Qed.

(** ** Round trips *)

Lemma pos_add_0 p : mkPos (px p + 0) (py p + 0) = p.
Proof. destruct p. simpl. by rewrite !Z.add_0_r. Qed.

(** X17. A move can be taken back.  On a playing state whose piece fits, a
    [MOVE] to a free pose shifts the position by exactly the offset and
    changes nothing else, and the [MOVE] by the opposite offset returns the
    state it started from. *)
Theorem move_round_trip (s : GameState) (dx dy : Z) (g : Rng) :
  status s = Playing ->
  collides (board s) (current s) None None = Ok false ->
  collides (board s) (current s)
    (Some (mkPos (px (position (current s)) + dx) (py (position (current s)) + dy))) None
    = Ok false ->
  exists s1,
    reducer s (MOVE dx dy) g = Ok (s1, g) /\
    s1 = with_current
           (with_position
              (mkPos (px (position (current s)) + dx) (py (position (current s)) + dy))
              (current s)) s /\
    reducer s1 (MOVE (- dx) (- dy)) g = Ok (s, g).
Proof.
  intros Hst Hfit Hfree. eexists. split; [|split; [reflexivity|]].
  - unfold reducer, bind, lift, ret. rewrite Hst, bool_decide_eq_true_2 by done.
    cbn [negb]. by rewrite Hfree.
  - unfold reducer, bind, lift, ret. cbn [status with_current].
    rewrite Hst, bool_decide_eq_true_2 by done. cbn [negb].
    cbn [current with_current position with_position px py board].
    replace (px (position (current s)) + dx + - dx) with (px (position (current s))) by lia.
    replace (py (position (current s)) + dy + - dy) with (py (position (current s))) by lia.
    assert (Hsame : collides (board s)
                      (with_position
                         (mkPos (px (position (current s)) + dx)
                                (py (position (current s)) + dy)) (current s))
                      (Some (mkPos (px (position (current s))) (py (position (current s)))))
                      None = Ok false).
    { rewrite <- Hfit. unfold collides. cbn. by destruct (position (current s)). }
    rewrite Hsame.
    destruct s as [b [t r [x y]] q h c st sc lv ln cb sts ltc dd]. reflexivity.
Qed.

Lemma move_round_trip_witness :
  exists s1,
    reducer (with_status Playing idle_state) (MOVE 2 5) zero_rng = Ok (s1, zero_rng) /\
    position (current s1) = mkPos 5 5 /\
    reducer s1 (MOVE (-2) (-5)) zero_rng = Ok (with_status Playing idle_state, zero_rng).
Proof.
  destruct (move_round_trip (with_status Playing idle_state) 2 5 zero_rng)
    as (s1 & H1 & -> & H2); try (vm_compute; reflexivity).
  eexists. split; [exact H1|]. split; [reflexivity|exact H2].
Defined.

(** Every kick list starts with the offset [(0, 0)]. *)
Lemma kicks_start_unkicked (t : TetrominoKey) r d :
  0 <= r ->
  let nextRotation := Z.rem (r + direction_value d + 4) 4 in
  let key := getRotationKey r nextRotation in
  let kicksTable : gmap string (list Pos) :=
    match t with
    | O_ => {[ key := [kick 0 0] ]}
    | I_ => SRS_KICKS_I
    | _ => SRS_KICKS_DEFAULT
    end in
  exists rest, default [kick 0 0] (kicksTable !! key) = kick 0 0 :: rest.
Proof.
  intros Hr nextRotation key kicksTable.
  destruct (rotation_key r d Hr) as (Hrem & Htarget & Hkey & _).
  assert (Hfrom : 0 <= r mod 4 < 4) by (apply Z.mod_pos_bound; lia).
  assert (Hstep : (r + direction_value d) mod 4 = (r mod 4 + direction_value d + 4) mod 4).
  { rewrite <- Zplus_mod_idemp_l with (a := r).
    replace (r mod 4 + direction_value d + 4) with (r mod 4 + direction_value d + 1 * 4) by lia.
    by rewrite Z.mod_add by lia. }
  subst kicksTable key nextRotation. rewrite Hrem, Hkey, Hstep.
  destruct t; try (rewrite lookup_singleton_eq; by eexists);
    assert (Hcases : r mod 4 = 0 \/ r mod 4 = 1 \/ r mod 4 = 2 \/ r mod 4 = 3) by lia;
    destruct Hcases as [Hc|[Hc|[Hc|Hc]]]; rewrite Hc; destruct d; vm_compute; by eexists.
Qed.

(** A rotation whose target pose is free at the piece's own position is not
    kicked. *)
Lemma applyKickTests_unkicked board piece d :
  0 <= rotation piece ->
  let target := Z.rem (rotation piece + direction_value d + 4) 4 in
  collides board piece (Some (position piece)) (Some target) = Ok false ->
  applyKickTests board piece d = Ok (Some (mkKicked (position piece) target)).
Proof.
  intros Hrot target Hfree. unfold applyKickTests. fold target.
  destruct (kicks_start_unkicked (type piece) (rotation piece) d Hrot) as [rest Hk].
  cbv zeta in Hk. fold target in Hk. rewrite Hk. cbn [try_kicks].
  change (px (kick 0 0)) with 0. change (py (kick 0 0)) with 0.
  rewrite pos_add_0, Hfree. reflexivity.
Qed.

(** X18. A rotation in place can be taken back.  On a playing state whose
    piece fits and has a rotation index from 0 to 3, if the rotated piece is
    free at the same position, [ROTATE] turns it there without a kick, and
    [ROTATE] in the opposite direction returns the state it started from. *)
Theorem rotate_round_trip (s : GameState) (d : Direction) (g : Rng) :
  status s = Playing ->
  0 <= rotation (current s) < 4 ->
  collides (board s) (current s) None None = Ok false ->
  let target := (rotation (current s) + direction_value d) mod 4 in
  collides (board s) (current s) (Some (position (current s))) (Some target) = Ok false ->
  exists s1,
    reducer s (ROTATE d) g = Ok (s1, g) /\
    s1 = with_current (mkPiece (type (current s)) target (position (current s))) s /\
    reducer s1 (ROTATE (opposite d)) g = Ok (s, g).
Proof.
  intros Hst Hrot Hfit target Hfree.
  destruct (rotation_key (rotation (current s)) d ltac:(lia)) as (Hrem & Htarget & _).
  fold target in Hrem, Htarget.
  set (s1 := with_current (mkPiece (type (current s)) target (position (current s))) s).
  assert (Hback : Z.rem (target + direction_value (opposite d) + 4) 4 = rotation (current s)).
  { rewrite Z.rem_mod_nonneg by (destruct d; simpl; lia). subst target.
    destruct d; simpl direction_value.
    - replace ((rotation (current s) + 1) mod 4 + -1 + 4)
        with ((rotation (current s) + 1) mod 4 + 3) by lia.
      rewrite Zplus_mod_idemp_l.
      replace (rotation (current s) + 1 + 3) with (rotation (current s) + 1 * 4) by lia.
      rewrite Z.mod_add by lia. apply Z.mod_small. lia.
    - replace ((rotation (current s) + -1) mod 4 + 1 + 4)
        with ((rotation (current s) + -1) mod 4 + 5) by lia.
      rewrite Zplus_mod_idemp_l.
      replace (rotation (current s) + -1 + 5) with (rotation (current s) + 1 * 4) by lia.
      rewrite Z.mod_add by lia. apply Z.mod_small. lia. }
  exists s1. split; [|split; [reflexivity|]].
  - unfold reducer, bind, lift, ret. rewrite Hst, bool_decide_eq_true_2 by done. cbn [negb].
    pose proof (applyKickTests_unkicked (board s) (current s) d ltac:(lia)) as Hk.
    cbv zeta in Hk. rewrite Hrem in Hk. rewrite (Hk Hfree). reflexivity.
  - unfold reducer, bind, lift, ret.
    change (status s1) with (status s). rewrite Hst, bool_decide_eq_true_2 by done.
    cbn [negb].
    rewrite (applyKickTests_unkicked (board s1) (current s1) (opposite d)).
    + change (rotation (current s1)) with target. rewrite Hback.
      destruct s as [b [t r p] q h c st sc lv ln cb sts ltc dd]. reflexivity.
    + change (rotation (current s1)) with target. lia.
    + change (rotation (current s1)) with target. rewrite Hback.
      rewrite <- Hfit. unfold collides. reflexivity.
Qed.

Lemma rotate_round_trip_witness :
  exists s1,
    reducer (with_status Playing idle_state) (ROTATE Counterclockwise) zero_rng
      = Ok (s1, zero_rng) /\
    rotation (current s1) = 3 /\
    reducer s1 (ROTATE Clockwise) zero_rng = Ok (with_status Playing idle_state, zero_rng).
Proof.
  destruct (rotate_round_trip (with_status Playing idle_state) Counterclockwise zero_rng)
    as (s1 & H1 & -> & H2); try (vm_compute; reflexivity).
  - simpl. lia.
  - eexists. split; [exact H1|]. split; [reflexivity|exact H2].
Defined.

(** ** Guards *)

(** X19. Piece actions are ignored unless playing.  In a state whose status
    is not playing, [MOVE], [ROTATE], [TICK], [HARD_DROP] and [HOLD] return
    the state as it is and draw no entropy; [APPLY_CLEARING] does the same
    when no rows are pending, whatever the status. *)
Theorem piece_actions_need_playing (s : GameState) (a : Action) (g : Rng) :
  (is_piece_action a = true /\ status s <> Playing) \/
  (a = APPLY_CLEARING /\ linesToClear s = []) ->
  reducer s a g = Ok (s, g).
Proof.
  intros [[Ha Hst]|[-> Hl]].
  - destruct a; try discriminate; unfold reducer;
      by rewrite bool_decide_eq_false_2 by done.
  - unfold reducer. by rewrite Hl.
Qed.

Lemma piece_actions_need_playing_witness :
  reducer (with_status Paused stacked_state) HARD_DROP zero_rng
    = Ok (with_status Paused stacked_state, zero_rng).
Proof.
  apply piece_actions_need_playing. left. split; [reflexivity|discriminate].
Defined.

(** X20. A soft drop never locks.  On a playing state [MOVE 0 1] does what
    [TICK] does as long as the piece can fall one row; when it cannot,
    [MOVE 0 1] returns the state unchanged, where [TICK] locks the piece. *)
Theorem soft_drop_never_locks (s : GameState) (g : Rng) (blocked : bool) :
  status s = Playing ->
  collides (board s) (current s)
    (Some (mkPos (px (position (current s))) (py (position (current s)) + 1))) None
    = Ok blocked ->
  reducer s (MOVE 0 1) g = (if blocked then Ok (s, g) else reducer s TICK g) /\
  (blocked = false ->
   reducer s TICK g = Ok (lowered s 1, g)).
Proof.
  intros Hst Hcol. unfold reducer, bind, lift, ret.
  rewrite Hst, bool_decide_eq_true_2 by done. cbn [negb].
  rewrite Z.add_0_r, Hcol. destruct blocked; [by split|]. cbn [negb]. by split.
Qed.

Lemma soft_drop_never_locks_witness :
  reducer stacked_state (MOVE 0 1) zero_rng = Ok (stacked_state, zero_rng) /\
  reducer (with_status Playing idle_state) (MOVE 0 1) zero_rng
    = reducer (with_status Playing idle_state) TICK zero_rng.
Proof.
  split.
  - apply (soft_drop_never_locks stacked_state zero_rng true); reflexivity.
  - apply (soft_drop_never_locks (with_status Playing idle_state) zero_rng false); reflexivity.
Defined.

(** ** Edges of the row collapse *)

(** X21. [clearFullLines] never shortens a board, whatever indices it is
    given; an index at or past the end removes no row, and the empty row is
    added all the same, so the board grows by one. *)
Theorem clearFullLines_never_shrinks (grid : Board) (lines_ : list Z) (l : Z) :
  (length grid <= length (clearFullLines grid lines_))%nat /\
  (Z.of_nat (length grid) <= l -> clearFullLines grid [l] = EMPTY_ROW :: grid).
Proof.
  split; [apply clearFullLines_length|].
  intros Hl. unfold clearFullLines. simpl. rewrite cloneBoard_id. f_equal.
  unfold splice1. destruct (Z.ltb_spec l 0); [lia|].
  rewrite Z.min_r by lia. rewrite Nat2Z.id. apply list_eq. intros i.
  destruct (decide (i < length grid)%nat).
  - by rewrite list_lookup_delete_lt.
  - rewrite list_lookup_delete_ge by lia. rewrite !lookup_ge_None_2; [done|lia|lia].
Qed.

Lemma clearFullLines_never_shrinks_witness :
  clearFullLines [FULL_ROW; GAP_ROW] [2] = [EMPTY_ROW; FULL_ROW; GAP_ROW].
Proof.
  destruct (clearFullLines_never_shrinks [FULL_ROW; GAP_ROW] [] 2) as [_ Hgrow].
  apply Hgrow. simpl. lia.
Defined.

(** ** Marking *)

Lemma mark_row_idemp row : mark_row (mark_row row) = mark_row row.
Proof.
  unfold mark_row. rewrite map_map. apply map_ext. by intros [c|].
Qed.

Lemma mark_fold_lookup lines_ (i : nat) : forall acc : Board,
  fold_left (fun marked line =>
               if line <? 0 then marked else alter mark_row (Z.to_nat line) marked)
            lines_ acc !! i
  = (if bool_decide (Z.of_nat i ∈ lines_) then mark_row <$> acc !! i else acc !! i).
Proof.
  induction lines_ as [|l ls IH]; intros acc; cbn [fold_left].
  - by rewrite bool_decide_eq_false_2 by apply not_elem_of_nil.
  - rewrite IH.
    assert (Hstep : (if l <? 0 then acc else alter mark_row (Z.to_nat l) acc) !! i
                    = if bool_decide (Z.of_nat i = l) then mark_row <$> acc !! i else acc !! i).
    { destruct (Z.ltb_spec l 0).
      - by rewrite bool_decide_eq_false_2 by lia.
      - destruct (decide (Z.of_nat i = l)) as [Heq|Hne].
        + rewrite bool_decide_eq_true_2 by done.
          subst l. rewrite Nat2Z.id. apply list_lookup_alter_eq.
        + rewrite bool_decide_eq_false_2 by done.
          apply list_lookup_alter_ne. lia. }
    rewrite Hstep.
    destruct (decide (Z.of_nat i = l)) as [Heq|Hne].
    + rewrite (bool_decide_eq_true_2 (Z.of_nat i = l)) by done.
      rewrite (bool_decide_eq_true_2 (Z.of_nat i ∈ l :: ls)) by (rewrite Heq; apply elem_of_cons; by left).
      destruct (acc !! i) as [r|]; simpl; [|by destruct (bool_decide _)].
      rewrite mark_row_idemp. by destruct (bool_decide _).
    + rewrite (bool_decide_eq_false_2 (Z.of_nat i = l)) by done.
      destruct (decide (Z.of_nat i ∈ ls)) as [Hin|Hin].
      * rewrite !bool_decide_eq_true_2; [done|apply elem_of_cons; by right|done].
      * rewrite !bool_decide_eq_false_2; [done| |done].
        intros [?|?]%elem_of_cons; done.
Qed.

(** X22. Marking for clearing.  In the board a clearing lock stores, a row
    listed as pending has the [clearing] flag set on each of its cells,
    kind and locked flag kept and empty cells left empty; every other row is
    the row of the merged board.  Indices that are not rows of the board
    are skipped. *)
Theorem mark_lines_rows (merged : Board) (lines_ : list Z) (i : nat) :
  mark_lines merged lines_ !! i =
    (if bool_decide (Z.of_nat i ∈ lines_)
     then map (fun cell => match cell with
                           | Some c => Some (mkCell (cell_type c) (locked c) (Some true))
                           | None => None
                           end) <$> merged !! i
     else merged !! i) /\
  length (mark_lines merged lines_) = length merged.
Proof.
  split.
  - unfold mark_lines. rewrite cloneBoard_id. apply mark_fold_lookup.
  - rewrite <- (length_fmap (forallb truthy)), mark_lines_full. apply length_fmap.
Qed.

(** ** What a lock resets *)

(** X23. A lock re-enables hold and settles the combo counter.  On a playing
    state with its rows, a lock by [TICK] or [HARD_DROP] returns; unless it
    ends the game, the state returned is playing with hold available, and
    its combo counter is one more than before when rows were completed and
    the sentinel [-1] when none was.  A lock that ends the game leaves the
    flag and the counter as they were. *)
Theorem lock_resets_hold_and_combo (s : GameState) (a : Action) (g : Rng)
    (landed : ActivePiece) (dropped : Z) :
  status s = Playing ->
  has_rows (board s) ->
  0 <= rotation (current s) ->
  lock_of s a landed dropped ->
  exists merged s' g',
    mergePiece (board s) landed = Ok merged /\
    reducer s a g = Ok (s', g') /\
    ((status s' = Gameover /\ canHold s' = canHold s /\ combo s' = combo s /\
      findFullLines merged = []) \/
     (status s' = Playing /\ canHold s' = true /\
      combo s' = if decide (findFullLines merged = []) then -1 else combo s + 1)).
Proof.
  intros Hst Hrows Hrot Hlock.
  assert (Hrl : rotation landed = rotation (current s)).
  { destruct a; try done; unfold lock_of in Hlock.
    - by destruct Hlock as (_ & -> & _).
    - by destruct Hlock as (_ & ->). }
  destruct (mergePiece_total (board s) landed Hrows) as (merged & Hmerge & Hlen); [lia|].
  exists merged.
  destruct (decide (findFullLines merged = [])) as [Hnone|Hsome].
  - destruct (spawnPiece_total (nextQueue s) g) as (next & queue_now & g' & Hspawn).
    assert (Hm : has_rows merged) by (unfold has_rows in *; by rewrite Hlen).
    destruct (collides_total merged (spawn_piece next) None None Hm) as [blocked Hblocked].
    { pose proof (spawnPiece_rotation _ _ _ _ Hspawn) as Hr0. simpl in *. lia. }
    destruct blocked.
    + eexists _, g'. split; [done|]. split.
      { by apply (reducer_blocked_lock s a g g' landed dropped merged next queue_now). }
      left. by repeat split.
    + eexists _, g'. split; [done|]. split.
      { by apply (reducer_respawn_lock s a g g' landed dropped merged next queue_now). }
      right. by repeat split.
  - eexists _, g. split; [done|]. split.
    { by apply (reducer_clearing_lock s a g landed dropped merged). }
    right. by repeat split.
Qed.

Lemma lock_resets_hold_and_combo_witness :
  exists s',
    reducer (with_canHold false (gap_state 10 3)) TICK zero_rng = Ok (s', zero_rng) /\
    canHold s' = true /\ combo s' = 4.
Proof.
  destruct (lock_resets_hold_and_combo (with_canHold false (gap_state 10 3)) TICK zero_rng
              (mkPiece I_ 0 (mkPos 3 20)) 0)
    as (merged & s' & g' & Hmerge & Hrun & Hcases).
  - reflexivity.
  - exact gap_board_has_rows.
  - simpl. lia.
  - by repeat split.
  - vm_compute in Hrun. inversion Hrun; subst s' g'.
    eexists. split; [vm_compute; reflexivity|]. split; reflexivity.
Defined.
